(** * SecureVault front end: upload coordinator and preview resolver

    A shallow embedding of the two stateful pieces of the client,

    - the [UploadButton] component with its upload modal: [uploadFile],
      [startRealUpload], [removeUpload];
    - the [PreviewModal] component (components/files/PreviewModal.tsx):
      [loadFilePreview] and the effect that runs it and cleans up after it,

    as step functions over the component state, the pending asynchronous
    continuations and a log of the browser calls they make; and of what
    stands around the preview: [renderPreview], the icon and the colour of
    the header ([getFileIcon], [getIconColorClass]), and the download
    handler the modal is given ([handleFileDownload] of pages/MainPage.tsx)
    with the file name it reads from the Content-Disposition header.  *)

From Stdlib Require Import ZArith QArith Qround Qpower Lia Lqa Bool List String Ascii.
From Stdlib Require Import DecimalString Sorted.
Import ListNotations.

Local Open Scope Z_scope.

(* ===================================================================== *)
(** * JavaScript numbers                                                  *)
(* ===================================================================== *)

(** Arithmetic on JS numbers is IEEE 754 binary64: the exact result of an
    operation is rounded to the nearest number with a 53-bit significand,
    ties to the even significand.  Finite values are carried as rationals.
    The exponent range is not modelled: the quantities of the progress
    computation lie between 2^-64 and 2^71, far from the subnormal and the
    overflow thresholds. *)
Module Js.

Definition pow2 (e : Z) : Q := Qpower 2 e.

(** Nearest integer, ties to even. *)
Definition round_half_even (q : Q) : Z :=
  let f := Qfloor q in
  match Qcompare (q - inject_Z f) (1 # 2) with
  | Lt => f
  | Gt => f + 1
  | Eq => if Z.even f then f else f + 1
  end.

(** [ilog2 q] is the exponent [e] with [2^e <= q < 2^(e+1)], for [0 < q]. *)
Definition ilog2 (q : Q) : Z :=
  let e := Z.log2 (Qnum q) - Z.log2 (Zpos (Qden q)) in
  if Qle_bool (pow2 e) q then e else e - 1.

(** Rounding of a positive rational to 53 significant bits. *)
Definition fl64_pos (q : Q) : Q :=
  let e := ilog2 q - 52 in
  inject_Z (round_half_even (q / pow2 e)) * pow2 e.

Definition fl64 (q : Q) : Q :=
  match Qcompare q 0 with
  | Eq => 0
  | Gt => fl64_pos q
  | Lt => - fl64_pos (- q)
  end.

(** The values a [number] takes in the upload code: an integer (the result
    of [Math.round] on a finite value, or a literal), [NaN] (0/0) or
    [Infinity] (n/0). *)
Inductive number : Type :=
| NaN
| Infinity
| Int (z : Z).

(** [Math.round]: nearest integer, ties towards +infinity. *)
Definition Math_round (q : Q) : Z := Qfloor (q + (1 # 2)).

(** [Math.round((loaded / total) * 100)] for the two [unsigned long long]
    fields of a ProgressEvent, each first converted to a number. *)
Definition percent (loaded total : Z) : number :=
  let l := fl64 (inject_Z loaded) in
  let t := fl64 (inject_Z total) in
  match Qcompare t 0 with
  | Eq => if Qeq_bool l 0 then NaN else Infinity
  | _ => Int (Math_round (fl64 (fl64 (l / t) * 100)))
  end.

End Js.


(* ===================================================================== *)
(** * Strings and truthiness                                              *)
(* ===================================================================== *)

Local Open Scope string_scope.

(** A value of type [string | null | undefined] in a boolean position. *)
Definition truthy (o : option string) : bool :=
  match o with
  | Some s => negb (String.eqb s "")
  | None => false
  end.

(** [a || b] on an optional string and a string. *)
Definition or_else (o : option string) (d : string) : string :=
  match o with
  | Some s => if String.eqb s "" then d else s
  | None => d
  end.

(** Template interpolation of a [string | null].  (The optional values
    interpolated below are present on the paths that interpolate them.) *)
Definition interpolate (o : option string) : string :=
  match o with
  | Some s => s
  | None => "null"
  end.

(** Template interpolation of an integer-valued number. *)
Definition show_Z (z : Z) : string := NilZero.string_of_int (Z.to_int z).

Definition dquote : string := String (ascii_of_nat 34) EmptyString.

Definition default_rest_base_url : string := "http://localhost:8080/api/v1".

(** [200 <= status && status < 300], which is also [Response.ok]. *)
Definition is_2xx (status : Z) : bool :=
  ((200 <=? status)%Z && (status <? 300)%Z)%bool.

(** What [JSON.parse] (or [Response.json]) makes of a body, as far as the
    code looks into it: the parse throws, or yields [null], or yields a
    value whose [file?.id] and [error?.message] are read. *)
Inductive ResponseBody : Type :=
| NotJson
| JsonNull
| JsonValue (file_id : option string) (error_message : option string).

(** The message of the TypeError raised by reading property [p] of [null]
    (V8 wording). *)
Definition null_property_error (p : string) : string :=
  "Cannot read properties of null (reading '" ++ p ++ "')".

(* ===================================================================== *)
(** * UploadButton                                                        *)
(* ===================================================================== *)

Module Upload.

Inductive Status : Type := uploading | completed | error.

Record UploadProgressItem : Type := mkItem {
  id : string;
  name : string;
  progress : Js.number;
  size : Z;
  status : Status
}.

(** The DOM [File] as far as it is read. *)
Record File : Type := mkFile { file_name : string; file_size : Z }.

(** What the [uploadFile] closure captures: [token] from [useAuth], the
    [folderId] prop, the [tags] state, whether the optional
    [onUploadComplete] prop is there, and the environment's base URL. *)
Record Props : Type := mkProps {
  token : option string;
  folderId : option string;
  tags : string;
  onUploadComplete : bool;
  VITE_REST_BASE_URL : option string
}.

Definition restBaseUrl (p : Props) : string :=
  or_else (VITE_REST_BASE_URL p) default_rest_base_url.

Inductive ToastKind : Type := toast_success | toast_error.

(** Calls that leave the component. *)
Inductive Effect : Type :=
| XhrSend (uploadId method url authorization : string) (timeout : Z)
          (file : File) (form_tags : option string)
| FetchMove (uploadId method url authorization folder_id : string)
| AddToast (kind : ToastKind) (message : string)
| SetTimeout (uploadId : string) (ms : Z)
| OnUploadComplete.

Definition is_network_request (e : Effect) : bool :=
  match e with
  | XhrSend _ _ _ _ _ _ _ | FetchMove _ _ _ _ _ => true
  | _ => false
  end.

(** Where a suspended [uploadFile] call waits. *)
Inductive Await : Type := AwaitXhr | AwaitMove.

Record Pending : Type := mkPending {
  p_uploadId : string;
  p_file : File;
  p_props : Props;
  p_await : Await
}.

Record State : Type := mkState {
  uploads : list UploadProgressItem;
  pending : list Pending;
  timers : list string;
  log : list Effect
}.

Definition init : State := mkState [] [] [] [].

(** How the XMLHttpRequest ends: [onload] with a status line and a body,
    [onerror], or [ontimeout]. *)
Inductive XhrOutcome : Type :=
| XhrLoad (status : Z) (statusText : string) (body : ResponseBody)
| XhrError
| XhrTimeout.

(** How the [fetch] of the move ends: a response, or a rejection. *)
Inductive MoveOutcome : Type :=
| MoveResponse (status : Z) (statusText : string) (body : ResponseBody)
| MoveRejected (message : string).

Inductive Event : Type :=
| StartRealUpload (p : Props) (files : list (string * File))
| XhrProgress (uploadId : string) (lengthComputable : bool) (loaded total : Z)
| XhrDone (uploadId : string) (o : XhrOutcome)
| MoveDone (uploadId : string) (o : MoveOutcome)
| TimerFired (uploadId : string)
| RemoveUpload (uploadId : string).

(** ** State updates *)

Definition setUploads (f : list UploadProgressItem -> list UploadProgressItem)
  (s : State) : State :=
  mkState (f (uploads s)) (pending s) (timers s) (log s).

Definition emit (e : Effect) (s : State) : State :=
  mkState (uploads s) (pending s) (timers s) (log s ++ [e])%list.

Definition set_pending (l : list Pending) (s : State) : State :=
  mkState (uploads s) l (timers s) (log s).

Definition set_timers (l : list string) (s : State) : State :=
  mkState (uploads s) (pending s) l (log s).

(** [{ ...upload, status }], [{ ...upload, progress }] and
    [{ ...upload, progress: 100, status: 'completed' }] *)
Definition set_status (st : Status) (upload : UploadProgressItem) : UploadProgressItem :=
  mkItem (id upload) (name upload) (progress upload) (size upload) st.

Definition set_progress (pr : Js.number) (upload : UploadProgressItem)
  : UploadProgressItem :=
  mkItem (id upload) (name upload) pr (size upload) (status upload).

Definition set_completed (upload : UploadProgressItem) : UploadProgressItem :=
  mkItem (id upload) (name upload) (Js.Int 100) (size upload) completed.

(** [prev.map(upload => upload.id === uploadId ? f(upload) : upload)] *)
Definition map_id (uploadId : string) (f : UploadProgressItem -> UploadProgressItem)
  (prev : list UploadProgressItem) : list UploadProgressItem :=
  map (fun upload => if String.eqb (id upload) uploadId then f upload else upload) prev.

Definition with_status (uploadId : string) (st : Status) :=
  map_id uploadId (set_status st).

Definition with_progress (uploadId : string) (pr : Js.number) :=
  map_id uploadId (set_progress pr).

Definition with_completed (uploadId : string) := map_id uploadId set_completed.

(** [prev.filter(upload => upload.id !== uploadId)] *)
Definition without (uploadId : string)
  (prev : list UploadProgressItem) : list UploadProgressItem :=
  filter (fun upload => negb (String.eqb (id upload) uploadId)) prev.

(** ** Pending calls *)

Fixpoint take_pending (uploadId : string) (a : Await) (l : list Pending)
  : option (Pending * list Pending) :=
  match l with
  | [] => None
  | c :: rest =>
      if String.eqb (p_uploadId c) uploadId
         && match p_await c, a with
            | AwaitXhr, AwaitXhr | AwaitMove, AwaitMove => true
            | _, _ => false
            end
      then Some (c, rest)
      else match take_pending uploadId a rest with
           | Some (c', rest') => Some (c', c :: rest')
           | None => None
           end
  end.

(** ** [tags.trim()]

    A string is held as the bytes of its UTF-8 encoding.  [trim] strips, at
    both ends, the white space and the line terminators of ECMAScript:
    U+0009 to U+000D and U+0020 (one byte each), U+00A0 (C2 A0), U+1680
    (E1 9A 80), U+2000 to U+200A (E2 80 80 to E2 80 8A), U+2028 and U+2029
    (E2 80 A8, E2 80 A9), U+202F (E2 80 AF), U+205F (E2 81 9F), U+3000
    (E3 80 80) and U+FEFF (EF BB BF). *)

Definition is_space1 (a : ascii) : bool :=
  let a := N_of_ascii a in
  ((9 <=? a) && (a <=? 13) || (a =? 32))%N%bool.

Definition is_space2 (a b : ascii) : bool :=
  ((N_of_ascii a =? 194) && (N_of_ascii b =? 160))%N%bool.

Definition is_space3 (a b c : ascii) : bool :=
  let a := N_of_ascii a in
  let b := N_of_ascii b in
  let c := N_of_ascii c in
  ((a =? 225) && (b =? 154) && (c =? 128)
   || (a =? 226) && (b =? 128)
      && ((128 <=? c) && (c <=? 138) || (c =? 168) || (c =? 169) || (c =? 175))
   || (a =? 226) && (b =? 129) && (c =? 159)
   || (a =? 227) && (b =? 128) && (c =? 128)
   || (a =? 239) && (b =? 187) && (c =? 191))%N%bool.

(** The bytes of a string without the white space they start with; read
    from the end of the string when [backwards], so that the bytes of a
    character come last byte first. *)
Fixpoint strip (backwards : bool) (s : list ascii) : list ascii :=
  match s with
  | [] => []
  | a :: r1 =>
      if is_space1 a then strip backwards r1
      else
        match r1 with
        | [] => s
        | b :: r2 =>
            if (if backwards then is_space2 b a else is_space2 a b)
            then strip backwards r2
            else
              match r2 with
              | [] => s
              | c :: r3 =>
                  if (if backwards then is_space3 c b a else is_space3 a b c)
                  then strip backwards r3
                  else s
              end
        end
  end.

Definition trim_start (s : string) : string :=
  string_of_list_ascii (strip false (list_ascii_of_string s)).

Definition trim_end (s : string) : string :=
  string_of_list_ascii (rev (strip true (rev (list_ascii_of_string s)))).

Definition trim (s : string) : string := trim_end (trim_start s).

(** ** [uploadFile] *)

(** The [catch] block: the task is marked [error] and the reason is shown. *)
Definition uploadFile_catch (uploadId : string) (file : File) (message : string)
  (s : State) : State :=
  emit (AddToast toast_error
          ("Failed to upload " ++ dquote ++ file_name file ++ dquote ++ ": " ++ message))
       (setUploads (with_status uploadId error) s).

(** The end of the [try] block: success toast, removal timer, refresh hook. *)
Definition uploadFile_success (p : Props) (uploadId : string) (file : File)
  (s : State) : State :=
  let s := emit (AddToast toast_success
                   ("File " ++ dquote ++ file_name file ++ dquote
                    ++ " uploaded successfully!")) s in
  let s := set_timers (timers s ++ [uploadId])%list (emit (SetTimeout uploadId 2000) s) in
  if onUploadComplete p then emit OnUploadComplete s else s.

(** The call up to its first [await]. *)
Definition uploadFile (p : Props) (uploadId : string) (file : File) (s : State) : State :=
  if negb (truthy (token p)) then
    emit (AddToast toast_error "Authentication required for file upload")
         (setUploads (with_status uploadId error) s)
  else
    let form_tags :=
      if String.eqb (trim (tags p)) "" then None else Some (trim (tags p)) in
    let s := emit (XhrSend uploadId "POST" (restBaseUrl p ++ "/files")
                     ("Bearer " ++ interpolate (token p)) 60000 file form_tags) s in
    set_pending (pending s ++ [mkPending uploadId file p AwaitXhr])%list s.

(** [xhr.upload.onprogress] *)
Definition onprogress (uploadId : string) (lengthComputable : bool)
  (loaded total : Z) (s : State) : State :=
  if lengthComputable
  then setUploads (with_progress uploadId (Js.percent loaded total)) s
  else s.

(** What the promise around the request settles to: the parsed result, or
    the message of the rejection. *)
Definition xhr_settle (o : XhrOutcome) : ResponseBody + string :=
  match o with
  | XhrLoad st txt body =>
      if is_2xx st then
        match body with
        | NotJson => inr "Invalid JSON response"
        | _ => inl body
        end
      else
        let generic := "Upload failed: " ++ show_Z st ++ " " ++ txt in
        match body with
        | JsonValue _ msg => inr (or_else msg generic)
        | _ => inr generic
        end
  | XhrError => inr "Network error during upload"
  | XhrTimeout => inr "Upload timeout"
  end.

(** The call from the settled request to its next [await] or its end. *)
Definition uploadFile_after_xhr (c : Pending) (o : XhrOutcome) (s : State) : State :=
  let uploadId := p_uploadId c in
  let file := p_file c in
  let p := p_props c in
  match xhr_settle o with
  | inr message => uploadFile_catch uploadId file message s
  | inl uploadResult =>
      let s := setUploads (with_completed uploadId) s in
      let isRoot := negb (truthy (folderId p)) in
      if isRoot then uploadFile_success p uploadId file s
      else
        match uploadResult with
        | JsonNull => uploadFile_catch uploadId file (null_property_error "file") s
        | NotJson => uploadFile_success p uploadId file s
        | JsonValue file_id _ =>
            if truthy file_id then
              let s := emit (FetchMove uploadId "PATCH"
                               (restBaseUrl p ++ "/files/" ++ interpolate file_id ++ "/move")
                               ("Bearer " ++ interpolate (token p))
                               (interpolate (folderId p))) s in
              set_pending (pending s ++ [mkPending uploadId file p AwaitMove])%list s
            else uploadFile_success p uploadId file s
        end
  end.

(** The call from the settled move to its end. *)
Definition uploadFile_after_move (c : Pending) (o : MoveOutcome) (s : State) : State :=
  let uploadId := p_uploadId c in
  let file := p_file c in
  match o with
  | MoveRejected message => uploadFile_catch uploadId file message s
  | MoveResponse st txt body =>
      if is_2xx st then uploadFile_success (p_props c) uploadId file s
      else
        match body with
        | JsonNull => uploadFile_catch uploadId file (null_property_error "error") s
        | NotJson =>
            uploadFile_catch uploadId file ("Failed to move file to folder: " ++ txt) s
        | JsonValue _ msg =>
            uploadFile_catch uploadId file
              ("Failed to move file to folder: " ++ or_else msg txt) s
        end
  end.

(** ** [startRealUpload] *)

Definition new_item (uploadId : string) (file : File) : UploadProgressItem :=
  mkItem uploadId (file_name file) (Js.Int 0) (file_size file) uploading.

(** One round of the [forEach]: the ids are those [Date.now] and
    [Math.random] produced. *)
Definition enqueue_one (p : Props) (s : State) (x : string * File) : State :=
  let '(uploadId, file) := x in
  uploadFile p uploadId file
    (setUploads (fun prev => (prev ++ [new_item uploadId file])%list) s).

Definition startRealUpload (p : Props) (files : list (string * File)) (s : State) : State :=
  fold_left (enqueue_one p) files s.

(** [removeUpload], and the body of the two-second timer. *)
Definition removeUpload (uploadId : string) (s : State) : State :=
  setUploads (without uploadId) s.

Fixpoint remove_first (x : string) (l : list string) : option (list string) :=
  match l with
  | [] => None
  | y :: rest =>
      if String.eqb y x then Some rest
      else match remove_first x rest with
           | Some rest' => Some (y :: rest')
           | None => None
           end
  end.

(** ** One turn of the event loop *)

Definition step (s : State) (e : Event) : State :=
  match e with
  | StartRealUpload p files => startRealUpload p files s
  | XhrProgress uploadId lc loaded total =>
      match take_pending uploadId AwaitXhr (pending s) with
      | Some _ => onprogress uploadId lc loaded total s
      | None => s
      end
  | XhrDone uploadId o =>
      match take_pending uploadId AwaitXhr (pending s) with
      | Some (c, rest) => uploadFile_after_xhr c o (set_pending rest s)
      | None => s
      end
  | MoveDone uploadId o =>
      match take_pending uploadId AwaitMove (pending s) with
      | Some (c, rest) => uploadFile_after_move c o (set_pending rest s)
      | None => s
      end
  | TimerFired uploadId =>
      match remove_first uploadId (timers s) with
      | Some rest => removeUpload uploadId (set_timers rest s)
      | None => s
      end
  | RemoveUpload uploadId => removeUpload uploadId s
  end.

Definition run (s : State) (evs : list Event) : State := fold_left step evs s.

(** The states a trace passes through, the first one included. *)
Fixpoint states (s : State) (evs : list Event) : list State :=
  match evs with
  | [] => [s]
  | e :: rest => s :: states (step s e) rest
  end.

(** The items shown for an id. *)
Definition items_of (uploadId : string) (s : State) : list UploadProgressItem :=
  filter (fun upload => String.eqb (id upload) uploadId) (uploads s).

End Upload.

(* ===================================================================== *)
(** * PreviewModal                                                        *)
(* ===================================================================== *)

Module ShareLink.
Record t : Type := mk { token : string; is_active : bool }.
End ShareLink.

Module Preview.

Record FileItem : Type := mkFileItem {
  id : string;
  original_filename : string;
  mime_type : string;
  size_bytes : Z;
  share_link : option ShareLink.t
}.

(** The dependencies of [loadFilePreview]: three props, [token] from
    [useAuth], and the environment's base URL. *)
Record Props : Type := mkProps {
  file : option FileItem;
  isOpen : bool;
  token : option string;
  isPublic : bool;
  VITE_REST_BASE_URL : option string
}.

Definition restBaseUrl (p : Props) : string :=
  or_else (VITE_REST_BASE_URL p) default_rest_base_url.

(** Object URLs and abort controllers are named by the order of their
    creation: [URL.createObjectURL] and [new AbortController] never return
    a value they returned before. *)
Definition BlobUrl : Type := nat.
Definition Controller : Type := nat.

Inductive Effect : Type :=
| Fetch (url : string) (authorization : option string) (signal : Controller)
| SetTimeout (signal : Controller) (ms : Z)
| Abort (c : Controller)
| CreateObjectURL (u : BlobUrl)
| RevokeObjectURL (u : BlobUrl).

(** Where a suspended [loadFilePreview] call waits: on the race between
    the fetch and the timer, or on [response.blob()]. *)
Inductive Await : Type := AwaitRace | AwaitBlob.

(** The refs, the three pieces of React state, and the browser side: the
    signals that were aborted, the suspended calls (by the controller each
    one created), the two name supplies, whether the effect is in place,
    and the calls made. *)
Record State : Type := mkState {
  currentBlobUrl : option BlobUrl;
  currentFileId : option string;
  abortController : option Controller;
  loadingRef : bool;
  previewUrlRef : option BlobUrl;
  loading : bool;
  previewUrl : option BlobUrl;
  error : option string;
  aborted : list Controller;
  awaiting : list (Controller * Await);
  next_controller : Controller;
  next_url : BlobUrl;
  mounted : bool;
  log : list Effect
}.

Definition set_currentBlobUrl (v : option BlobUrl) (s : State) : State :=
  mkState v (currentFileId s) (abortController s) (loadingRef s) (previewUrlRef s)
    (loading s) (previewUrl s) (error s) (aborted s) (awaiting s) (next_controller s)
    (next_url s) (mounted s) (log s).

Definition set_currentFileId (v : option string) (s : State) : State :=
  mkState (currentBlobUrl s) v (abortController s) (loadingRef s) (previewUrlRef s)
    (loading s) (previewUrl s) (error s) (aborted s) (awaiting s) (next_controller s)
    (next_url s) (mounted s) (log s).

Definition set_abortController (v : option Controller) (s : State) : State :=
  mkState (currentBlobUrl s) (currentFileId s) v (loadingRef s) (previewUrlRef s)
    (loading s) (previewUrl s) (error s) (aborted s) (awaiting s) (next_controller s)
    (next_url s) (mounted s) (log s).

Definition set_loadingRef (v : bool) (s : State) : State :=
  mkState (currentBlobUrl s) (currentFileId s) (abortController s) v (previewUrlRef s)
    (loading s) (previewUrl s) (error s) (aborted s) (awaiting s) (next_controller s)
    (next_url s) (mounted s) (log s).

Definition set_previewUrlRef (v : option BlobUrl) (s : State) : State :=
  mkState (currentBlobUrl s) (currentFileId s) (abortController s) (loadingRef s) v
    (loading s) (previewUrl s) (error s) (aborted s) (awaiting s) (next_controller s)
    (next_url s) (mounted s) (log s).

Definition set_loading (v : bool) (s : State) : State :=
  mkState (currentBlobUrl s) (currentFileId s) (abortController s) (loadingRef s)
    (previewUrlRef s) v (previewUrl s) (error s) (aborted s) (awaiting s)
    (next_controller s) (next_url s) (mounted s) (log s).

Definition set_previewUrl (v : option BlobUrl) (s : State) : State :=
  mkState (currentBlobUrl s) (currentFileId s) (abortController s) (loadingRef s)
    (previewUrlRef s) (loading s) v (error s) (aborted s) (awaiting s)
    (next_controller s) (next_url s) (mounted s) (log s).

Definition set_error (v : option string) (s : State) : State :=
  mkState (currentBlobUrl s) (currentFileId s) (abortController s) (loadingRef s)
    (previewUrlRef s) (loading s) (previewUrl s) v (aborted s) (awaiting s)
    (next_controller s) (next_url s) (mounted s) (log s).

Definition set_aborted (v : list Controller) (s : State) : State :=
  mkState (currentBlobUrl s) (currentFileId s) (abortController s) (loadingRef s)
    (previewUrlRef s) (loading s) (previewUrl s) (error s) v (awaiting s)
    (next_controller s) (next_url s) (mounted s) (log s).

Definition set_awaiting (v : list (Controller * Await)) (s : State) : State :=
  mkState (currentBlobUrl s) (currentFileId s) (abortController s) (loadingRef s)
    (previewUrlRef s) (loading s) (previewUrl s) (error s) (aborted s) v
    (next_controller s) (next_url s) (mounted s) (log s).

Definition set_next_controller (v : Controller) (s : State) : State :=
  mkState (currentBlobUrl s) (currentFileId s) (abortController s) (loadingRef s)
    (previewUrlRef s) (loading s) (previewUrl s) (error s) (aborted s) (awaiting s) v
    (next_url s) (mounted s) (log s).

Definition set_next_url (v : BlobUrl) (s : State) : State :=
  mkState (currentBlobUrl s) (currentFileId s) (abortController s) (loadingRef s)
    (previewUrlRef s) (loading s) (previewUrl s) (error s) (aborted s) (awaiting s)
    (next_controller s) v (mounted s) (log s).

Definition set_mounted (v : bool) (s : State) : State :=
  mkState (currentBlobUrl s) (currentFileId s) (abortController s) (loadingRef s)
    (previewUrlRef s) (loading s) (previewUrl s) (error s) (aborted s) (awaiting s)
    (next_controller s) (next_url s) v (log s).

Definition set_log (v : list Effect) (s : State) : State :=
  mkState (currentBlobUrl s) (currentFileId s) (abortController s) (loadingRef s)
    (previewUrlRef s) (loading s) (previewUrl s) (error s) (aborted s) (awaiting s)
    (next_controller s) (next_url s) (mounted s) v.


Definition init : State :=
  mkState None None None false None false None None [] [] 0%nat 0%nat false [].

Definition emit (e : Effect) (s : State) : State :=
  set_log (log s ++ [e])%list s.

Definition is_aborted (c : Controller) (s : State) : bool :=
  existsb (Nat.eqb c) (aborted s).

(** [controller.abort()] *)
Definition abort (c : Controller) (s : State) : State :=
  set_aborted (c :: aborted s) (emit (Abort c) s).

(** ** The tests on the MIME type *)

Definition isImageFile (m : string) : bool := String.prefix "image/" m.

Definition isTextFile (m : string) : bool :=
  (String.prefix "text/" m
   || String.eqb m "application/json"
   || String.eqb m "application/javascript"
   || String.eqb m "text/csv")%bool.

Definition isPDFFile (m : string) : bool := String.eqb m "application/pdf".

Definition isVideoFile (m : string) : bool :=
  (String.prefix "video/" m || String.eqb m "video/mp4")%bool.

(** The renderer's test for the text viewer (the [isText] of the component
    body). *)
Definition isText (m : string) : bool :=
  (String.prefix "text/" m
   || existsb (String.eqb m)
        ["application/json"; "application/javascript"; "application/xml";
         "application/x-yaml"; "text/csv"; "text/yaml"; "text/yml"])%bool.

(** [file.share_link?.token && file.share_link?.is_active] *)
Definition hasPublicToken (f : FileItem) : bool :=
  match share_link f with
  | Some l => (negb (String.eqb (ShareLink.token l) "") && ShareLink.is_active l)%bool
  | None => false
  end.

Definition downloadUrl (p : Props) (f : FileItem) : string :=
  match share_link f with
  | Some l =>
      if hasPublicToken f then restBaseUrl p ++ "/p/" ++ ShareLink.token l
      else restBaseUrl p ++ "/files/" ++ id f ++ "/download"
  | None => restBaseUrl p ++ "/files/" ++ id f ++ "/download"
  end.

(** The [Authorization] header of the request, if it has one. *)
Definition headers (p : Props) (f : FileItem) : option string :=
  if (isPublic p || hasPublicToken f)%bool then None
  else Some ("Bearer " ++ interpolate (token p)).

Definition timeoutDuration (f : FileItem) : Z :=
  if isVideoFile (mime_type f) then 60000 else 30000.

(** ** [catch] and [finally] of [loadFilePreview] *)

Definition catch_block (signal : Controller) (message : string) (s : State) : State :=
  if is_aborted signal s then s
  else set_previewUrlRef None (set_previewUrl None (set_error (Some message) s)).

Definition finally_block (signal : Controller) (s : State) : State :=
  if is_aborted signal s then s
  else set_loadingRef false (set_loading false s).

Definition throw (signal : Controller) (message : string) (s : State) : State :=
  finally_block signal (catch_block signal message s).

(** ** [loadFilePreview], up to its first [await] *)

(** The branch for [!file || !isOpen]. *)
Definition loadFilePreview_reset (s : State) : State :=
  let s := match currentBlobUrl s with
           | Some u => set_currentBlobUrl None (emit (RevokeObjectURL u) s)
           | None => s
           end in
  let s := match abortController s with
           | Some c => set_abortController None (abort c s)
           | None => s
           end in
  let s := set_previewUrlRef None (set_previewUrl None s) in
  let s := set_error None s in
  let s := set_loadingRef false (set_loading false s) in
  set_currentFileId None s.

(** [currentFileId.current === file.id &&
     (loadingRef.current || previewUrlRef.current)] *)
Definition already_current (f : FileItem) (s : State) : bool :=
  (match currentFileId s with
   | Some i => String.eqb i (id f)
   | None => false
   end
   && (loadingRef s || match previewUrlRef s with Some _ => true | None => false end))%bool.

(** From the abort of the previous request to [currentFileId.current = file.id]. *)
Definition start_request (f : FileItem) (s : State) : State :=
  let s := match abortController s with
           | Some c => abort c s
           | None => s
           end in
  let s := set_abortController (Some (next_controller s))
             (set_next_controller (S (next_controller s)) s) in
  let s := set_loadingRef true (set_loading true s) in
  let s := set_error None s in
  set_currentFileId (Some (id f)) s.

Definition loadFilePreview (p : Props) (s : State) : State :=
  match file p, isOpen p with
  | Some f, true =>
      if already_current f s then s
      else
        let signal := next_controller s in
        let s := start_request f s in
        let m := mime_type f in
        if (isImageFile m || isTextFile m || isPDFFile m || isVideoFile m)%bool then
          if (negb (truthy (token p)) && negb (isPublic p))%bool then
            throw signal "Authentication required for file preview" s
          else if (isTextFile m && (500000 <? size_bytes f)%Z)%bool then
            throw signal "Text file too large for preview (max 500KB)" s
          else if (isVideoFile m && (100000000 <? size_bytes f)%Z)%bool then
            throw signal "Video file too large for preview (max 100MB)" s
          else if (isPDFFile m && (50000000 <? size_bytes f)%Z)%bool then
            throw signal "PDF file too large for preview (max 50MB)" s
          else
            let s := emit (SetTimeout signal (timeoutDuration f)) s in
            let s := emit (Fetch (downloadUrl p f) (headers p f) signal) s in
            set_awaiting (awaiting s ++ [(signal, AwaitRace)])%list s
        else
          finally_block signal (set_previewUrlRef None (set_previewUrl None s))
  | _, _ => loadFilePreview_reset s
  end.

(** ** The effect's cleanup *)

Definition cleanup (s : State) : State :=
  let s := match abortController s with
           | Some c => set_abortController None (abort c s)
           | None => s
           end in
  match currentBlobUrl s with
  | Some u => set_currentBlobUrl None (emit (RevokeObjectURL u) s)
  | None => s
  end.

(** ** The rest of [loadFilePreview], resumed by the browser *)

Inductive FetchResult : Type :=
| Response (status : Z) (statusText : string)
| FetchRejected (message : string).

Inductive BlobResult : Type :=
| BlobOk
| BlobRejected (message : string).

(** What happens to one instance of the component, as far as the loader
    goes: the effect runs (on mount, and whenever [file], [isOpen], [token]
    or [isPublic] changes), the instance is unmounted, a fetch settles, the
    30 s timer of a call fires, the body of a response settles.  The
    [onError] handlers of the image and video elements, which call
    [setError] when the browser cannot display what the URL holds, are
    events of the rendered viewer and not of the loader: they are not among
    the events below, and [error] is read here as the loader sets it. *)
Inductive Event : Type :=
| RunEffect (p : Props)
| Unmount
| FetchSettled (c : Controller) (r : FetchResult)
| TimerFired (c : Controller)
| BlobSettled (c : Controller) (r : BlobResult).

Definition same_await (a b : Await) : bool :=
  match a, b with
  | AwaitRace, AwaitRace | AwaitBlob, AwaitBlob => true
  | _, _ => false
  end.

Definition is_awaiting (c : Controller) (a : Await) (s : State) : bool :=
  existsb (fun x => (Nat.eqb (fst x) c && same_await (snd x) a)%bool) (awaiting s).

Definition resume (c : Controller) (s : State) : State :=
  set_awaiting (filter (fun x => negb (Nat.eqb (fst x) c)) (awaiting s)) s.

(** After [await Promise.race([fetchPromise, timeoutPromise])] when the
    fetch settles first. *)
Definition after_fetch (signal : Controller) (r : FetchResult) (s : State) : State :=
  match r with
  | FetchRejected message => throw signal message s
  | Response status statusText =>
      if is_aborted signal s then s
      else if is_2xx status then
        set_awaiting (awaiting s ++ [(signal, AwaitBlob)])%list s
      else
        throw signal
          ("Failed to load preview: " ++ show_Z status ++ " " ++ statusText) s
  end.

(** After [await response.blob()]. *)
Definition after_blob (signal : Controller) (r : BlobResult) (s : State) : State :=
  match r with
  | BlobRejected message => throw signal message s
  | BlobOk =>
      if is_aborted signal s then s
      else
        let s := match currentBlobUrl s with
                 | Some u => emit (RevokeObjectURL u) s
                 | None => s
                 end in
        let url := next_url s in
        let s := set_next_url (S url) (emit (CreateObjectURL url) s) in
        let s := set_currentBlobUrl (Some url) s in
        let s := set_previewUrlRef (Some url) s in
        let s := set_previewUrl (Some url) s in
        finally_block signal s
  end.

(** One event of an instance.  A run of the effect is preceded by the
    cleanup of the previous run, if there is one.  [Unmount] runs the
    cleanup and keeps the refs and the state of the instance: an [Unmount]
    followed by [RunEffect] is the unmount and remount that React's
    StrictMode simulates on the instance in place (main.tsx renders the
    application inside StrictMode).  An instance mounted anew after a real
    unmount has fresh refs and state: its trace starts from [init]. *)
Definition step (s : State) (e : Event) : State :=
  match e with
  | RunEffect p =>
      let s := if mounted s then cleanup s else s in
      set_mounted true (loadFilePreview p s)
  | Unmount =>
      if mounted s then set_mounted false (cleanup s) else s
  | FetchSettled c r =>
      if is_awaiting c AwaitRace s then after_fetch c r (resume c s) else s
  | TimerFired c =>
      if (is_awaiting c AwaitRace s && negb (is_aborted c s))%bool
      then throw c "Request timeout - large files may take longer to load" (resume c s)
      else s
  | BlobSettled c r =>
      if is_awaiting c AwaitBlob s then after_blob c r (resume c s) else s
  end.

Definition run (s : State) (evs : list Event) : State := fold_left step evs s.

(** ** Reading the log *)

Definition is_fetch (e : Effect) : bool :=
  match e with Fetch _ _ _ => true | _ => false end.

Definition fetches (s : State) : list Effect := filter is_fetch (log s).

Definition revocations (u : BlobUrl) (s : State) : nat :=
  List.length (filter (fun e => match e with
                              | RevokeObjectURL v => Nat.eqb v u
                              | _ => false
                              end) (log s)).

Definition creations (u : BlobUrl) (s : State) : nat :=
  List.length (filter (fun e => match e with
                              | CreateObjectURL v => Nat.eqb v u
                              | _ => false
                              end) (log s)).

(** The object URLs created and not yet revoked, in order of creation. *)
Fixpoint live_urls (l : list Effect) (acc : list BlobUrl) : list BlobUrl :=
  match l with
  | [] => acc
  | CreateObjectURL u :: rest => live_urls rest (acc ++ [u])%list
  | RevokeObjectURL u :: rest =>
      live_urls rest (filter (fun v => negb (Nat.eqb v u)) acc)
  | _ :: rest => live_urls rest acc
  end.

Definition live (s : State) : list BlobUrl := live_urls (log s) [].

End Preview.

(* ===================================================================== *)
(** * Views of the upload state used in the statements                    *)
(* ===================================================================== *)

Module UploadViews.
Import Upload.

(** The suspended calls of one id. *)
Definition pend (uid : string) (s : State) : list Pending :=
  filter (fun c => String.eqb (p_uploadId c) uid) (pending s).

Definition items_in (uid : string) (l : list UploadProgressItem) :=
  filter (fun upload => String.eqb (id upload) uid) l.

(** What an event is addressed to. *)
Definition target (e : Event) : option string :=
  match e with
  | StartRealUpload _ _ => None
  | XhrProgress u _ _ _ | XhrDone u _ | MoveDone u _
  | TimerFired u | RemoveUpload u => Some u
  end.

Definition item_key (u : UploadProgressItem) : string * string * Z :=
  (id u, name u, size u).

Definition file_key (x : string * File) : string * string * Z :=
  (fst x, file_name (snd x), file_size (snd x)).

Definition failed_item (uid : string) (f : File) : UploadProgressItem :=
  set_status error (new_item uid f).

(** The progress shown for an id, and its values along a trace. *)
Definition progress_of (uid : string) (s : State) : list Js.number :=
  map progress (items_of uid s).

Definition history (uid : string) (s : State) (evs : list Event) : list Js.number :=
  flat_map (progress_of uid) (states s evs).

(** The transport of the task [uid], as the events of a trace show it: its
    progress events with a computable length carry the one [total] and a
    [loaded] count that never decreases and never exceeds it; and no later
    batch reuses the id. *)
Definition advance (uid : string) (lo : Z) (e : Event) : Z :=
  match e with
  | XhrProgress u true loaded _ => if String.eqb u uid then loaded else lo
  | _ => lo
  end.

Definition event_ok (uid : string) (total lo : Z) (e : Event) : Prop :=
  match e with
  | XhrProgress u true loaded tot =>
      u = uid -> tot = total /\ lo <= loaded <= total
  | StartRealUpload _ files => ~ In uid (map fst files)
  | _ => True
  end.

Fixpoint transport_ok (uid : string) (total lo : Z) (evs : list Event) : Prop :=
  match evs with
  | [] => True
  | e :: rest => event_ok uid total lo e /\ transport_ok uid total (advance uid lo e) rest
  end.

(** [z] is at most every percentage the transport may still report. *)
Definition bound (total lo z : Z) : Prop :=
  forall l z', lo <= l <= total -> Js.percent l total = Js.Int z' -> z <= z'.

Definition xhr_pending (uid : string) (s : State) : Prop :=
  exists c, In c (pend uid s) /\ p_await c = AwaitXhr.

Definition item_ok (uid : string) (total lo : Z) (s : State)
  (u : UploadProgressItem) : Prop :=
  exists z, progress u = Js.Int z /\ 0 <= z <= 100 /\
            (status u = completed -> z = 100) /\
            (xhr_pending uid s -> status u <> completed /\ bound total lo z).

(** The invariant of one task along its life. *)
Definition Inv (uid : string) (total lo : Z) (s : State) : Prop :=
  0 <= lo <= total /\
  (List.length (items_of uid s) <= 1)%nat /\
  (List.length (pend uid s) <= 1)%nat /\
  Forall (item_ok uid total lo s) (items_of uid s).

(** The items of an id after a step, against those before it. *)
Definition rel (l l' : list UploadProgressItem) : Prop :=
  (List.length l' <= List.length l)%nat /\
  forall u u' z z', In u l -> In u' l' ->
    progress u = Js.Int z -> progress u' = Js.Int z' -> z <= z'.


(** The toast of the [catch] block. *)
Definition failure_toast (file : File) (reason : string) : Effect :=
  AddToast toast_error
    ("Failed to upload " ++ dquote ++ file_name file ++ dquote ++ ": " ++ reason).

(** Sample inputs. *)
Definition sample_file : File := mkFile "report.pdf" 2048.
Definition sample_props : Props := mkProps (Some "jwt") (Some "folder-7") "" true None.
Definition sample_props_root : Props := mkProps (Some "jwt") None "" true None.
Definition sample_props_anonymous : Props := mkProps None (Some "folder-7") "" true None.

Definition sample_batch : list (string * File) :=
  [("upload-1", mkFile "a.txt" 10); ("upload-2", mkFile "b.txt" 20);
   ("upload-3", mkFile "c.txt" 30)].

(** A task is settled once it is [completed] or [error]. *)
Definition settled (u : UploadProgressItem) : Prop :=
  status u = completed \/ status u = error.

End UploadViews.

(* ===================================================================== *)
(** * Views of the preview state used in the statements                   *)
(* ===================================================================== *)

Module PreviewViews.
Import Preview.

(** The loader's own test for "there is something to fetch". *)
Definition previewable (f : FileItem) : bool :=
  let m := mime_type f in
  (isImageFile m || isTextFile m || isPDFFile m || isVideoFile m)%bool.

(** The credential is there, or the context is public. *)
Definition auth_ok (p : Props) : bool := (truthy (token p) || isPublic p)%bool.

(** The message of the ceiling a file exceeds, if it exceeds one. *)
Definition too_large (f : FileItem) : option string :=
  let m := mime_type f in
  if (isTextFile m && (500000 <? size_bytes f)%Z)%bool
  then Some "Text file too large for preview (max 500KB)"
  else if (isVideoFile m && (100000000 <? size_bytes f)%Z)%bool
  then Some "Video file too large for preview (max 100MB)"
  else if (isPDFFile m && (50000000 <? size_bytes f)%Z)%bool
  then Some "PDF file too large for preview (max 50MB)"
  else None.

(** A resolve that is not answered by the session in place. *)
Definition fresh_resolve (p : Props) (f : FileItem) (s : State) : Prop :=
  file p = Some f /\ isOpen p = true /\ already_current f s = false.

Definition option_list {A : Type} (o : option A) : list A :=
  match o with
  | Some a => [a]
  | None => []
  end.

(** An effect re-run that keeps the file of the session in place. *)
Definition same_file_rerun (p : Props) (s : State) : Prop :=
  isOpen p = true /\
  exists f, file p = Some f /\ currentFileId s = Some (id f).

(** The three occasions on which a session is to be disposed of: a resolve
    for another file id, a close, an unmount. *)
Definition disposes (e : Event) (s : State) : Prop :=
  match e with
  | Unmount => True
  | RunEffect p =>
      match file p, isOpen p with
      | Some f, true => currentFileId s <> Some (id f)
      | _, _ => True
      end
  | _ => False
  end.

(** The invariant of a consumer: the live object URLs are exactly the one
    the ref holds; no URL is revoked more often than it was created, or
    created twice; URLs not yet handed out do not occur; a suspended call
    whose signal is not aborted belongs to the controller in the ref and
    has not created its URL yet; the controllers in use were handed out;
    and without the effect in place the refs hold neither URL nor
    controller. *)
Definition Inv0 (s : State) : Prop :=
  live s = option_list (currentBlobUrl s)
  /\ (forall u, creations u s =
                 (revocations u s + List.length (filter (Nat.eqb u) (live s)))%nat /\
                 (creations u s <= 1)%nat)
  /\ (forall u, (next_url s <= u)%nat -> creations u s = 0%nat)
  /\ (forall c a, In (c, a) (awaiting s) -> is_aborted c s = false ->
        abortController s = Some c /\ currentBlobUrl s = None)
  /\ (forall c, abortController s = Some c -> (c < next_controller s)%nat)
  /\ (forall c a, In (c, a) (awaiting s) -> (c < next_controller s)%nat)
  /\ (forall c, In c (aborted s) -> (c < next_controller s)%nat).

Definition Inv (s : State) : Prop :=
  Inv0 s /\
  (mounted s = false -> currentBlobUrl s = None /\ abortController s = None).

(** The effect revokes, or creates, the URL [u]. *)
Definition is_revoke (u : BlobUrl) (e : Effect) : bool :=
  match e with RevokeObjectURL v => Nat.eqb v u | _ => false end.

Definition is_create (u : BlobUrl) (e : Effect) : bool :=
  match e with CreateObjectURL v => Nat.eqb v u | _ => false end.

(** What the invariant reads of a state. *)
Definition core (s : State) :=
  (currentBlobUrl s, abortController s, aborted s, awaiting s,
   next_controller s, next_url s, log s).

(** The file passes every test that precedes the fetch. *)
Definition fetchable (p : Props) (f : FileItem) : bool :=
  (previewable f && auth_ok p
   && match too_large f with Some _ => false | None => true end)%bool.

(** No object URL in the ref, no controller in the ref. *)
Definition Clean (s : State) : Prop :=
  currentBlobUrl s = None /\ abortController s = None.

(** Sample inputs. *)
Definition xml_file : FileItem :=
  mkFileItem "file-1" "feed.xml" "application/xml" 1000 None.

Definition big_text_file : FileItem :=
  mkFileItem "file-2" "notes.txt" "text/plain" 600000 None.

Definition shared_pdf : FileItem :=
  mkFileItem "file-3" "paper.pdf" "application/pdf" 10000000
    (Some (ShareLink.mk "tok123" true)).

Definition private_image : FileItem :=
  mkFileItem "file-4" "cat.png" "image/png" 4096 None.

Definition props_of (f : FileItem) (tok : option string) (pub : bool) : Props :=
  mkProps (Some f) true tok pub None.

End PreviewViews.

(* ===================================================================== *)
(** * The calls of the upload coordinator, counted                        *)
(* ===================================================================== *)

Module UploadAccounts.
Import Upload.

(** The upload request, and the move request, of the task [uid]. *)
Definition is_send (uid : string) (e : Effect) : bool :=
  match e with
  | XhrSend u _ _ _ _ _ _ => String.eqb u uid
  | _ => false
  end.

Definition is_move (uid : string) (e : Effect) : bool :=
  match e with
  | FetchMove u _ _ _ _ => String.eqb u uid
  | _ => false
  end.

Definition sends (uid : string) (s : State) : nat :=
  List.length (filter (is_send uid) (log s)).

Definition moves (uid : string) (s : State) : nat :=
  List.length (filter (is_move uid) (log s)).

(** The calls of [uid] that wait for their upload request. *)
Definition awaiting_xhr (uid : string) (s : State) : nat :=
  List.length (filter (fun c => (String.eqb (p_uploadId c) uid
                                 && match p_await c with
                                    | AwaitXhr => true
                                    | AwaitMove => false
                                    end)%bool) (pending s)).

Definition is_toast (e : Effect) : bool :=
  match e with AddToast _ _ => true | _ => false end.

Definition is_success_toast (e : Effect) : bool :=
  match e with AddToast toast_success _ => true | _ => false end.

Definition is_removal_timer (e : Effect) : bool :=
  match e with SetTimeout _ _ => true | _ => false end.

Definition toasts (s : State) : nat := List.length (filter is_toast (log s)).

Definition success_toasts (s : State) : nat :=
  List.length (filter is_success_toast (log s)).

Definition removal_timers (s : State) : nat :=
  List.length (filter is_removal_timer (log s)).

(** The calls at the end of the [try] block. *)
Definition success_calls (p : Props) (uid : string) (f : File) : list Effect :=
  ([AddToast toast_success
      ("File " ++ dquote ++ file_name f ++ dquote ++ " uploaded successfully!");
    SetTimeout uid 2000]
   ++ if onUploadComplete p then [OnUploadComplete] else [])%list.

Definition is_refresh (e : Effect) : bool :=
  match e with OnUploadComplete => true | _ => false end.

Definition refreshes (s : State) : nat := List.length (filter is_refresh (log s)).

(** The files a trace hands to [startRealUpload]. *)
Fixpoint enqueued (evs : list Event) : nat :=
  match evs with
  | [] => 0%nat
  | StartRealUpload _ files :: rest => (List.length files + enqueued rest)%nat
  | _ :: rest => enqueued rest
  end.

(** The requests of a task: no more moves than settled uploads. *)
Definition requests_ok (uid : string) (s : State) : Prop :=
  (moves uid s + awaiting_xhr uid s <= sends uid s)%nat.

(** Removal and refresh go with the success toast. *)
Definition timers_ok (s : State) : Prop :=
  removal_timers s = success_toasts s /\
  (refreshes s <= success_toasts s)%nat /\
  Forall (fun e => match e with SetTimeout _ ms => ms = 2000 | _ => True end) (log s).

(** Where one task stands: at most one call of its id is suspended; while
    the call waits for the move, and once the removal timer is set, its
    item is [completed]; and a task in [error] has neither a suspended call
    nor a timer. *)
Definition lifecycle (uid : string) (s : State) : Prop :=
  (List.length (UploadViews.pend uid s) <= 1)%nat /\
  (forall c u, In c (UploadViews.pend uid s) -> p_await c = AwaitMove ->
               In u (items_of uid s) -> status u = completed) /\
  (In uid (timers s) ->
     UploadViews.pend uid s = [] /\
     forall u, In u (items_of uid s) -> status u = completed) /\
  (forall u, In u (items_of uid s) -> status u = error -> UploadViews.pend uid s = []).

(** No batch of the trace carries the id. *)
Definition never_enqueues (uid : string) (evs : list Event) : Prop :=
  forall p files, In (StartRealUpload p files) evs -> ~ In uid (map fst files).

End UploadAccounts.

(* ===================================================================== *)
(** * PreviewModal: what is rendered                                      *)
(* ===================================================================== *)

Module Render.
Import Preview.

(** What [renderPreview] returns: the spinner, the error panel with its
    message, one of the four viewers with the URL it is given, the
    "Preview failed to load" panel with the sentences it shows (for a PDF,
    for a text, for a video), or the "Preview not available" panel. *)
Inductive View : Type :=
| Spinner
| ErrorPanel (message : string)
| ImageView (src : BlobUrl)
| TextView (blobUrl : BlobUrl)
| PDFView (blobUrl : BlobUrl)
| VideoView (src : BlobUrl)
| LoadFailed (pdf text video : bool)
| NotAvailable.

(** The tests of the component body ([isText] is the one of [Preview]). *)
Definition isImage (m : string) : bool := String.prefix "image/" m.

Definition isPDF (m : string) : bool := String.eqb m "application/pdf".

Definition isVideo (m : string) : bool :=
  (String.prefix "video/" m
   || existsb (String.eqb m)
        ["video/mp4"; "video/webm"; "video/ogg"; "video/avi"; "video/mov"])%bool.

Definition renderPreview (f : FileItem) (s : State) : View :=
  let m := mime_type f in
  if loading s then Spinner
  else if truthy (error s) then ErrorPanel (interpolate (error s))
  else
    match previewUrl s with
    | Some u =>
        if isImage m then ImageView u
        else if isText m then TextView u
        else if isPDF m then PDFView u
        else if isVideo m then VideoView u
        else NotAvailable
    | None =>
        if (isPDF m || isText m || isVideo m)%bool
        then LoadFailed (isPDF m) (isText m) (isVideo m)
        else NotAvailable
    end.

(** The preview area of the component: nothing without a file or when
    closed. *)
Definition render (p : Props) (s : State) : option View :=
  match file p, isOpen p with
  | Some f, true => Some (renderPreview f s)
  | _, _ => None
  end.

End Render.

(* ===================================================================== *)
(** * PreviewModal: the requests of a consumer                            *)
(* ===================================================================== *)

Module PreviewSignals.
Import Preview PreviewViews.

(** The request an event of the browser belongs to. *)
Definition settled_request (e : Event) : option Controller :=
  match e with
  | FetchSettled c _ | TimerFired c | BlobSettled c _ => Some c
  | RunEffect _ | Unmount => None
  end.

(** Everything of a state but its list of suspended calls. *)
Definition visible (s : State) :=
  (currentBlobUrl s, currentFileId s, abortController s, loadingRef s,
   previewUrlRef s, loading s, previewUrl s, error s, aborted s,
   next_controller s, next_url s, mounted s, log s).

(** The effect runs with nothing to show: no file, or closed. *)
Definition closes (p : Props) : bool :=
  match file p, isOpen p with
  | Some _, true => false
  | _, _ => true
  end.

(** What the cancellation of requests reads of a state. *)
Definition signals (s : State) := (log s, abortController s, aborted s).

(** The fetches of the log were issued under the controller in the ref, or
    under one whose [abort] was called since; and the controllers marked
    as aborted are those whose [abort] is in the log. *)
Definition fetches_cancelled (s : State) : Prop :=
  (forall url h c, In (Fetch url h c) (log s) ->
      abortController s = Some c \/ is_aborted c s = true)
  /\ (forall c, is_aborted c s = true -> In (Abort c) (log s)).

(** No suspended call has a live signal. *)
Definition quiet (s : State) : Prop :=
  forall c a, In (c, a) (awaiting s) -> is_aborted c s = true.

(** The React state is that of the refs, and a call whose signal is not
    aborted keeps the loading flag up. *)
Definition flags_agree (s : State) : Prop :=
  loading s = loadingRef s /\ previewUrl s = previewUrlRef s /\
  (forall c a, In (c, a) (awaiting s) -> is_aborted c s = false -> loading s = true).

(** The session of the file id [i] whose request was cancelled while it
    was loading. *)
Definition stranded (i : string) (s : State) : Prop :=
  mounted s = true /\ currentFileId s = Some i /\ loadingRef s = true /\
  loading s = true /\ abortController s = None /\ currentBlobUrl s = None.

(** An event that is the settling of a request, or a re-run of the effect
    for the file id [i]. *)
Definition keeps_file (i : string) (e : Event) : Prop :=
  match e with
  | RunEffect p => isOpen p = true /\ exists f, file p = Some f /\ id f = i
  | Unmount => False
  | _ => True
  end.

(** The viewer of a file the loader fetches. *)
Definition viewer (f : FileItem) (u : BlobUrl) : Render.View :=
  let m := mime_type f in
  if isImageFile m then Render.ImageView u
  else if isTextFile m then Render.TextView u
  else if isPDFFile m then Render.PDFView u
  else Render.VideoView u.

End PreviewSignals.

(* ===================================================================== *)
(** * MainPage: handleFileDownload                                        *)
(* ===================================================================== *)

(** The download handler of pages/MainPage.tsx, which [PreviewModal]
    receives as [onDownload].  A header value is a byte string (every code
    unit below 256), carried as a [string]. *)

Module Download.

(** ** The file name of a Content-Disposition header *)

Definition quote_char : ascii := ascii_of_nat 34.
Definition apostrophe : ascii := ascii_of_nat 39.
Definition line_feed : ascii := ascii_of_nat 10.
Definition carriage_return : ascii := ascii_of_nat 13.

(** The class of the regular expression that holds the apostrophe and the
    double quote (written Q below). *)
Definition is_quote (c : ascii) : bool :=
  (Ascii.eqb c apostrophe || Ascii.eqb c quote_char)%bool.

(** [s] without the prefix [p], when it starts with it. *)
Fixpoint strip_prefix (p s : string) : option string :=
  match p, s with
  | EmptyString, _ => Some s
  | String a p', String b s' => if Ascii.eqb a b then strip_prefix p' s' else None
  | String _ _, EmptyString => None
  end.

(** [[^;=\n]*=] : what follows the first [=], when neither [;] nor a line
    feed comes before it.  (The class excludes [=], so the greedy star has
    one place to stop.) *)
Fixpoint after_equals (s : string) : option string :=
  match s with
  | EmptyString => None
  | String c rest =>
      if Ascii.eqb c "=" then Some rest
      else if (Ascii.eqb c ";" || Ascii.eqb c line_feed)%bool then None
      else after_equals rest
  end.

(** [.*?\2] after the opening quote [q]: the shortest run of characters
    other than line terminators, and the next [q]. *)
Fixpoint closing (q : ascii) (s : string) : option string :=
  match s with
  | EmptyString => None
  | String c rest =>
      if Ascii.eqb c q then Some (String c EmptyString)
      else if (Ascii.eqb c line_feed || Ascii.eqb c carriage_return)%bool then None
      else match closing q rest with
           | Some b => Some (String c b)
           | None => None
           end
  end.

(** [[^;\n]*] *)
Fixpoint bare (s : string) : string :=
  match s with
  | EmptyString => EmptyString
  | String c rest =>
      if (Ascii.eqb c ";" || Ascii.eqb c line_feed)%bool then EmptyString
      else String c (bare rest)
  end.

(** The first capture group G, with its two alternatives [(Q).*?\2] and
    [[^;\n]*], matched at the start of [s]: the quoted alternative first,
    the bare one when it fails. *)
Definition group1 (s : string) : string :=
  match s with
  | String q rest =>
      if is_quote q then
        match closing q rest with
        | Some b => String q b
        | None => bare s
        end
      else bare s
  | EmptyString => EmptyString
  end.

(** The regular expression matched at the start of [s]. *)
Definition match_here (s : string) : option string :=
  match strip_prefix "filename" s with
  | Some rest =>
      match after_equals rest with
      | Some v => Some (group1 v)
      | None => None
      end
  | None => None
  end.

(** [contentDisposition.match] on the pattern [filename[^;=\n]*=(G)], as
    far as it is read: the first capture group of the leftmost match. *)
Fixpoint filenameMatch (s : string) : option string :=
  match match_here s with
  | Some g => Some g
  | None =>
      match s with
      | String _ rest => filenameMatch rest
      | EmptyString => None
      end
  end.

(** [.replace(/Q/g, '')]: every apostrophe and double quote is dropped. *)
Fixpoint strip_quotes (s : string) : string :=
  match s with
  | EmptyString => EmptyString
  | String c rest => if is_quote c then strip_quotes rest else String c (strip_quotes rest)
  end.

(** The name the download is saved under. *)
Definition filename_of (contentDisposition : option string) (original_filename : string)
  : string :=
  match contentDisposition with
  | Some h =>
      if String.eqb h "" then original_filename
      else
        match filenameMatch h with
        | Some g => if String.eqb g "" then original_filename else strip_quotes g
        | None => original_filename
        end
  | None => original_filename
  end.

(** ** The handler *)

Record Props : Type := mkProps {
  token : option string;
  VITE_REST_BASE_URL : option string
}.

Definition restBaseUrl (p : Props) : string :=
  or_else (VITE_REST_BASE_URL p) default_rest_base_url.

Inductive ToastKind : Type := toast_success | toast_error.

Definition BlobUrl : Type := nat.

(** The calls that leave the handler; [LinkClick] stands for the anchor
    that is created, given [href] and [download], appended, clicked and
    removed. *)
Inductive Effect : Type :=
| Fetch (url authorization : string)
| AddToast (kind : ToastKind) (message : string)
| CreateObjectURL (u : BlobUrl)
| LinkClick (href : BlobUrl) (download : string)
| RevokeObjectURL (u : BlobUrl).

(** Where a suspended call waits: on the fetch, on [response.text()] of a
    failed response, or on [response.blob()] with the file name chosen. *)
Inductive Await : Type :=
| AwaitFetch
| AwaitText (status : Z) (statusText : string)
| AwaitBlob (filename : string).

Record Call : Type := mkCall {
  c_id : nat;
  c_file : Preview.FileItem;
  c_await : Await
}.

Record State : Type := mkState {
  pending : list Call;
  next_call : nat;
  next_url : BlobUrl;
  log : list Effect
}.

Definition init : State := mkState [] 0%nat 0%nat [].

Inductive FetchResult : Type :=
| Response (status : Z) (statusText : string) (contentDisposition : option string)
| FetchRejected (message : string).

Inductive TextResult : Type :=
| TextOk (text : string)
| TextRejected.

Inductive BlobResult : Type :=
| BlobOk
| BlobRejected (message : string).

Inductive Event : Type :=
| HandleFileDownload (p : Props) (file : Preview.FileItem)
| FetchSettled (call : nat) (r : FetchResult)
| TextSettled (call : nat) (r : TextResult)
| BlobSettled (call : nat) (r : BlobResult).

Definition emit (e : Effect) (s : State) : State :=
  mkState (pending s) (next_call s) (next_url s) (log s ++ [e])%list.

Definition set_pending (l : list Call) (s : State) : State :=
  mkState l (next_call s) (next_url s) (log s).

Definition suspend (c : Call) (s : State) : State :=
  set_pending (pending s ++ [c])%list s.

(** The suspended call of an id, and the others. *)
Fixpoint take (n : nat) (l : list Call) : option (Call * list Call) :=
  match l with
  | [] => None
  | c :: rest =>
      if Nat.eqb (c_id c) n then Some (c, rest)
      else match take n rest with
           | Some (c', rest') => Some (c', c :: rest')
           | None => None
           end
  end.

(** The [catch] block. *)
Definition catch_block (file : Preview.FileItem) (message : string) (s : State) : State :=
  emit (AddToast toast_error
          ("Failed to download " ++ dquote ++ Preview.original_filename file ++ dquote
           ++ ": " ++ message)) s.

(** The call up to its first [await]. *)
Definition handleFileDownload (p : Props) (file : Preview.FileItem) (s : State) : State :=
  if negb (truthy (token p)) then
    emit (AddToast toast_error "Authentication required for file download") s
  else
    let s := emit (Fetch (restBaseUrl p ++ "/files/" ++ Preview.id file ++ "/download")
                     ("Bearer " ++ interpolate (token p))) s in
    let n := next_call s in
    suspend (mkCall n file AwaitFetch)
      (mkState (pending s) (S n) (next_url s) (log s)).

Definition after_fetch (c : Call) (r : FetchResult) (s : State) : State :=
  match r with
  | FetchRejected message => catch_block (c_file c) message s
  | Response status statusText contentDisposition =>
      if is_2xx status then
        suspend (mkCall (c_id c) (c_file c)
                   (AwaitBlob (filename_of contentDisposition
                                 (Preview.original_filename (c_file c))))) s
      else suspend (mkCall (c_id c) (c_file c) (AwaitText status statusText)) s
  end.

Definition after_text (c : Call) (status : Z) (statusText : string) (r : TextResult)
  (s : State) : State :=
  let errorText := match r with TextOk t => t | TextRejected => "Unknown error" end in
  catch_block (c_file c)
    ("Download failed: " ++ show_Z status ++ " " ++ statusText ++ " - " ++ errorText) s.

Definition after_blob (c : Call) (filename : string) (r : BlobResult) (s : State) : State :=
  match r with
  | BlobRejected message => catch_block (c_file c) message s
  | BlobOk =>
      let downloadUrl := next_url s in
      let s := mkState (pending s) (next_call s) (S downloadUrl) (log s) in
      let s := emit (CreateObjectURL downloadUrl) s in
      let s := emit (LinkClick downloadUrl filename) s in
      let s := emit (RevokeObjectURL downloadUrl) s in
      emit (AddToast toast_success
              ("File " ++ dquote ++ filename ++ dquote ++ " downloaded successfully!")) s
  end.

Definition step (s : State) (e : Event) : State :=
  match e with
  | HandleFileDownload p file => handleFileDownload p file s
  | FetchSettled n r =>
      match take n (pending s) with
      | Some (c, rest) =>
          match c_await c with
          | AwaitFetch => after_fetch c r (set_pending rest s)
          | _ => s
          end
      | None => s
      end
  | TextSettled n r =>
      match take n (pending s) with
      | Some (c, rest) =>
          match c_await c with
          | AwaitText status statusText =>
              after_text c status statusText r (set_pending rest s)
          | _ => s
          end
      | None => s
      end
  | BlobSettled n r =>
      match take n (pending s) with
      | Some (c, rest) =>
          match c_await c with
          | AwaitBlob filename => after_blob c filename r (set_pending rest s)
          | _ => s
          end
      | None => s
      end
  end.

Definition run (s : State) (evs : list Event) : State := fold_left step evs s.

(** ** Reading the log and the trace *)

Definition is_fetch (e : Effect) : bool :=
  match e with Fetch _ _ => true | _ => false end.

Definition is_toast (e : Effect) : bool :=
  match e with AddToast _ _ => true | _ => false end.

Definition fetches (s : State) : nat := List.length (filter is_fetch (log s)).

Definition toasts (s : State) : nat := List.length (filter is_toast (log s)).

(** The calls of the handler in a trace, and those made with a
    credential. *)
Fixpoint calls (evs : list Event) : nat :=
  match evs with
  | [] => 0%nat
  | HandleFileDownload _ _ :: rest => S (calls rest)
  | _ :: rest => calls rest
  end.

Fixpoint calls_with_token (evs : list Event) : nat :=
  match evs with
  | [] => 0%nat
  | HandleFileDownload p _ :: rest =>
      ((if truthy (token p) then 1 else 0) + calls_with_token rest)%nat
  | _ :: rest => calls_with_token rest
  end.

(** The object URLs created and not yet revoked. *)
Fixpoint live_urls (l : list Effect) (acc : list BlobUrl) : list BlobUrl :=
  match l with
  | [] => acc
  | CreateObjectURL u :: rest => live_urls rest (acc ++ [u])%list
  | RevokeObjectURL u :: rest =>
      live_urls rest (filter (fun v => negb (Nat.eqb v u)) acc)
  | _ :: rest => live_urls rest acc
  end.

Definition live (s : State) : list BlobUrl := live_urls (log s) [].

Definition is_click (e : Effect) : bool :=
  match e with LinkClick _ _ => true | _ => false end.

Definition is_success (e : Effect) : bool :=
  match e with AddToast toast_success _ => true | _ => false end.

(** Every fetch carries a bearer credential that is not empty. *)
Definition authorized (e : Effect) : Prop :=
  match e with
  | Fetch _ authorization =>
      exists tok, tok <> "" /\ authorization = "Bearer " ++ tok
  | _ => True
  end.

(** No character of the string is in the class. *)
Definition free_of (P : ascii -> bool) (s : string) : Prop :=
  forall c, In c (list_ascii_of_string s) -> P c = false.

Definition is_line_terminator (c : ascii) : bool :=
  (Ascii.eqb c line_feed || Ascii.eqb c carriage_return)%bool.

Definition is_delimiter (c : ascii) : bool :=
  (Ascii.eqb c ";" || Ascii.eqb c line_feed)%bool.

End Download.

(* ===================================================================== *)
(** * PreviewModal: the icon of the header                                *)
(* ===================================================================== *)

Module FileIcon.

(** The lucide icons the function chooses from. *)
Inductive Icon : Type :=
| Image | Film | Music | FileText | FileSpreadsheet | Presentation
| FileArchive | FileJson | FileCode | Database | File.

(** [hay.includes(needle)] *)
Fixpoint includes (hay needle : string) : bool :=
  (String.prefix needle hay
   || match hay with
      | String _ rest => includes rest needle
      | EmptyString => false
      end)%bool.

Definition has_dot (s : string) : bool := includes s ".".

(** [filename.split('.').pop()]: what follows the last dot, the whole name
    when it has none. *)
Fixpoint last_segment (s : string) : string :=
  match s with
  | EmptyString => EmptyString
  | String c rest =>
      if has_dot rest then last_segment rest
      else if Ascii.eqb c "." then rest
      else s
  end.

(** [toLowerCase] on the letters A to Z.  (The extension is only compared
    with lower-case ASCII words without the letter k; no character outside
    A-Z is mapped by [toLowerCase] to a letter of such a word, so the
    comparisons come out as in the browser.) *)
Definition lower (c : ascii) : ascii :=
  let n := nat_of_ascii c in
  if ((65 <=? n)%nat && (n <=? 90)%nat)%bool then ascii_of_nat (n + 32) else c.

Fixpoint toLowerCase (s : string) : string :=
  match s with
  | EmptyString => EmptyString
  | String c rest => String (lower c) (toLowerCase rest)
  end.

(** [filename.split('.').pop()?.toLowerCase() || ''] *)
Definition extension (filename : string) : string := toLowerCase (last_segment filename).

(** [list.includes(ext)] *)
Definition one_of (l : list string) (ext : string) : bool := existsb (String.eqb ext) l.

Definition getFileIcon (mimeType filename : string) : Icon :=
  let ext := extension filename in
  if String.prefix "image/" mimeType then Image
  else if String.prefix "video/" mimeType then Film
  else if String.prefix "audio/" mimeType then Music
  else if String.eqb mimeType "application/pdf" then FileText
  else if (includes mimeType "spreadsheet" || includes mimeType "excel"
           || one_of ["xls"; "xlsx"; "csv"] ext)%bool then FileSpreadsheet
  else if (includes mimeType "presentation" || includes mimeType "powerpoint"
           || one_of ["ppt"; "pptx"] ext)%bool then Presentation
  else if (includes mimeType "word" || one_of ["doc"; "docx"] ext)%bool then FileText
  else if (includes mimeType "zip" || includes mimeType "rar"
           || one_of ["zip"; "rar"; "tar"; "gz"; "7z"] ext)%bool then FileArchive
  else if (includes mimeType "json" || String.eqb ext "json")%bool then FileJson
  else if (includes mimeType "javascript" || includes mimeType "typescript"
           || includes mimeType "xml" || includes mimeType "html"
           || includes mimeType "css")%bool then FileCode
  else if one_of ["js"; "ts"; "jsx"; "tsx"; "py"; "java"; "cpp"; "c"; "h"; "go";
                  "html"; "css"; "xml"] ext then FileCode
  else if (includes mimeType "sql" || one_of ["sql"; "db"] ext)%bool then Database
  else if (String.prefix "text/" mimeType || one_of ["txt"; "md"; "rtf"] ext)%bool
  then FileText
  else File.

Definition getIconColorClass (mimeType filename : string) : string :=
  let ext := extension filename in
  if String.prefix "image/" mimeType then "text-pink-500 bg-pink-100 dark:bg-pink-900/30"
  else if String.prefix "video/" mimeType
  then "text-purple-500 bg-purple-100 dark:bg-purple-900/30"
  else if String.prefix "audio/" mimeType
  then "text-orange-500 bg-orange-100 dark:bg-orange-900/30"
  else if String.eqb mimeType "application/pdf"
  then "text-red-500 bg-red-100 dark:bg-red-900/30"
  else if (includes mimeType "spreadsheet" || includes mimeType "excel"
           || one_of ["xls"; "xlsx"; "csv"] ext)%bool
  then "text-green-500 bg-green-100 dark:bg-green-900/30"
  else if (includes mimeType "presentation" || includes mimeType "powerpoint"
           || one_of ["ppt"; "pptx"] ext)%bool
  then "text-amber-500 bg-amber-100 dark:bg-amber-900/30"
  else if (includes mimeType "word" || one_of ["doc"; "docx"] ext)%bool
  then "text-blue-500 bg-blue-100 dark:bg-blue-900/30"
  else if (includes mimeType "zip" || includes mimeType "rar"
           || one_of ["zip"; "rar"; "tar"; "gz"; "7z"] ext)%bool
  then "text-yellow-600 bg-yellow-100 dark:bg-yellow-900/30"
  else if (includes mimeType "json" || String.eqb ext "json")%bool
  then "text-teal-500 bg-teal-100 dark:bg-teal-900/30"
  else if (includes mimeType "javascript" || includes mimeType "typescript"
           || one_of ["js"; "ts"; "jsx"; "tsx"] ext)%bool
  then "text-emerald-500 bg-emerald-100 dark:bg-emerald-900/30"
  else if (includes mimeType "sql" || one_of ["sql"; "db"] ext)%bool
  then "text-indigo-500 bg-indigo-100 dark:bg-indigo-900/30"
  else if (String.prefix "text/" mimeType || one_of ["txt"; "md"; "rtf"] ext)%bool
  then "text-slate-500 bg-slate-100 dark:bg-slate-900/30"
  else "text-primary bg-primary/10".

(** The colour class that goes with an icon, where the icon decides it. *)
Definition colour_of (i : Icon) : option string :=
  match i with
  | Image => Some "text-pink-500 bg-pink-100 dark:bg-pink-900/30"
  | Film => Some "text-purple-500 bg-purple-100 dark:bg-purple-900/30"
  | Music => Some "text-orange-500 bg-orange-100 dark:bg-orange-900/30"
  | FileSpreadsheet => Some "text-green-500 bg-green-100 dark:bg-green-900/30"
  | Presentation => Some "text-amber-500 bg-amber-100 dark:bg-amber-900/30"
  | FileArchive => Some "text-yellow-600 bg-yellow-100 dark:bg-yellow-900/30"
  | FileJson => Some "text-teal-500 bg-teal-100 dark:bg-teal-900/30"
  | Database => Some "text-indigo-500 bg-indigo-100 dark:bg-indigo-900/30"
  | File => Some "text-primary bg-primary/10"
  | FileText | FileCode => None
  end.

End FileIcon.

(* ===================================================================== *)
(** * Views used by the facts about the progress value                    *)
(* ===================================================================== *)

Module ProgressViews.

(** The unit roundoff of binary64, 2^-53. *)
Definition u53 : Q := 1 # 9007199254740992.

(** [round(100 * loaded / total)] as the specification writes it: the
    exact quotient, rounded to the nearest integer, halves upwards. *)
Definition claimed_percent (loaded total : Z) : Z :=
  Js.Math_round (100 * inject_Z loaded / inject_Z total)%Q.

(** [100 * loaded / total] lies exactly halfway between two integers, the
    upper one being the claimed percentage. *)
Definition halfway (loaded total : Z) : Prop :=
  (100 * inject_Z loaded / inject_Z total + (1 # 2) ==
   inject_Z (claimed_percent loaded total))%Q.

(** What is kept of an item when its progress is set. *)
Definition item_frame (u : Upload.UploadProgressItem) :=
  (Upload.id u, Upload.name u, Upload.size u, Upload.status u).

End ProgressViews.

(* ===================================================================== *)
(** * Facts about the rounding of JS numbers                              *)
(* ===================================================================== *)

Module JsFacts.
Import Js.
Local Open Scope Q_scope.

Lemma pow2_pos e : 0 < pow2 e.
Proof. apply Qpower_0_lt. reflexivity. Qed.

Lemma pow2_add a b : pow2 (a + b) == pow2 a * pow2 b.
Proof. apply Qpower_plus. discriminate. Qed.

Lemma pow2_le a b : (a <= b)%Z -> pow2 a <= pow2 b.
Proof. intros H. apply Qpower_le_compat_l; [exact H | discriminate]. Qed.

Lemma pow2_lt_inv a b : pow2 a < pow2 b -> (a < b)%Z.
Proof. intros H. apply (Qpower_lt_compat_l_inv 2); [exact H | reflexivity]. Qed.

Lemma pow2_inject n : (0 <= n)%Z -> inject_Z (2 ^ n) == pow2 n.
Proof. intros H. apply (Zpower_Qpower 2 n H). Qed.

Lemma Zlog2_bounds n : (0 < n)%Z ->
  pow2 (Z.log2 n) <= inject_Z n /\ inject_Z n < pow2 (Z.log2 n + 1).
Proof.
  intros Hn. destruct (Z.log2_spec n Hn) as [Hlo Hhi].
  pose proof (Z.log2_nonneg n) as H0.
  split.
  - rewrite <- pow2_inject by exact H0. rewrite <- Zle_Qle. exact Hlo.
  - rewrite <- pow2_inject by lia. rewrite <- Zlt_Qlt.
    replace (Z.log2 n + 1)%Z with (Z.succ (Z.log2 n)) by lia. exact Hhi.
Qed.

Lemma ilog2_spec q : 0 < q -> pow2 (ilog2 q) <= q /\ q < pow2 (ilog2 q + 1).
Proof.
  intros Hq. unfold ilog2.
  destruct q as [n d]. cbn [Qnum Qden].
  assert (Hn : (0 < n)%Z).
  { unfold Qlt in Hq. cbn in Hq. lia. }
  destruct (Zlog2_bounds n Hn) as [Hn1 Hn2].
  destruct (Zlog2_bounds (Zpos d) eq_refl) as [Hd1 Hd2].
  set (a := Z.log2 n) in *. set (b := Z.log2 (Zpos d)) in *.
  assert (Hqd : (n # d) * inject_Z (Zpos d) == inject_Z n).
  { unfold Qeq, Qmult, inject_Z. cbn. lia. }
  assert (Hdpos : 0 < inject_Z (Zpos d)) by reflexivity.
  pose proof (pow2_pos b) as Hb. pose proof (pow2_pos (a - b)) as Hab.
  pose proof (pow2_pos (a - b - 1)) as Hab1.
  assert (Hup : (n # d) < pow2 (a - b + 1)).
  { assert (E : pow2 (a + 1) == pow2 (a - b + 1) * pow2 b).
    { rewrite <- pow2_add. replace (a - b + 1 + b)%Z with (a + 1)%Z by lia. reflexivity. }
    pose proof (pow2_pos (a - b + 1)) as Hp.
    apply Qnot_le_lt. intros Hc.
    assert ((n # d) * inject_Z (Zpos d) >= pow2 (a - b + 1) * pow2 b) by nra.
    rewrite Hqd, <- E in H. apply (Qlt_not_le _ _ Hn2 H). }
  assert (Hlow : pow2 (a - b - 1) < (n # d)).
  { assert (E : pow2 a == pow2 (a - b - 1) * pow2 (b + 1)).
    { rewrite <- pow2_add. replace (a - b - 1 + (b + 1))%Z with a by lia. reflexivity. }
    apply Qnot_le_lt. intros Hc.
    assert ((n # d) * inject_Z (Zpos d) < pow2 (a - b - 1) * pow2 (b + 1)) by nra.
    rewrite Hqd, <- E in H. apply (Qlt_not_le _ _ H Hn1). }
  destruct (Qle_bool (pow2 (a - b)) (n # d)) eqn:Hc.
  - apply Qle_bool_iff in Hc. split; assumption.
  - assert (Hlt : (n # d) < pow2 (a - b)).
    { apply Qnot_le_lt. intros H. apply Qle_bool_iff in H. congruence. }
    split.
    + apply Qlt_le_weak. exact Hlow.
    + replace (a - b - 1 + 1)%Z with (a - b)%Z by lia. exact Hlt.
Qed.

Lemma ilog2_mono q1 q2 : 0 < q1 -> q1 <= q2 -> (ilog2 q1 <= ilog2 q2)%Z.
Proof.
  intros H1 H12.
  destruct (ilog2_spec q1 H1) as [L1 _].
  destruct (ilog2_spec q2 (Qlt_le_trans _ _ _ H1 H12)) as [_ U2].
  assert (pow2 (ilog2 q1) < pow2 (ilog2 q2 + 1)).
  { eapply Qle_lt_trans; [exact L1|]. eapply Qle_lt_trans; eassumption. }
  apply pow2_lt_inv in H. lia.
Qed.

Lemma round_half_even_bounds q :
  (Qfloor q <= round_half_even q <= Qfloor q + 1)%Z.
Proof.
  unfold round_half_even.
  destruct (Qcompare (q - inject_Z (Qfloor q)) (1 # 2)); [destruct (Z.even _)| |]; lia.
Qed.

Lemma round_half_even_mono q1 q2 :
  q1 <= q2 -> (round_half_even q1 <= round_half_even q2)%Z.
Proof.
  intros H.
  pose proof (Qfloor_resp_le _ _ H) as Hf.
  pose proof (round_half_even_bounds q1) as B1.
  pose proof (round_half_even_bounds q2) as B2.
  destruct (Z.eq_dec (Qfloor q1) (Qfloor q2)) as [E | NE]; [| lia].
  unfold round_half_even in *. rewrite <- E in *.
  destruct (Qcompare_spec (q1 - inject_Z (Qfloor q1)) (1 # 2)) as [C1 | C1 | C1];
  destruct (Qcompare_spec (q2 - inject_Z (Qfloor q1)) (1 # 2)) as [C2 | C2 | C2];
    try destruct (Z.even (Qfloor q1)); try lia; exfalso; lra.
Qed.

Lemma round_half_even_Z z : round_half_even (inject_Z z) = z.
Proof.
  unfold round_half_even. rewrite Qfloor_Z.
  assert (E : inject_Z z - inject_Z z == 0) by ring.
  destruct (Qcompare_spec (inject_Z z - inject_Z z) (1 # 2)) as [C | C | C];
    try reflexivity; rewrite E in C; discriminate C.
Qed.

Lemma fl64_pos_lower q : 0 < q -> pow2 (ilog2 q) <= fl64_pos q.
Proof.
  intros Hq. unfold fl64_pos.
  destruct (ilog2_spec q Hq) as [L _].
  set (e := (ilog2 q - 52)%Z).
  pose proof (pow2_pos e) as He.
  assert (E : pow2 (ilog2 q) == pow2 52 * pow2 e).
  { rewrite <- pow2_add. unfold e. replace (52 + (ilog2 q - 52))%Z with (ilog2 q) by lia.
    reflexivity. }
  assert (S : inject_Z (2 ^ 52) <= q / pow2 e).
  { rewrite pow2_inject by lia. apply Qle_shift_div_l; [exact He|]. rewrite <- E. exact L. }
  apply round_half_even_mono in S. rewrite round_half_even_Z in S.
  rewrite E. apply Qmult_le_compat_r; [| apply Qlt_le_weak; exact He].
  rewrite <- (pow2_inject 52 ltac:(lia)). rewrite <- Zle_Qle. exact S.
Qed.

Lemma fl64_pos_upper q : 0 < q -> fl64_pos q <= pow2 (ilog2 q + 1).
Proof.
  intros Hq. unfold fl64_pos.
  destruct (ilog2_spec q Hq) as [_ U].
  set (e := (ilog2 q - 52)%Z).
  pose proof (pow2_pos e) as He.
  assert (E : pow2 (ilog2 q + 1) == pow2 53 * pow2 e).
  { rewrite <- pow2_add. unfold e. replace (53 + (ilog2 q - 52))%Z with (ilog2 q + 1)%Z by lia.
    reflexivity. }
  assert (S : q / pow2 e <= inject_Z (2 ^ 53)).
  { rewrite pow2_inject by lia. apply Qle_shift_div_r; [exact He|]. rewrite <- E.
    apply Qlt_le_weak. exact U. }
  apply round_half_even_mono in S. rewrite round_half_even_Z in S.
  rewrite E. apply Qmult_le_compat_r; [| apply Qlt_le_weak; exact He].
  rewrite <- (pow2_inject 53 ltac:(lia)). rewrite <- Zle_Qle. exact S.
Qed.

Lemma fl64_pos_mono q1 q2 : 0 < q1 -> q1 <= q2 -> fl64_pos q1 <= fl64_pos q2.
Proof.
  intros H1 H12.
  assert (H2 : 0 < q2) by (eapply Qlt_le_trans; eassumption).
  pose proof (ilog2_mono q1 q2 H1 H12) as He.
  destruct (Z.eq_dec (ilog2 q1) (ilog2 q2)) as [E | NE].
  - unfold fl64_pos. rewrite E.
    pose proof (pow2_pos (ilog2 q2 - 52)) as Hp.
    apply Qmult_le_compat_r; [| apply Qlt_le_weak; exact Hp].
    rewrite <- Zle_Qle. apply round_half_even_mono.
    apply Qmult_le_compat_r; [exact H12 |].
    apply Qlt_le_weak. apply Qinv_lt_0_compat. exact Hp.
  - eapply Qle_trans; [apply fl64_pos_upper; exact H1 |].
    eapply Qle_trans; [| apply fl64_pos_lower; exact H2].
    apply pow2_le. lia.
Qed.

Lemma fl64_pos_pos q : 0 < q -> 0 < fl64_pos q.
Proof.
  intros H. eapply Qlt_le_trans; [apply pow2_pos | apply fl64_pos_lower; exact H].
Qed.

Lemma fl64_nonneg q : 0 <= q -> 0 <= fl64 q.
Proof.
  intros H. unfold fl64.
  destruct (Qcompare_spec q 0) as [C | C | C].
  - apply Qle_refl.
  - exfalso. lra.
  - apply Qlt_le_weak. apply fl64_pos_pos. exact C.
Qed.

Lemma fl64_pos_of_pos q : 0 < q -> 0 < fl64 q.
Proof.
  intros H. unfold fl64.
  destruct (Qcompare_spec q 0) as [C | C | C]; try (exfalso; lra).
  apply fl64_pos_pos. exact C.
Qed.

Lemma fl64_mono q1 q2 : 0 <= q1 -> q1 <= q2 -> fl64 q1 <= fl64 q2.
Proof.
  intros H1 H12. unfold fl64 at 1.
  destruct (Qcompare_spec q1 0) as [C | C | C].
  - apply fl64_nonneg. lra.
  - exfalso. lra.
  - unfold fl64. destruct (Qcompare_spec q2 0) as [D | D | D]; try (exfalso; lra).
    apply fl64_pos_mono; assumption.
Qed.

Lemma fl64_1 : fl64 1 == 1.
Proof. vm_compute. reflexivity. Qed.

Lemma fl64_100 : fl64 100 == 100.
Proof. vm_compute. reflexivity. Qed.

(** The quotient and the percentage before [Math.round]. *)
Lemma ratio_bounds l t :
  (0 <= l <= t)%Z -> (0 < t)%Z ->
  0 < fl64 (inject_Z t) /\
  0 <= fl64 (inject_Z l) / fl64 (inject_Z t) <= 1.
Proof.
  intros [Hl Hlt] Ht.
  assert (Tpos : 0 < fl64 (inject_Z t)).
  { apply fl64_pos_of_pos. change 0 with (inject_Z 0). rewrite <- Zlt_Qlt. exact Ht. }
  assert (Lnn : 0 <= fl64 (inject_Z l)).
  { apply fl64_nonneg. change 0 with (inject_Z 0). rewrite <- Zle_Qle. exact Hl. }
  assert (LT : fl64 (inject_Z l) <= fl64 (inject_Z t)).
  { apply fl64_mono.
    - change 0 with (inject_Z 0). rewrite <- Zle_Qle. exact Hl.
    - rewrite <- Zle_Qle. exact Hlt. }
  split; [exact Tpos |]. split.
  - apply Qle_shift_div_l; [exact Tpos |]. rewrite Qmult_0_l. exact Lnn.
  - apply Qle_shift_div_r; [exact Tpos |]. rewrite Qmult_1_l. exact LT.
Qed.

Lemma Math_round_mono q1 q2 : q1 <= q2 -> (Math_round q1 <= Math_round q2)%Z.
Proof.
  intros H. unfold Math_round. apply Qfloor_resp_le. lra.
Qed.

Lemma percent_eq l t :
  (0 <= l <= t)%Z -> (0 < t)%Z ->
  percent l t =
  Int (Math_round (fl64 (fl64 (fl64 (inject_Z l) / fl64 (inject_Z t)) * 100))).
Proof.
  intros Hl Ht. destruct (ratio_bounds l t Hl Ht) as [Tpos _].
  unfold percent.
  destruct (Qcompare_spec (fl64 (inject_Z t)) 0) as [C | C | C]; try reflexivity.
  exfalso. rewrite C in Tpos. discriminate Tpos.
Qed.

(** The percentage is an integer between 0 and 100. *)
Lemma percent_range l t :
  (0 <= l <= t)%Z -> (0 < t)%Z ->
  exists z, percent l t = Int z /\ (0 <= z <= 100)%Z.
Proof.
  intros Hl Ht. rewrite (percent_eq l t Hl Ht).
  destruct (ratio_bounds l t Hl Ht) as [Tpos [R0 R1]].
  set (r := fl64 (inject_Z l) / fl64 (inject_Z t)) in *.
  eexists. split; [reflexivity |].
  assert (F0 : 0 <= fl64 r) by (apply fl64_nonneg; exact R0).
  assert (F1 : fl64 r <= 1).
  { rewrite <- fl64_1. apply fl64_mono; assumption. }
  assert (G0 : 0 <= fl64 (fl64 r * 100)) by (apply fl64_nonneg; lra).
  assert (G1 : fl64 (fl64 r * 100) <= 100).
  { rewrite <- fl64_100 at 2. apply fl64_mono; lra. }
  split.
  - change 0%Z with (Math_round 0). apply Math_round_mono. exact G0.
  - change 100%Z with (Math_round 100). apply Math_round_mono. exact G1.
Qed.

(** More bytes sent of the same total never lower the percentage. *)
Lemma percent_mono l1 l2 t z1 z2 :
  (0 <= l1 <= l2)%Z -> (l2 <= t)%Z -> (0 < t)%Z ->
  percent l1 t = Int z1 -> percent l2 t = Int z2 -> (z1 <= z2)%Z.
Proof.
  intros [H0 H12] H2t Ht.
  rewrite (percent_eq l1 t) by lia. rewrite (percent_eq l2 t) by lia.
  intros E1 E2. injection E1 as <-. injection E2 as <-.
  destruct (ratio_bounds l1 t ltac:(lia) Ht) as [Tpos [R0 _]].
  apply Math_round_mono. apply fl64_mono.
  { assert (0 <= fl64 (fl64 (inject_Z l1) / fl64 (inject_Z t))) by (apply fl64_nonneg; exact R0).
    lra. }
  apply Qmult_le_compat_r; [| discriminate].
  apply fl64_mono; [exact R0 |].
  apply Qmult_le_compat_r.
  - apply fl64_mono.
    + change 0 with (inject_Z 0). rewrite <- Zle_Qle. exact H0.
    + rewrite <- Zle_Qle. exact H12.
  - apply Qlt_le_weak. apply Qinv_lt_0_compat. exact Tpos.
Qed.

End JsFacts.

(** ** The distance between the binary64 percentage and the exact one *)

Module JsError.
Import Js JsFacts ProgressViews.
Local Open Scope Q_scope.

(** ** The error of one rounding *)

Lemma round_half_even_near q :
  - (1 # 2) <= inject_Z (round_half_even q) - q <= 1 # 2.
Proof.
  unfold round_half_even.
  pose proof (Qfloor_le q) as L. pose proof (Qlt_floor q) as U.
  rewrite inject_Z_plus in U. change (inject_Z 1) with 1 in U.
  destruct (Qcompare_spec (q - inject_Z (Qfloor q)) (1 # 2)) as [C | C | C].
  - destruct (Z.even (Qfloor q)).
    + lra.
    + rewrite inject_Z_plus. change (inject_Z 1) with 1. lra.
  - lra.
  - rewrite inject_Z_plus. change (inject_Z 1) with 1. lra.
Qed.

Lemma pow2_m53 : pow2 (-53) == u53.
Proof. vm_compute. reflexivity. Qed.

Lemma fl64_pos_err q :
  0 < q -> - (q * u53) <= fl64_pos q - q <= q * u53.
Proof.
  intros Hq. unfold fl64_pos.
  destruct (ilog2_spec q Hq) as [L _].
  set (e := (ilog2 q - 52)%Z).
  pose proof (pow2_pos e) as He.
  pose proof (round_half_even_near (q / pow2 e)) as N.
  set (r := inject_Z (round_half_even (q / pow2 e))) in *.
  assert (Eq : q == (q / pow2 e) * pow2 e).
  { field. lra. }
  assert (Eh : pow2 e * (1 # 2) <= q * u53).
  { assert (E1 : pow2 e * (1 # 2) == pow2 (ilog2 q) * pow2 (-53)).
    { assert (E2 : pow2 (ilog2 q) == pow2 e * pow2 52).
      { rewrite <- pow2_add. unfold e.
        replace (ilog2 q - 52 + 52)%Z with (ilog2 q) by lia. reflexivity. }
      rewrite E2, pow2_m53.
      assert (E3 : pow2 52 == 4503599627370496) by (vm_compute; reflexivity).
      rewrite E3. unfold u53. field. }
    rewrite E1, pow2_m53. apply Qmult_le_compat_r; [exact L | unfold u53; lra]. }
  set (y := q / pow2 e) in *.
  assert (D : r * pow2 e - q == (r - y) * pow2 e).
  { rewrite Eq at 1. ring. }
  rewrite D.
  assert (A : (r - y) * pow2 e <= (1 # 2) * pow2 e).
  { apply Qmult_le_compat_r; lra. }
  assert (B : - (1 # 2) * pow2 e <= (r - y) * pow2 e).
  { apply Qmult_le_compat_r; lra. }
  lra.
Qed.

Lemma fl64_err q : 0 <= q -> - (q * u53) <= fl64 q - q <= q * u53.
Proof.
  intros Hq. unfold fl64.
  destruct (Qcompare_spec q 0) as [E | E | E].
  - rewrite E. lra.
  - lra.
  - apply fl64_pos_err. exact E.
Qed.

(** ** Integers below 2^53 are numbers *)

Lemma round_half_even_eq q z : q == inject_Z z -> round_half_even q = z.
Proof.
  intros E.
  assert (A : q <= inject_Z z) by (rewrite E; apply Qle_refl).
  assert (B : inject_Z z <= q) by (rewrite E; apply Qle_refl).
  apply round_half_even_mono in A. apply round_half_even_mono in B.
  rewrite round_half_even_Z in A, B. lia.
Qed.

Lemma fl64_exact n : (0 <= n < 2 ^ 53)%Z -> fl64 (inject_Z n) == inject_Z n.
Proof.
  intros [Hn Hu]. unfold fl64.
  destruct (Qcompare_spec (inject_Z n) 0) as [E | E | E].
  - rewrite E. reflexivity.
  - exfalso. change 0 with (inject_Z 0) in E. rewrite <- Zlt_Qlt in E. lia.
  - unfold fl64_pos.
    destruct (ilog2_spec _ E) as [L _].
    assert (Hl : (ilog2 (inject_Z n) < 53)%Z).
    { apply pow2_lt_inv. eapply Qle_lt_trans; [exact L |].
      rewrite <- (pow2_inject 53 ltac:(lia)). rewrite <- Zlt_Qlt. exact Hu. }
    set (e := (ilog2 (inject_Z n) - 52)%Z).
    set (k := (- e)%Z).
    assert (Hk : (0 <= k)%Z) by (unfold k, e; lia).
    pose proof (pow2_pos e) as He.
    assert (Ek : pow2 e * pow2 k == 1).
    { rewrite <- pow2_add. unfold k. replace (e + - e)%Z with 0%Z by lia. reflexivity. }
    assert (Ey : inject_Z n / pow2 e == inject_Z (n * 2 ^ k)).
    { rewrite inject_Z_mult, (pow2_inject k Hk).
      assert (Hne : ~ pow2 e == 0) by lra.
      apply (proj1 (Qmult_inj_r _ _ (pow2 e) Hne)).
      rewrite <- Qmult_assoc, (Qmult_comm (pow2 k)), Ek. field. exact Hne. }
    rewrite (round_half_even_eq _ _ Ey).
    rewrite inject_Z_mult, (pow2_inject k Hk), <- Qmult_assoc, (Qmult_comm (pow2 k)), Ek.
    ring.
Qed.

(** ** The percentage against the exact quotient *)

Lemma percent_near l t z :
  (0 <= l <= t)%Z -> (0 < t < 2 ^ 44)%Z -> percent l t = Int z ->
  (200 * l - t <= 2 * t * z <= 200 * l + t)%Z.
Proof.
  intros [Hl Hlt] [Ht Hu] E.
  rewrite (percent_eq l t (conj Hl Hlt) Ht) in E. injection E as E.
  assert (Hl53 : (0 <= l < 2 ^ 53)%Z) by lia.
  assert (Ht53 : (0 <= t < 2 ^ 53)%Z) by lia.
  set (L := inject_Z l) in *. set (T := inject_Z t) in *.
  assert (TposQ : 0 < T).
  { unfold T. change 0 with (inject_Z 0). rewrite <- Zlt_Qlt. exact Ht. }
  assert (LnnQ : 0 <= L).
  { unfold L. change 0 with (inject_Z 0). rewrite <- Zle_Qle. exact Hl. }
  assert (LleT : L <= T) by (unfold L, T; rewrite <- Zle_Qle; exact Hlt).
  assert (Tu : T < 17592186044416).
  { unfold T. change 17592186044416 with (inject_Z (2 ^ 44)). rewrite <- Zlt_Qlt. exact Hu. }
  set (x := L / T).
  assert (Ex : x * T == L) by (unfold x; field; lra).
  assert (X0 : 0 <= x).
  { unfold x. apply Qle_shift_div_l; [exact TposQ | lra]. }
  assert (X1 : x <= 1).
  { unfold x. apply Qle_shift_div_r; [exact TposQ | lra]. }
  (* the quotient *)
  assert (Eq0 : fl64 L / fl64 T == x).
  { unfold L, T, x. rewrite (fl64_exact l Hl53), (fl64_exact t Ht53). reflexivity. }
  set (q := fl64 (fl64 L / fl64 T)) in *.
  assert (Q0 : 0 <= fl64 L / fl64 T) by (rewrite Eq0; exact X0).
  pose proof (fl64_err _ Q0) as Rq. fold q in Rq. rewrite Eq0 in Rq.
  assert (Qnn : 0 <= q) by (apply fl64_nonneg; exact Q0).
  (* the product *)
  assert (P0 : 0 <= q * 100) by lra.
  pose proof (fl64_err _ P0) as Rp.
  set (p := fl64 (q * 100)) in *.
  (* [Math.round] *)
  unfold Math_round in E.
  pose proof (Qfloor_le (p + (1 # 2))) as F1.
  pose proof (Qlt_floor (p + (1 # 2))) as F2.
  rewrite E in F1, F2. rewrite inject_Z_plus in F2. change (inject_Z 1) with 1 in F2.
  set (Z' := inject_Z z) in *.
  unfold u53 in *.
  assert (Up : Z' <= 100 * x + (1 # 2) + (1 # 35184372088832)) by lra.
  assert (Lo : 100 * x - (1 # 2) - (1 # 35184372088832) < Z' + 1 - 1) by lra.
  (* times [2 T] *)
  assert (UpT : 2 * Z' * T <= 200 * L + T + 2 * (1 # 35184372088832) * T).
  { assert (M : Z' * T <= (100 * x + (1 # 2) + (1 # 35184372088832)) * T).
    { apply Qmult_le_compat_r; lra. }
    assert (M' : (100 * x + (1 # 2) + (1 # 35184372088832)) * T ==
                 100 * (x * T) + (1 # 2) * T + (1 # 35184372088832) * T) by ring.
    rewrite M', Ex in M. lra. }
  assert (LoT : 200 * L - T - 2 * (1 # 35184372088832) * T <= 2 * Z' * T).
  { assert (M : (100 * x - (1 # 2) - (1 # 35184372088832)) * T <= Z' * T).
    { apply Qmult_le_compat_r; lra. }
    assert (M' : (100 * x - (1 # 2) - (1 # 35184372088832)) * T ==
                 100 * (x * T) - (1 # 2) * T - (1 # 35184372088832) * T) by ring.
    rewrite M', Ex in M. lra. }
  assert (A : inject_Z (2 * t * z) < inject_Z (200 * l + t + 1)).
  { rewrite !inject_Z_plus, !inject_Z_mult. fold L T Z'.
    change (inject_Z 2) with 2. change (inject_Z 200) with 200. change (inject_Z 1) with 1.
    assert (M : 2 * T * Z' == 2 * Z' * T) by ring. rewrite M. lra. }
  assert (B : inject_Z (200 * l - t - 1) < inject_Z (2 * t * z)).
  { unfold Z.sub. rewrite !inject_Z_plus, !inject_Z_mult, !inject_Z_opp. fold L T Z'.
    change (inject_Z 2) with 2. change (inject_Z 200) with 200. change (inject_Z 1) with 1.
    assert (M : 2 * T * Z' == 2 * Z' * T) by ring. rewrite M. lra. }
  rewrite <- Zlt_Qlt in A, B. lia.
Qed.

(** The percentage is the claimed one, or one less at an exact half. *)
Lemma percent_vs_claim l t z :
  (0 <= l <= t)%Z -> (0 < t < 2 ^ 44)%Z -> percent l t = Int z ->
  z = claimed_percent l t \/ (z = (claimed_percent l t - 1)%Z /\ halfway l t).
Proof.
  intros Hl Ht E. pose proof (percent_near l t z Hl Ht E) as [Lo Up].
  unfold halfway, claimed_percent, Math_round.
  set (L := inject_Z l). set (T := inject_Z t).
  assert (TposQ : 0 < T).
  { unfold T. change 0 with (inject_Z 0). rewrite <- Zlt_Qlt. lia. }
  set (y := 100 * L / T + (1 # 2)).
  assert (Ey : y * (2 * T) == 200 * L + T) by (unfold y; field; lra).
  assert (UpQ : inject_Z z <= y).
  { apply (Qmult_le_r _ _ (2 * T)); [lra |]. rewrite Ey.
    rewrite Zle_Qle in Up. rewrite !inject_Z_plus, !inject_Z_mult in Up.
    fold L T in Up. change (inject_Z 2) with 2 in Up. change (inject_Z 200) with 200 in Up.
    lra. }
  assert (LoQ : y <= inject_Z (z + 1)).
  { apply (Qmult_le_r _ _ (2 * T)); [lra |]. rewrite Ey.
    rewrite Zle_Qle in Lo. unfold Z.sub in Lo.
    rewrite !inject_Z_plus, !inject_Z_mult, !inject_Z_opp in Lo.
    rewrite inject_Z_plus. fold L T in Lo.
    change (inject_Z 2) with 2 in Lo. change (inject_Z 200) with 200 in Lo.
    change (inject_Z 1) with 1. lra. }
  pose proof (Qfloor_resp_le _ _ UpQ) as A. rewrite Qfloor_Z in A.
  pose proof (Qfloor_resp_le _ _ LoQ) as B. rewrite Qfloor_Z in B.
  destruct (Z.eq_dec z (Qfloor y)) as [-> | NE]; [left; reflexivity |].
  right. assert (Ez : z = (Qfloor y - 1)%Z) by lia. split; [exact Ez |].
  apply Qle_antisym.
  - replace (Qfloor y) with (z + 1)%Z by lia. exact LoQ.
  - apply Qfloor_le.
Qed.

End JsError.


(** Values of [Math.round((loaded / total) * 100)].  The quotient 29/200
    is not a binary64 number and the product is 14.499999999999998, so the
    result is 14, where exact arithmetic would give 14.5 and round to 15. *)
Example percent_29_200 : Js.percent 29 200 = Js.Int 14.
Proof. vm_compute. reflexivity. Qed.
Example percent_23_40 : Js.percent 23 40 = Js.Int 57.
Proof. vm_compute. reflexivity. Qed.
Example percent_1_8 : Js.percent 1 8 = Js.Int 13.
Proof. vm_compute. reflexivity. Qed.
Example percent_2_3 : Js.percent 2 3 = Js.Int 67.
Proof. vm_compute. reflexivity. Qed.
Example percent_0_0 : Js.percent 0 0 = Js.NaN.
Proof. vm_compute. reflexivity. Qed.

(** Values of [tags.trim()]: ASCII white space, a no-break space (C2 A0),
    an ideographic space (E3 80 80) and a byte order mark (EF BB BF) are
    stripped at both ends; white space inside, and bytes of other
    characters that merely resemble a part of such a sequence, stay. *)
Example trim_values :
  let byte n := ascii_of_N (Z.to_N n) in
  let str l := string_of_list_ascii (map byte l) in
  let nbsp := str [194; 160] in
  let ideographic := str [227; 128; 128] in
  let bom := str [239; 187; 191] in
  let a_grave := str [195; 160] in
  Upload.trim "  work, 2024  " = "work, 2024"
  /\ Upload.trim (String (byte 9) (String (byte 10) "x y" ++ String (byte 13) "")) = "x y"
  /\ Upload.trim (nbsp ++ "tag" ++ ideographic ++ " " ++ bom) = "tag"
  /\ Upload.trim (nbsp ++ " " ++ bom) = ""
  /\ Upload.trim (a_grave ++ " b" ++ a_grave) = a_grave ++ " b" ++ a_grave
  /\ Upload.trim "" = "".
Proof. vm_compute. repeat split; reflexivity. Qed.

(* ===================================================================== *)
(** * Facts about UploadButton                                            *)
(* ===================================================================== *)

Module UploadFacts.
Import Upload UploadViews.


(** ** The list updates, seen from one id *)

Section MapId.
Variable K : string.
Variable f : UploadProgressItem -> UploadProgressItem.
Hypothesis f_id : forall u, id (f u) = id u.

Lemma without_map_id l : without K (map_id K f l) = without K l.
Proof.
  unfold without, map_id. induction l as [| u l IH]; [reflexivity |].
  cbn [map filter]. destruct (String.eqb (id u) K) eqn:E.
  - rewrite f_id, E. cbn [negb]. exact IH.
  - rewrite E. cbn [negb]. f_equal. exact IH.
Qed.

Lemma items_in_map_id_same l :
  items_in K (map_id K f l) = map f (items_in K l).
Proof.
  unfold items_in, map_id. induction l as [| u l IH]; [reflexivity |].
  cbn [map filter]. destruct (String.eqb (id u) K) eqn:E.
  - rewrite f_id, E. cbn [map]. f_equal. exact IH.
  - rewrite E. exact IH.
Qed.

Lemma items_in_map_id_other uid l :
  uid <> K -> items_in uid (map_id K f l) = items_in uid l.
Proof.
  intros N. unfold items_in, map_id. induction l as [| u l IH]; [reflexivity |].
  cbn [map filter]. destruct (String.eqb (id u) K) eqn:E.
  - rewrite f_id. apply String.eqb_eq in E.
    assert (E' : String.eqb (id u) uid = false).
    { apply String.eqb_neq. congruence. }
    rewrite E'. exact IH.
  - destruct (String.eqb (id u) uid); [f_equal |]; exact IH.
Qed.

Lemma map_id_length l : List.length (map_id K f l) = List.length l.
Proof. apply length_map. Qed.
End MapId.

Lemma without_without K l : without K (without K l) = without K l.
Proof.
  unfold without. induction l as [| u l IH]; [reflexivity |].
  cbn [filter]. destruct (negb (String.eqb (id u) K)) eqn:E.
  - cbn [filter]. rewrite E. f_equal. exact IH.
  - exact IH.
Qed.

Lemma items_in_without_same K l : items_in K (without K l) = [].
Proof.
  unfold items_in, without. induction l as [| u l IH]; [reflexivity |].
  cbn [filter]. destruct (String.eqb (id u) K) eqn:E; cbn [negb filter].
  - exact IH.
  - rewrite E. exact IH.
Qed.

Lemma items_in_without_other uid K l :
  uid <> K -> items_in uid (without K l) = items_in uid l.
Proof.
  intros N. unfold items_in, without. induction l as [| u l IH]; [reflexivity |].
  cbn [filter]. destruct (String.eqb (id u) K) eqn:E; cbn [negb filter].
  - apply String.eqb_eq in E.
    assert (E' : String.eqb (id u) uid = false) by (apply String.eqb_neq; congruence).
    rewrite E'. exact IH.
  - destruct (String.eqb (id u) uid); [f_equal |]; exact IH.
Qed.

Lemma set_status_id st u : id (set_status st u) = id u.
Proof. reflexivity. Qed.
Lemma set_progress_id pr u : id (set_progress pr u) = id u.
Proof. reflexivity. Qed.
Lemma set_completed_id u : id (set_completed u) = id u.
Proof. reflexivity. Qed.

(** ** Suspended calls *)

Lemma take_pending_some K a l c rest :
  take_pending K a l = Some (c, rest) ->
  p_uploadId c = K /\ p_await c = a /\
  exists l1 l2, l = (l1 ++ c :: l2)%list /\ rest = (l1 ++ l2)%list.
Proof.
  revert c rest. induction l as [| c0 l IH]; intros c rest T; [discriminate |].
  cbn [take_pending] in T.
  destruct (String.eqb (p_uploadId c0) K && _)%bool eqn:E.
  - injection T as <- <-. apply andb_true_iff in E. destruct E as [E1 E2].
    apply String.eqb_eq in E1. split; [exact E1 |]. split.
    + destruct (p_await c0), a; try discriminate; reflexivity.
    + exists [], l. split; reflexivity.
  - destruct (take_pending K a l) as [[c' r'] |]; [| discriminate].
    injection T as <- <-.
    destruct (IH c' r' eq_refl) as [H1 [H2 [l1 [l2 [-> ->]]]]].
    split; [exact H1 |]. split; [exact H2 |].
    exists (c0 :: l1), l2. split; reflexivity.
Qed.

Lemma take_pending_none K a l :
  take_pending K a l = None ->
  forall c, In c l -> p_uploadId c = K -> p_await c <> a.
Proof.
  induction l as [| c0 l IH]; intros T c Hin Hid; [contradiction |].
  cbn [take_pending] in T.
  destruct (String.eqb (p_uploadId c0) K && _)%bool eqn:E; [discriminate |].
  destruct (take_pending K a l) as [[c' r'] |] eqn:T'; [discriminate |].
  destruct Hin as [<- | Hin].
  - intros Ha. rewrite Hid, String.eqb_refl, Ha in E. destruct a; discriminate.
  - apply IH; [reflexivity | exact Hin | exact Hid].
Qed.

(** ** What each continuation does to the list and to the suspended calls *)

Lemma uploads_catch uid f m s :
  uploads (uploadFile_catch uid f m s) = with_status uid error (uploads s).
Proof. reflexivity. Qed.

Lemma pending_catch uid f m s : pending (uploadFile_catch uid f m s) = pending s.
Proof. reflexivity. Qed.

Lemma uploads_success p uid f s : uploads (uploadFile_success p uid f s) = uploads s.
Proof. unfold uploadFile_success. destruct (onUploadComplete p); reflexivity. Qed.

Lemma pending_success p uid f s : pending (uploadFile_success p uid f s) = pending s.
Proof. unfold uploadFile_success. destruct (onUploadComplete p); reflexivity. Qed.

Lemma after_xhr_shape c o s :
  let K := p_uploadId c in
  let s' := uploadFile_after_xhr c o s in
  (uploads s' = with_status K error (uploads s) /\ pending s' = pending s)
  \/ (uploads s' = with_completed K (uploads s) /\
      (pending s' = pending s \/
       pending s' = (pending s ++ [mkPending K (p_file c) (p_props c) AwaitMove])%list))
  \/ (uploads s' = with_status K error (with_completed K (uploads s)) /\
      pending s' = pending s).
Proof.
  cbv zeta. unfold uploadFile_after_xhr.
  destruct (xhr_settle o) as [res | msg].
  - right. destruct (negb (truthy (folderId (p_props c)))).
    + left. rewrite uploads_success, pending_success.
      split; [reflexivity | left; reflexivity].
    + destruct res as [| | fid em].
      * left. rewrite uploads_success, pending_success.
        split; [reflexivity | left; reflexivity].
      * right. split; reflexivity.
      * destruct (truthy fid).
        -- left. split; [reflexivity | right; reflexivity].
        -- left. rewrite uploads_success, pending_success.
           split; [reflexivity | left; reflexivity].
  - left. split; reflexivity.
Qed.

Lemma after_move_shape c o s :
  let K := p_uploadId c in
  let s' := uploadFile_after_move c o s in
  (uploads s' = uploads s \/ uploads s' = with_status K error (uploads s))
  /\ pending s' = pending s.
Proof.
  cbv zeta. unfold uploadFile_after_move.
  destruct o as [st txt body | msg].
  - destruct (is_2xx st).
    + rewrite uploads_success, pending_success. split; [left |]; reflexivity.
    + destruct body; (split; [right |]; reflexivity).
  - split; [right |]; reflexivity.
Qed.


(** Every event addressed to [K] leaves the list without [K] as it was. *)
Lemma step_frame s e K :
  target e = Some K -> without K (uploads (step s e)) = without K (uploads s).
Proof.
  destruct e as [p fs | u lc l t | u o | u o | u | u]; cbn [target]; intros H;
    try discriminate; injection H as ->; cbn [step].
  - destruct (take_pending K AwaitXhr (pending s)); [| reflexivity].
    unfold onprogress. destruct lc; [| reflexivity].
    cbn [setUploads uploads]. apply without_map_id, set_progress_id.
  - destruct (take_pending K AwaitXhr (pending s)) as [[c rest] |] eqn:T; [| reflexivity].
    destruct (take_pending_some _ _ _ _ _ T) as [Hc _].
    pose proof (after_xhr_shape c o (set_pending rest s)) as Sh. cbv zeta in Sh.
    rewrite Hc in Sh. cbn [set_pending uploads] in Sh.
    destruct Sh as [[-> _] | [[-> _] | [-> _]]].
    + apply without_map_id, set_status_id.
    + apply without_map_id, set_completed_id.
    + unfold with_status. rewrite without_map_id by apply set_status_id.
      apply without_map_id, set_completed_id.
  - destruct (take_pending K AwaitMove (pending s)) as [[c rest] |] eqn:T; [| reflexivity].
    destruct (take_pending_some _ _ _ _ _ T) as [Hc _].
    pose proof (after_move_shape c o (set_pending rest s)) as Sh. cbv zeta in Sh.
    rewrite Hc in Sh. cbn [set_pending uploads] in Sh.
    destruct Sh as [[-> | ->] _].
    + reflexivity.
    + apply without_map_id, set_status_id.
  - destruct (remove_first K (timers s)); [| reflexivity].
    cbn [removeUpload setUploads uploads set_timers]. apply without_without.
  - cbn [removeUpload setUploads uploads]. apply without_without.
Qed.

Lemma items_in_via_without uid K l :
  uid <> K -> items_in uid l = items_in uid (without K l).
Proof. intros N. symmetry. apply items_in_without_other. exact N. Qed.

(** An event addressed to another id changes neither the items nor the
    suspended calls of [uid]. *)
Lemma step_other_items s e K uid :
  target e = Some K -> uid <> K -> items_of uid (step s e) = items_of uid s.
Proof.
  intros T N. unfold items_of. fold (items_in uid (uploads (step s e))).
  fold (items_in uid (uploads s)).
  rewrite (items_in_via_without uid K (uploads (step s e)) N).
  rewrite (step_frame s e K T). symmetry. apply items_in_via_without. exact N.
Qed.

Lemma filter_pend_split uid (l1 l2 : list Pending) c :
  p_uploadId c <> uid ->
  filter (fun c => String.eqb (p_uploadId c) uid) (l1 ++ c :: l2) =
  filter (fun c => String.eqb (p_uploadId c) uid) (l1 ++ l2).
Proof.
  intros N. rewrite !filter_app. cbn [filter].
  apply String.eqb_neq in N. rewrite N. reflexivity.
Qed.

Lemma step_other_pend s e K uid :
  target e = Some K -> uid <> K -> pend uid (step s e) = pend uid s.
Proof.
  destruct e as [p fs | u lc l t | u o | u o | u | u]; cbn [target]; intros H N;
    try discriminate; injection H as ->; cbn [step]; unfold pend.
  - destruct (take_pending K AwaitXhr (pending s)); [| reflexivity].
    unfold onprogress. destruct lc; reflexivity.
  - destruct (take_pending K AwaitXhr (pending s)) as [[c rest] |] eqn:T; [| reflexivity].
    destruct (take_pending_some _ _ _ _ _ T) as [Hc [_ [l1 [l2 [E ->]]]]].
    pose proof (after_xhr_shape c o (set_pending (l1 ++ l2) s)) as Sh. cbv zeta in Sh.
    cbn [set_pending pending] in Sh. rewrite E.
    rewrite (filter_pend_split uid l1 l2 c) by congruence.
    destruct Sh as [[_ ->] | [[_ [-> | ->]] | [_ ->]]]; try reflexivity.
    rewrite filter_app. cbn [filter p_uploadId].
    assert (E' : String.eqb (p_uploadId c) uid = false) by (apply String.eqb_neq; congruence).
    rewrite E'. apply app_nil_r.
  - destruct (take_pending K AwaitMove (pending s)) as [[c rest] |] eqn:T; [| reflexivity].
    destruct (take_pending_some _ _ _ _ _ T) as [Hc [_ [l1 [l2 [E ->]]]]].
    pose proof (after_move_shape c o (set_pending (l1 ++ l2) s)) as Sh. cbv zeta in Sh.
    cbn [set_pending pending] in Sh. rewrite E.
    rewrite (filter_pend_split uid l1 l2 c) by congruence.
    destruct Sh as [_ ->]. reflexivity.
  - destruct (remove_first K (timers s)); reflexivity.
  - reflexivity.
Qed.

(** ** [startRealUpload] *)


Lemma uploads_enqueue_one p s uid f :
  uploads (enqueue_one p s (uid, f)) =
  if truthy (token p)
  then (uploads s ++ [new_item uid f])%list
  else with_status uid error (uploads s ++ [new_item uid f])%list.
Proof.
  unfold enqueue_one, uploadFile. destruct (truthy (token p)); reflexivity.
Qed.

Lemma pending_enqueue_one p s uid f :
  pending (enqueue_one p s (uid, f)) =
  if truthy (token p)
  then (pending s ++ [mkPending uid f p AwaitXhr])%list
  else pending s.
Proof.
  unfold enqueue_one, uploadFile. destruct (truthy (token p)); reflexivity.
Qed.

Lemma map_key_map_id K g l :
  (forall u, item_key (g u) = item_key u) ->
  map item_key (map_id K g l) = map item_key l.
Proof.
  intros H. unfold map_id. rewrite map_map. apply map_ext.
  intros u. destruct (String.eqb (id u) K); [apply H | reflexivity].
Qed.

Lemma keys_startRealUpload p files s :
  map item_key (uploads (startRealUpload p files s)) =
  (map item_key (uploads s) ++ map file_key files)%list.
Proof.
  unfold startRealUpload. revert s.
  induction files as [| [uid f] files IH]; intros s; cbn [fold_left map].
  - symmetry. apply app_nil_r.
  - rewrite IH, uploads_enqueue_one.
    assert (E : map item_key
                  (if truthy (token p)
                   then (uploads s ++ [new_item uid f])%list
                   else with_status uid error (uploads s ++ [new_item uid f])%list)
                = (map item_key (uploads s) ++ [file_key (uid, f)])%list).
    { destruct (truthy (token p)).
      - rewrite map_app. reflexivity.
      - unfold with_status. rewrite map_key_map_id by reflexivity.
        rewrite map_app. reflexivity. }
    rewrite E, <- app_assoc. reflexivity.
Qed.

Lemma uploads_startRealUpload_token p files s :
  truthy (token p) = true ->
  uploads (startRealUpload p files s) =
  (uploads s ++ map (fun x => new_item (fst x) (snd x)) files)%list.
Proof.
  intros H. unfold startRealUpload. revert s.
  induction files as [| [uid f] files IH]; intros s; cbn [fold_left map].
  - symmetry. apply app_nil_r.
  - rewrite IH, uploads_enqueue_one, H, <- app_assoc. reflexivity.
Qed.

Lemma uploadFile_no_token p uid f s :
  truthy (token p) = false ->
  uploadFile p uid f s =
  emit (AddToast toast_error "Authentication required for file upload")
       (setUploads (with_status uid error) s).
Proof. intros H. unfold uploadFile. rewrite H. reflexivity. Qed.

(** Without a credential nothing is requested and nothing is suspended. *)
Lemma enqueue_one_no_token p s x :
  truthy (token p) = false ->
  pending (enqueue_one p s x) = pending s /\
  filter is_network_request (log (enqueue_one p s x)) =
  filter is_network_request (log s).
Proof.
  intros H. destruct x as [uid f]. unfold enqueue_one.
  rewrite uploadFile_no_token by exact H. split; [reflexivity |].
  cbn [emit log setUploads]. rewrite filter_app. cbn [filter is_network_request].
  apply app_nil_r.
Qed.

Lemma startRealUpload_no_token p files s :
  truthy (token p) = false ->
  pending (startRealUpload p files s) = pending s /\
  filter is_network_request (log (startRealUpload p files s)) =
  filter is_network_request (log s).
Proof.
  intros H. unfold startRealUpload. revert s.
  induction files as [| x files IH]; intros s; cbn [fold_left].
  - split; reflexivity.
  - destruct (IH (enqueue_one p s x)) as [-> ->].
    apply enqueue_one_no_token. exact H.
Qed.


Lemma in_with_status_error uid u l :
  status u = error -> In u l -> In u (with_status uid error l).
Proof.
  intros Hs Hin. unfold with_status, map_id. apply in_map_iff.
  exists u. split; [| exact Hin].
  destruct (String.eqb (id u) uid); [| reflexivity].
  destruct u as [i n pr sz st]. cbn in Hs. subst st. reflexivity.
Qed.

Lemma startRealUpload_no_token_items p files s uid f :
  truthy (token p) = false ->
  (In (uid, f) files \/ In (failed_item uid f) (uploads s)) ->
  In (failed_item uid f) (uploads (startRealUpload p files s)).
Proof.
  intros H. unfold startRealUpload. revert s.
  induction files as [| [uid' f'] files IH]; intros s Hin; cbn [fold_left].
  - destruct Hin as [[] | Hin]. exact Hin.
  - apply IH. rewrite uploads_enqueue_one, H.
    destruct Hin as [[E | Hin] | Hin].
    + injection E as -> ->. right.
      unfold with_status, map_id. rewrite map_app. apply in_or_app. right.
      cbn [map new_item id]. rewrite String.eqb_refl. left. reflexivity.
    + left. exact Hin.
    + right. apply in_with_status_error; [reflexivity |].
      apply in_or_app. left. exact Hin.
Qed.

Lemma items_status_no_token p files s uid :
  truthy (token p) = false ->
  In uid (map fst files) ->
  forall u, In u (items_of uid (startRealUpload p files s)) -> status u = error.
Proof.
  intros H. unfold startRealUpload. revert s.
  assert (Keep : forall files s,
             (forall u, In u (items_of uid s) -> status u = error) ->
             forall u, In u (items_of uid (fold_left (enqueue_one p) files s)) ->
                       status u = error).
  { clear files. induction files as [| [uid' f'] files IH]; intros s Hs; cbn [fold_left].
    - exact Hs.
    - apply IH. intros u Hu. unfold items_of in Hu.
      rewrite uploads_enqueue_one, H in Hu.
      apply filter_In in Hu. destruct Hu as [Hu Hid].
      unfold with_status, map_id in Hu. apply in_map_iff in Hu.
      destruct Hu as [v [Hv Hin]].
      destruct (String.eqb (id v) uid') eqn:E.
      + subst u. reflexivity.
      + subst u. apply in_app_or in Hin. destruct Hin as [Hin | [<- | []]].
        * apply Hs. unfold items_of. apply filter_In. split; assumption.
        * cbn [new_item id] in E. rewrite String.eqb_refl in E. discriminate. }
  induction files as [| [uid' f'] files IH]; intros s Hin; cbn [fold_left map] in *.
  - contradiction.
  - destruct (String.eqb uid' uid) eqn:E.
    + apply String.eqb_eq in E. subst uid'. apply Keep.
      intros u Hu. unfold items_of in Hu. rewrite uploads_enqueue_one, H in Hu.
      apply filter_In in Hu. destruct Hu as [Hu Hid].
      unfold with_status, map_id in Hu. apply in_map_iff in Hu.
      destruct Hu as [v [Hv _]]. subst u.
      destruct (String.eqb (id v) uid) eqn:E'; [reflexivity |].
      rewrite E' in Hid. discriminate.
    + apply IH. destruct Hin as [Hin | Hin]; [| exact Hin].
      cbn in Hin. subst. rewrite String.eqb_refl in E. discriminate.
Qed.

(** ** Progress over the life of one task *)

Lemma enqueue_one_other p s x uid :
  fst x <> uid ->
  items_of uid (enqueue_one p s x) = items_of uid s /\
  pend uid (enqueue_one p s x) = pend uid s.
Proof.
  destruct x as [u f]. cbn [fst]. intros N.
  assert (Eu : String.eqb u uid = false) by (apply String.eqb_neq; exact N).
  unfold items_of, pend. rewrite uploads_enqueue_one, pending_enqueue_one.
  fold (items_in uid (uploads s)).
  assert (A : items_in uid (uploads s ++ [new_item u f]) = items_in uid (uploads s)).
  { unfold items_in. rewrite filter_app. cbn [filter new_item id]. rewrite Eu.
    apply app_nil_r. }
  destruct (truthy (token p)).
  - split.
    + exact A.
    + rewrite filter_app. cbn [filter p_uploadId]. rewrite Eu. apply app_nil_r.
  - split; [| reflexivity].
    unfold with_status.
    fold (items_in uid (map_id u (set_status error) (uploads s ++ [new_item u f]))).
    rewrite items_in_map_id_other by (try apply set_status_id; congruence).
    exact A.
Qed.

Lemma startRealUpload_other p files s uid :
  ~ In uid (map fst files) ->
  items_of uid (startRealUpload p files s) = items_of uid s /\
  pend uid (startRealUpload p files s) = pend uid s.
Proof.
  unfold startRealUpload. revert s.
  induction files as [| x files IH]; intros s N; cbn [fold_left].
  - split; reflexivity.
  - cbn [map] in N.
    destruct (IH (enqueue_one p s x)) as [-> ->].
    + intros H. apply N. right. exact H.
    + apply enqueue_one_other. intros H. apply N. left. exact H.
Qed.

Lemma take_pending_single uid a s c rest :
  take_pending uid a (pending s) = Some (c, rest) ->
  (List.length (pend uid s) <= 1)%nat ->
  pend uid s = [c] /\
  filter (fun c => String.eqb (p_uploadId c) uid) rest = [].
Proof.
  intros T L. destruct (take_pending_some _ _ _ _ _ T) as [Hc [_ [l1 [l2 [E ->]]]]].
  unfold pend in *. rewrite E in L |- *. clear E T.
  rewrite !filter_app in *. cbn [filter] in *.
  rewrite Hc, String.eqb_refl in *. rewrite length_app in L. cbn [List.length] in L.
  destruct (filter (fun c0 => String.eqb (p_uploadId c0) uid) l1) as [| a1 r1];
    [| cbn [List.length] in L; lia].
  destruct (filter (fun c0 => String.eqb (p_uploadId c0) uid) l2) as [| a2 r2];
    [| cbn [List.length] in L; lia].
  split; reflexivity.
Qed.

Lemma rel_same l : (List.length l <= 1)%nat -> rel l l.
Proof.
  intros L. split; [lia |]. intros u u' z z' Hu Hu' E E'.
  destruct l as [| a [| b r]]; cbn [List.length] in L; try lia.
  - contradiction.
  - destruct Hu as [<- | []]. destruct Hu' as [<- | []]. rewrite E in E'.
    injection E' as <-. lia.
Qed.

Lemma rel_nil l : rel l [].
Proof.
  split; [cbn; lia |]. intros u u' z z' _ [].
Qed.

Lemma rel_map l g :
  (forall u z z', In u l -> progress u = Js.Int z -> progress (g u) = Js.Int z' ->
                  z <= z') ->
  (List.length l <= 1)%nat -> rel l (map g l).
Proof.
  intros H L. split; [rewrite length_map; lia |].
  intros u u' z z' Hu Hu' E E'.
  destruct l as [| a [| b r]]; cbn [List.length] in L; try lia.
  - contradiction.
  - destruct Hu as [<- | []]. destruct Hu' as [<- | []]. eapply H; eauto. left. reflexivity.
Qed.

Section Progress.
Variable uid : string.
Variable total : Z.
Hypothesis total_pos : 0 < total.

Lemma Inv_views lo s s' :
  items_of uid s' = items_of uid s -> pend uid s' = pend uid s ->
  Inv uid total lo s -> Inv uid total lo s'.
Proof using Type.
  intros Ei Ep (Hlo & Li & Lp & F). unfold Inv. rewrite Ei, Ep.
  repeat split; try assumption; try lia.
  eapply Forall_impl; [| exact F].
  intros u (z & E & R & C & X). exists z.
  split; [exact E |]. split; [exact R |]. split; [exact C |].
  intros Hx. apply X. unfold xhr_pending in *. rewrite <- Ep. exact Hx.
Qed.

Lemma no_xhr_pending s :
  (forall c, In c (pend uid s) -> p_await c <> AwaitXhr) ->
  ~ xhr_pending uid s.
Proof using Type. intros H (c & Hin & Ha). exact (H c Hin Ha). Qed.

(** The items after a map over the one item of [uid]. *)
Lemma Inv_map lo lo' s s' g :
  Inv uid total lo s ->
  0 <= lo' <= total ->
  items_of uid s' = map g (items_of uid s) ->
  (List.length (pend uid s') <= 1)%nat ->
  (forall u, In u (items_of uid s) -> item_ok uid total lo s u ->
             item_ok uid total lo' s' (g u)) ->
  Inv uid total lo' s'.
Proof using Type.
  intros (Hlo & Li & Lp & F) Hlo' Ei Lp' H. unfold Inv. rewrite Ei.
  split; [exact Hlo' |]. split; [rewrite length_map; exact Li |].
  split; [exact Lp' |].
  apply Forall_map. rewrite Forall_forall in *. intros u Hu. apply H; auto.
Qed.

Lemma item_ok_intro lo s u z :
  progress u = Js.Int z -> 0 <= z <= 100 ->
  (status u = completed -> z = 100) ->
  (xhr_pending uid s -> status u <> completed /\ bound total lo z) ->
  item_ok uid total lo s u.
Proof using Type. intros A B C D. exists z. auto. Qed.

Lemma step_inv lo s e :
  Inv uid total lo s -> event_ok uid total lo e ->
  Inv uid total (advance uid lo e) (step s e) /\
  rel (items_of uid s) (items_of uid (step s e)).
Proof using total_pos.
  intros I Ok.
  assert (Li : (List.length (items_of uid s) <= 1)%nat) by apply I.
  assert (Lp : (List.length (pend uid s) <= 1)%nat) by apply I.
  assert (Hlo : 0 <= lo <= total) by apply I.
  assert (F : Forall (item_ok uid total lo s) (items_of uid s)) by apply I.
  (* events that do not concern [uid] *)
  assert (Same : forall s' lo',
                 items_of uid s' = items_of uid s ->
                 pend uid s' = pend uid s ->
                 lo' = lo ->
                 Inv uid total lo' s' /\
                 rel (items_of uid s) (items_of uid s')).
  { intros s' lo' Ei Ep Ea. rewrite Ea, Ei. split.
    - eapply Inv_views; eauto.
    - apply rel_same. exact Li. }
  destruct (target e) as [K |] eqn:T.
  2:{ destruct e; try discriminate. cbn [event_ok] in Ok. cbn [step].
      destruct (startRealUpload_other p files s uid Ok) as [Ei Ep].
      apply Same; [exact Ei | exact Ep | reflexivity]. }
  destruct (String.eqb K uid) eqn:EK.
  2:{ apply String.eqb_neq in EK.
      apply Same.
      - eapply step_other_items; eauto.
      - eapply step_other_pend; eauto.
      - destruct e; try reflexivity. cbn [target] in T. injection T as ->.
        cbn [advance]. destruct lengthComputable; [| reflexivity].
        apply String.eqb_neq in EK. rewrite EK. reflexivity. }
  apply String.eqb_eq in EK. subst K.
  destruct e as [p fs | u lc l t | u o | u o | u | u]; cbn [target] in T;
    try discriminate; injection T as ->; cbn [step].
  - (* progress event *)
    cbn [advance event_ok] in *.
    destruct (take_pending uid AwaitXhr (pending s)) as [[c rest] |] eqn:TP.
    + destruct (take_pending_some _ _ _ _ _ TP) as [Hc [Ha [l1 [l2 [E _]]]]].
      assert (Xp : xhr_pending uid s).
      { exists c. split; [| exact Ha]. unfold pend. apply filter_In. split.
        - rewrite E. apply in_or_app. right. left. reflexivity.
        - rewrite Hc. apply String.eqb_refl. }
      unfold onprogress. destruct lc.
      2:{ apply Same; reflexivity. }
      rewrite String.eqb_refl. destruct (Ok eq_refl) as [-> Hl].
      destruct (JsFacts.percent_range l total ltac:(lia) total_pos) as [z1 [E1 R1]].
      assert (Ei : items_of uid (setUploads (with_progress uid (Js.percent l total)) s)
                   = map (set_progress (Js.percent l total)) (items_of uid s)).
      { apply items_in_map_id_same. apply set_progress_id. }
      split.
      * eapply Inv_map; [exact I | lia | exact Ei | exact Lp |].
        intros v Hv (z & Ez & Rz & Cz & Xz).
        destruct (Xz Xp) as [NC Bz].
        apply (item_ok_intro _ _ _ z1); cbn [set_progress progress status].
        -- exact E1.
        -- exact R1.
        -- intros Hs. contradiction.
        -- intros _. split; [exact NC |].
           intros l' z' Hl' E'. eapply (JsFacts.percent_mono l l' total); eauto; lia.
      * rewrite Ei. apply rel_map; [| exact Li].
        intros v z z' Hv Ez Ez'. cbn [set_progress progress] in Ez'.
        rewrite Forall_forall in F. destruct (F v Hv) as (z0 & E0 & _ & _ & X0).
        destruct (X0 Xp) as [_ B0]. rewrite Ez in E0. injection E0 as <-.
        apply (B0 l z'); [lia | exact Ez'].
    + assert (NX : ~ xhr_pending uid s).
      { apply no_xhr_pending. intros c Hc. unfold pend in Hc. apply filter_In in Hc.
        destruct Hc as [Hc Hid]. apply String.eqb_eq in Hid.
        eapply take_pending_none; eauto. }
      destruct lc.
      2:{ apply Same; reflexivity. }
      rewrite String.eqb_refl. destruct (Ok eq_refl) as [-> Hl].
      split; [| apply rel_same; exact Li].
      split; [lia |]. split; [exact Li |]. split; [exact Lp |].
      eapply Forall_impl; [| exact F].
      intros v (z & Ez & Rz & Cz & Xz).
      apply (item_ok_intro _ _ _ z); try assumption. intros Hx. contradiction.
  - (* the request settles *)
    cbn [advance].
    destruct (take_pending uid AwaitXhr (pending s)) as [[c rest] |] eqn:TP.
    2:{ apply Same; reflexivity. }
    destruct (take_pending_single _ _ _ _ _ TP Lp) as [Pc Pr].
    destruct (take_pending_some _ _ _ _ _ TP) as [Hc [Ha _]].
    pose proof (after_xhr_shape c o (set_pending rest s)) as Sh. cbv zeta in Sh.
    rewrite Hc in Sh. cbn [set_pending uploads pending] in Sh.
    set (s' := uploadFile_after_xhr c o (set_pending rest s)) in *.
    assert (Pp : pend uid s' = [] \/
                 pend uid s' = [mkPending uid (p_file c) (p_props c) AwaitMove]).
    { unfold pend.
      destruct Sh as [[_ ->] | [[_ [-> | ->]] | [_ ->]]]; try (left; exact Pr).
      right. rewrite filter_app, Pr. cbn [filter p_uploadId app].
      rewrite String.eqb_refl. reflexivity. }
    assert (NX : ~ xhr_pending uid s').
    { apply no_xhr_pending. intros c' Hc'.
      destruct Pp as [P | P]; rewrite P in Hc'; [contradiction |].
      destruct Hc' as [<- | []]. discriminate. }
    assert (Lp' : (List.length (pend uid s') <= 1)%nat).
    { destruct Pp as [-> | ->]; cbn; lia. }
    assert (Gen : forall g,
               items_of uid s' = map g (items_of uid s) ->
               (forall v z, progress v = Js.Int z -> 0 <= z <= 100 ->
                  exists z', progress (g v) = Js.Int z' /\ 0 <= z' <= 100 /\ z <= z' /\
                             (status (g v) = completed -> z' = 100)) ->
               Inv uid total lo s' /\ rel (items_of uid s) (items_of uid s')).
    { intros g Ei Hg. split.
      - eapply Inv_map; [exact I | lia | exact Ei | exact Lp' |].
        intros v Hv (z & Ez & Rz & _ & _).
        destruct (Hg v z Ez Rz) as (z' & Ez' & Rz' & _ & Cz').
        apply (item_ok_intro _ _ _ z'); try assumption. intros Hx. contradiction.
      - rewrite Ei. apply rel_map; [| exact Li].
        intros v z z' Hv Ez Ez'. rewrite Forall_forall in F.
        destruct (F v Hv) as (z0 & E0 & R0 & _ & _). rewrite Ez in E0.
        injection E0 as <-.
        destruct (Hg v z Ez R0) as (z1 & E1 & _ & Le & _). rewrite Ez' in E1.
        injection E1 as <-. exact Le. }
    destruct Sh as [[Eu _] | [[Eu _] | [Eu _]]].
    + apply (Gen (set_status error)).
      * unfold items_of. rewrite Eu. apply items_in_map_id_same, set_status_id.
      * intros v z Ez Rz. exists z. cbn [set_status progress status].
        split; [exact Ez |]. split; [exact Rz |]. split; [lia | discriminate].
    + apply (Gen set_completed).
      * unfold items_of. rewrite Eu. apply items_in_map_id_same, set_completed_id.
      * intros v z Ez Rz. exists 100. cbn [set_completed progress status].
        split; [reflexivity |]. split; [lia |]. split; [lia | reflexivity].
    + apply (Gen (fun v => set_status error (set_completed v))).
      * unfold items_of. rewrite Eu. unfold with_status.
        fold (items_in uid (map_id uid (set_status error)
                              (with_completed uid (uploads s)))).
        rewrite items_in_map_id_same by apply set_status_id.
        unfold with_completed. rewrite items_in_map_id_same by apply set_completed_id.
        rewrite map_map. reflexivity.
      * intros v z Ez Rz. exists 100. cbn [set_status set_completed progress status].
        split; [reflexivity |]. split; [lia |]. split; [lia | discriminate].
  - (* the move settles *)
    cbn [advance].
    destruct (take_pending uid AwaitMove (pending s)) as [[c rest] |] eqn:TP.
    2:{ apply Same; reflexivity. }
    destruct (take_pending_single _ _ _ _ _ TP Lp) as [Pc Pr].
    destruct (take_pending_some _ _ _ _ _ TP) as [Hc [Ha _]].
    pose proof (after_move_shape c o (set_pending rest s)) as Sh. cbv zeta in Sh.
    rewrite Hc in Sh. cbn [set_pending uploads pending] in Sh.
    set (s' := uploadFile_after_move c o (set_pending rest s)) in *.
    destruct Sh as [Eu Ep].
    assert (Pp : pend uid s' = []) by (unfold pend; rewrite Ep; exact Pr).
    assert (NX : ~ xhr_pending uid s').
    { apply no_xhr_pending. rewrite Pp. intros c' []. }
    destruct Eu as [Eu | Eu].
    + assert (Ei : items_of uid s' = items_of uid s) by (unfold items_of; rewrite Eu; reflexivity).
      rewrite Ei. split; [| apply rel_same; exact Li].
      unfold Inv. rewrite Ei, Pp.
      split; [lia |]. split; [exact Li |]. split; [cbn; lia |].
      eapply Forall_impl; [| exact F].
      intros v (z & Ez & Rz & Cz & _).
      apply (item_ok_intro _ _ _ z); try assumption. intros Hx. contradiction.
    + assert (Ei : items_of uid s' = map (set_status error) (items_of uid s)).
      { unfold items_of. rewrite Eu. apply items_in_map_id_same, set_status_id. }
      split.
      * eapply Inv_map; [exact I | lia | exact Ei | rewrite Pp; cbn; lia |].
        intros v Hv (z & Ez & Rz & _ & _).
        apply (item_ok_intro _ _ _ z); cbn [set_status progress status];
          try assumption; [discriminate | intros Hx; contradiction].
      * rewrite Ei. apply rel_map; [| exact Li].
        intros v z z' Hv Ez Ez'. cbn [set_status progress] in Ez'.
        rewrite Ez in Ez'. injection Ez' as <-. lia.
  - (* the removal timer *)
    cbn [advance].
    destruct (remove_first uid (timers s)) as [rest |].
    2:{ apply Same; reflexivity. }
    assert (Ei : items_of uid (removeUpload uid (set_timers rest s)) = []).
    { apply items_in_without_same. }
    rewrite Ei. split; [| apply rel_nil].
    unfold Inv. rewrite Ei.
    split; [lia |]. split; [cbn; lia |]. split; [exact Lp | constructor].
  - (* dismissal *)
    cbn [advance].
    assert (Ei : items_of uid (removeUpload uid s) = []).
    { apply items_in_without_same. }
    rewrite Ei. split; [| apply rel_nil].
    unfold Inv. rewrite Ei.
    split; [lia |]. split; [cbn; lia |]. split; [exact Lp | constructor].
Qed.

Lemma history_cons s e evs :
  history uid s (e :: evs) = (progress_of uid s ++ history uid (step s e) evs)%list.
Proof using Type. reflexivity. Qed.

Lemma history_nil s : history uid s [] = progress_of uid s.
Proof using Type. unfold history. cbn [states flat_map]. apply app_nil_r. Qed.

(** Once the task has left the list it does not come back. *)
Lemma history_gone evs : forall lo s,
  Inv uid total lo s -> transport_ok uid total lo evs ->
  items_of uid s = [] -> history uid s evs = [].
Proof using total_pos.
  induction evs as [| e evs IH]; intros lo s I Ok E.
  - rewrite history_nil. unfold progress_of. rewrite E. reflexivity.
  - destruct Ok as [Oe Or]. rewrite history_cons.
    destruct (step_inv lo s e I Oe) as [I' [L _]].
    unfold progress_of at 1. rewrite E. cbn [map app].
    apply (IH _ _ I' Or).
    rewrite E in L. cbn [List.length] in L.
    destruct (items_of uid (step s e)); [reflexivity | cbn [List.length] in L; lia].
Qed.

(** The values shown for the task are integers between 0 and 100 and
    never decrease. *)
Lemma history_sorted evs : forall lo s,
  Inv uid total lo s -> transport_ok uid total lo evs ->
  exists zs,
    history uid s evs = map Js.Int zs /\
    Forall (fun z => 0 <= z <= 100) zs /\
    StronglySorted Z.le zs /\
    (forall u z, In u (items_of uid s) -> progress u = Js.Int z -> Forall (Z.le z) zs).
Proof using total_pos.
  induction evs as [| e evs IH]; intros lo s I Ok.
  - rewrite history_nil. unfold progress_of.
    destruct I as (_ & Li & _ & F).
    destruct (items_of uid s) as [| u [| u2 r]]; cbn [List.length] in Li; try lia.
    + exists []. split; [reflexivity |]. split; [constructor |].
      split; [constructor |]. intros u z [].
    + inversion F as [| ? ? (z & Ez & Rz & _) _]; subst.
      exists [z]. cbn [map]. rewrite Ez. split; [reflexivity |].
      split; [constructor; [exact Rz | constructor] |].
      split; [constructor; constructor |].
      intros v z' [<- | []] Ev. rewrite Ez in Ev. injection Ev as <-.
      constructor; [lia | constructor].
  - destruct Ok as [Oe Or]. rewrite history_cons.
    destruct (step_inv lo s e I Oe) as [I' [L R]].
    destruct (IH _ _ I' Or) as (zs' & Eh & Rg & So & Hd).
    pose proof (history_gone evs _ _ I' Or) as Gone.
    destruct I as (_ & Li & _ & F). unfold progress_of at 1.
    destruct (items_of uid s) as [| u [| u2 r]]; cbn [List.length] in Li; try lia.
    + cbn [map app]. cbn [List.length] in L.
      assert (E0 : items_of uid (step s e) = []).
      { destruct (items_of uid (step s e)); [reflexivity | cbn [List.length] in L; lia]. }
      rewrite (Gone E0). exists []. split; [reflexivity |]. split; [constructor |].
      split; [constructor |]. intros v z [].
    + inversion F as [| ? ? (z & Ez & Rz & _) _]; subst.
      assert (Le : Forall (Z.le z) zs').
      { destruct (items_of uid (step s e)) as [| u' r'] eqn:E'.
        - rewrite (Gone eq_refl) in Eh. destruct zs'; [constructor | discriminate].
        - assert (Hu' : In u' (u' :: r')) by (left; reflexivity).
          destruct I' as (_ & _ & _ & F'). rewrite E' in F'.
          inversion F' as [| ? ? (z1 & Ez1 & _) _]; subst.
          pose proof (Hd u' z1 Hu' Ez1) as H1.
          assert (z <= z1).
          { apply (R u u' z z1); [left; reflexivity | exact Hu' | exact Ez | exact Ez1]. }
          eapply Forall_impl; [| exact H1]. intros a Ha. cbn in Ha. lia. }
      exists (z :: zs'). cbn [map app]. rewrite Ez, Eh.
      split; [reflexivity |].
      split; [constructor; assumption |].
      split; [constructor; assumption |].
      intros v z' [<- | []] Ev. rewrite Ez in Ev. injection Ev as <-.
      constructor; [lia | exact Le].
Qed.

(** A task marked [completed] shows exactly 100, all along. *)
Lemma completed_is_100 evs : forall lo s,
  Inv uid total lo s -> transport_ok uid total lo evs ->
  forall s' u, In s' (states s evs) -> In u (items_of uid s') ->
               status u = completed -> progress u = Js.Int 100.
Proof using total_pos.
  assert (Now : forall lo s, Inv uid total lo s ->
            forall u, In u (items_of uid s) -> status u = completed ->
                      progress u = Js.Int 100).
  { intros lo s (_ & _ & _ & F) u Hu Hs. rewrite Forall_forall in F.
    destruct (F u Hu) as (z & Ez & _ & Cz & _). rewrite Ez, (Cz Hs). reflexivity. }
  induction evs as [| e evs IH]; intros lo s I Ok s' u Hs'.
  - destruct Hs' as [<- | []]. apply (Now lo s I).
  - destruct Ok as [Oe Or]. destruct Hs' as [<- | Hs'].
    + apply (Now lo s I).
    + destruct (step_inv lo s e I Oe) as [I' _]. apply (IH _ _ I' Or). exact Hs'.
Qed.

(** The invariant holds when the batch that creates the task has been
    handled. *)
Lemma enqueue_one_self p s f :
  items_of uid s = [] -> pend uid s = [] ->
  Inv uid total 0 (enqueue_one p s (uid, f)).
Proof using total_pos.
  intros Ei Ep.
  assert (B0 : bound total 0 0).
  { intros l z' Hl E.
    destruct (JsFacts.percent_range l total ltac:(lia) total_pos) as [z1 [E1 R1]].
    rewrite E in E1. injection E1 as <-. lia. }
  assert (A : items_in uid (uploads s ++ [new_item uid f]) = [new_item uid f]).
  { unfold items_in. rewrite filter_app. fold (items_in uid (uploads s)).
    unfold items_of in Ei. unfold items_in. rewrite Ei. cbn [filter new_item id app].
    rewrite String.eqb_refl. reflexivity. }
  unfold Inv, items_of, pend. rewrite uploads_enqueue_one, pending_enqueue_one.
  destruct (truthy (token p)) eqn:Tk.
  - fold (items_in uid (uploads s ++ [new_item uid f])). rewrite A.
    rewrite filter_app. unfold pend in Ep. rewrite Ep. cbn [filter p_uploadId app].
    rewrite String.eqb_refl.
    split; [lia |]. split; [cbn; lia |]. split; [cbn; lia |].
    constructor; [| constructor].
    exists 0. cbn [new_item progress status].
    split; [reflexivity |]. split; [lia |]. split; [discriminate |].
    intros _. split; [discriminate | exact B0].
  - unfold with_status.
    fold (items_in uid (map_id uid (set_status error) (uploads s ++ [new_item uid f]))).
    rewrite items_in_map_id_same by apply set_status_id. rewrite A.
    unfold pend in Ep. rewrite Ep.
    split; [lia |]. split; [cbn; lia |]. split; [cbn; lia |].
    constructor; [| constructor].
    exists 0. cbn [map set_status new_item progress status].
    split; [reflexivity |]. split; [lia |]. split; [discriminate |].
    intros (c & Hc & _). unfold pend in Hc.
    rewrite pending_enqueue_one, Tk, Ep in Hc. destruct Hc.
Qed.

Lemma startRealUpload_inv p files : forall s,
  items_of uid s = [] -> pend uid s = [] ->
  NoDup (map fst files) -> In uid (map fst files) ->
  Inv uid total 0 (startRealUpload p files s).
Proof using total_pos.
  induction files as [| [u f] files IH]; intros s Ei Ep ND Hin; [contradiction |].
  cbn [map fst] in ND, Hin. inversion ND as [| ? ? Nin ND']; subst.
  unfold startRealUpload. cbn [fold_left].
  fold (startRealUpload p files (enqueue_one p s (u, f))).
  destruct (String.eqb u uid) eqn:E.
  - apply String.eqb_eq in E. subst u.
    destruct (startRealUpload_other p files (enqueue_one p s (uid, f)) uid Nin)
      as [Ei' Ep'].
    eapply Inv_views; [exact Ei' | exact Ep' |].
    apply enqueue_one_self; assumption.
  - apply String.eqb_neq in E.
    destruct (enqueue_one_other p s (u, f) uid E) as [Ei' Ep'].
    apply IH.
    + rewrite Ei'. exact Ei.
    + rewrite Ep'. exact Ep.
    + exact ND'.
    + destruct Hin as [Hin | Hin]; [contradiction | exact Hin].
Qed.

End Progress.

(** ** Suspended calls of an id *)

Lemma take_pending_absent uid a l :
  filter (fun c => String.eqb (p_uploadId c) uid) l = [] ->
  take_pending uid a l = None.
Proof.
  induction l as [| c l IH]; intros H; [reflexivity |].
  cbn [filter] in H. cbn [take_pending].
  destruct (String.eqb (p_uploadId c) uid); [discriminate |].
  cbn [andb]. rewrite (IH H). reflexivity.
Qed.

Lemma same_await_refl a :
  match a, a with
  | AwaitXhr, AwaitXhr | AwaitMove, AwaitMove => true
  | _, _ => false
  end = true.
Proof. destruct a; reflexivity. Qed.


(** ** Only the settling of a request changes a status *)

Lemma map_id_status K g l u' :
  In u' (map_id K g l) ->
  exists u, In u l /\ (u' = u \/ u' = g u).
Proof.
  unfold map_id. intros H. apply in_map_iff in H. destruct H as [u [E Hin]].
  exists u. split; [exact Hin |].
  destruct (String.eqb (id u) K); [right | left]; symmetry; exact E.
Qed.

Lemma step_settled s e K K' :
  target e = Some K' ->
  Forall settled (items_of K s) -> Forall settled (items_of K (step s e)).
Proof.
  intros T F.
  destruct (String.eqb K K') eqn:EK.
  2:{ apply String.eqb_neq in EK. rewrite (step_other_items s e K' K T EK). exact F. }
  apply String.eqb_eq in EK. subst K'.
  assert (Map : forall g s',
             (forall u, settled u -> settled (g u)) ->
             items_of K s' = map g (items_of K s) -> Forall settled (items_of K s')).
  { intros g s' Hg ->. apply Forall_map. eapply Forall_impl; [| exact F]. exact Hg. }
  destruct e as [p fs | u lc l t | u o | u o | u | u]; cbn [target] in T;
    try discriminate; injection T as ->; cbn [step].
  - destruct (take_pending K AwaitXhr (pending s)); [| exact F].
    unfold onprogress. destruct lc; [| exact F].
    apply (Map (set_progress (Js.percent l t))).
    + intros v Hv. exact Hv.
    + apply items_in_map_id_same, set_progress_id.
  - destruct (take_pending K AwaitXhr (pending s)) as [[c rest] |] eqn:TP; [| exact F].
    destruct (take_pending_some _ _ _ _ _ TP) as [Hc _].
    pose proof (after_xhr_shape c o (set_pending rest s)) as Sh. cbv zeta in Sh.
    rewrite Hc in Sh. cbn [set_pending uploads pending] in Sh.
    destruct Sh as [[Eu _] | [[Eu _] | [Eu _]]].
    + apply (Map (set_status error)).
      * intros v _. right. reflexivity.
      * unfold items_of. rewrite Eu. apply items_in_map_id_same, set_status_id.
    + apply (Map set_completed).
      * intros v _. left. reflexivity.
      * unfold items_of. rewrite Eu. apply items_in_map_id_same, set_completed_id.
    + apply (Map (fun v => set_status error (set_completed v))).
      * intros v _. right. reflexivity.
      * unfold items_of. rewrite Eu. unfold with_status.
        fold (items_in K (map_id K (set_status error) (with_completed K (uploads s)))).
        rewrite items_in_map_id_same by apply set_status_id.
        unfold with_completed. rewrite items_in_map_id_same by apply set_completed_id.
        rewrite map_map. reflexivity.
  - destruct (take_pending K AwaitMove (pending s)) as [[c rest] |] eqn:TP; [| exact F].
    destruct (take_pending_some _ _ _ _ _ TP) as [Hc _].
    pose proof (after_move_shape c o (set_pending rest s)) as Sh. cbv zeta in Sh.
    rewrite Hc in Sh. cbn [set_pending uploads pending] in Sh.
    destruct Sh as [[Eu | Eu] _].
    + unfold items_of. rewrite Eu. exact F.
    + apply (Map (set_status error)).
      * intros v _. right. reflexivity.
      * unfold items_of. rewrite Eu. apply items_in_map_id_same, set_status_id.
  - destruct (remove_first K (timers s)); [| exact F].
    unfold items_of, removeUpload. cbn [setUploads uploads set_timers].
    fold (items_in K (without K (uploads s))). rewrite items_in_without_same. constructor.
  - unfold items_of, removeUpload. cbn [setUploads uploads].
    fold (items_in K (without K (uploads s))). rewrite items_in_without_same. constructor.
Qed.

Lemma map_id_hit K g l u :
  In u (map_id K g l) -> String.eqb (id u) K = true ->
  exists v, In v l /\ u = g v.
Proof.
  unfold map_id. intros H Hid. apply in_map_iff in H. destruct H as [w [Ew Hin]].
  destruct (String.eqb (id w) K) eqn:E.
  - exists w. split; [exact Hin | symmetry; exact Ew].
  - subst w. rewrite Hid in E. discriminate.
Qed.

(** When its request settles, the task is [completed] or [error]. *)
Lemma xhr_done_settles s K o c rest :
  take_pending K AwaitXhr (pending s) = Some (c, rest) ->
  Forall settled (items_of K (step s (XhrDone K o))).
Proof.
  intros TP. cbn [step]. rewrite TP.
  destruct (take_pending_some _ _ _ _ _ TP) as [Hc _].
  pose proof (after_xhr_shape c o (set_pending rest s)) as Sh. cbv zeta in Sh.
  rewrite Hc in Sh. cbn [set_pending uploads pending] in Sh.
  apply Forall_forall. intros u Hu. unfold items_of in Hu. apply filter_In in Hu.
  destruct Hu as [Hu Hid].
  destruct Sh as [[Eu _] | [[Eu _] | [Eu _]]]; rewrite Eu in Hu;
    destruct (map_id_hit _ _ _ _ Hu Hid) as [v [_ ->]].
  - right. reflexivity.
  - left. reflexivity.
  - right. reflexivity.
Qed.

End UploadFacts.

(* ===================================================================== *)
(** * The upload coordinator: statements                                  *)
(* ===================================================================== *)

Module UploadClaims.
Import Upload UploadViews UploadFacts ProgressViews.

Lemma log_untouched_by_local_events s e uid :
  target e = Some uid -> take_pending uid AwaitXhr (pending s) = None ->
  take_pending uid AwaitMove (pending s) = None ->
  log (step s e) = log s.
Proof.
  intros T X M.
  destruct e as [p fs | u lc l t | u o | u o | u | u]; cbn [target] in T;
    try discriminate; injection T as ->; cbn [step].
  - rewrite X. reflexivity.
  - rewrite X. reflexivity.
  - rewrite M. reflexivity.
  - destruct (remove_first uid (timers s)); reflexivity.
  - reflexivity.
Qed.

(** C10.  Without a credential, every file of a batch gets a task that is
    created [uploading] and is [error] when [startRealUpload] returns; the
    batch adds no network request to the log (neither the upload POST nor
    the move), only the authentication toast per file, and suspends no
    call, so that no later event addressed to one of its tasks issues a
    request either. *)
Theorem C10_no_credential_no_request p files s :
  truthy (token p) = false ->
  let s' := step s (StartRealUpload p files) in
  (forall s0 uid f,
      status (new_item uid f) = uploading /\
      uploads (enqueue_one p s0 (uid, f)) =
        with_status uid error (uploads s0 ++ [new_item uid f])%list /\
      log (enqueue_one p s0 (uid, f)) =
        (log s0 ++ [AddToast toast_error "Authentication required for file upload"])%list)
  /\ (forall uid f, In (uid, f) files ->
        In (failed_item uid f) (uploads s') /\
        forall u, In u (items_of uid s') -> status u = error)
  /\ filter is_network_request (log s') = filter is_network_request (log s)
  /\ pending s' = pending s
  /\ (forall uid e, In uid (map fst files) -> pend uid s = [] ->
        target e = Some uid -> log (step s' e) = log s').
Proof.
  intros H s'. subst s'. cbn [step].
  destruct (startRealUpload_no_token p files s H) as [Ep El].
  split; [| split; [| split; [| split]]].
  - intros s0 uid f. split; [reflexivity |].
    unfold enqueue_one. rewrite uploadFile_no_token by exact H. split; reflexivity.
  - intros uid f Hin. split.
    + apply startRealUpload_no_token_items; [exact H | left; exact Hin].
    + apply items_status_no_token; [exact H |].
      apply in_map_iff. exists (uid, f). split; [reflexivity | exact Hin].
  - exact El.
  - exact Ep.
  - intros uid e _ Hp T.
    apply (log_untouched_by_local_events _ e uid T); rewrite Ep;
      apply take_pending_absent; exact Hp.
Qed.

Lemma C10_witness :
  truthy (token sample_props_anonymous) = false /\
  filter is_network_request
    (log (step init (StartRealUpload sample_props_anonymous
                       [("upload-1", sample_file); ("upload-2", sample_file)]))) =
  filter is_network_request (log init).
Proof.
  split; [reflexivity |].
  apply (C10_no_credential_no_request sample_props_anonymous
           [("upload-1", sample_file); ("upload-2", sample_file)] init eq_refl).
Defined.

Example no_credential_batch :
  uploads (step init (StartRealUpload sample_props_anonymous
                        [("upload-1", sample_file); ("upload-2", sample_file)])) =
  [mkItem "upload-1" "report.pdf" (Js.Int 0) 2048 error;
   mkItem "upload-2" "report.pdf" (Js.Int 0) 2048 error].
Proof. reflexivity. Qed.

(** C8.  A batch of N files appends exactly N tasks, one per file and in
    order (with a credential each is [uploading] at 0); an event addressed
    to the task [K] (progress, settled request, settled move, removal)
    leaves the rest of the list exactly as it was, whatever the outcome; a
    task whose request settles is [completed] or [error], as is every task
    enqueued without a credential; and a settled task stays settled. *)
Theorem C8_batch_tasks_independent :
  (forall p files s,
      map item_key (uploads (step s (StartRealUpload p files))) =
      (map item_key (uploads s) ++ map file_key files)%list)
  /\ (forall p files s, truthy (token p) = true ->
        uploads (step s (StartRealUpload p files)) =
        (uploads s ++ map (fun x => new_item (fst x) (snd x)) files)%list)
  /\ (forall s e K, target e = Some K ->
        without K (uploads (step s e)) = without K (uploads s))
  /\ (forall s K o c rest,
        take_pending K AwaitXhr (pending s) = Some (c, rest) ->
        Forall settled (items_of K (step s (XhrDone K o))))
  /\ (forall p files s K, truthy (token p) = false -> In K (map fst files) ->
        Forall settled (items_of K (step s (StartRealUpload p files))))
  /\ (forall s e K K', target e = Some K' ->
        Forall settled (items_of K s) -> Forall settled (items_of K (step s e))).
Proof.
  split; [| split; [| split; [| split; [| split]]]].
  - intros p files s. apply keys_startRealUpload.
  - intros p files s H. apply uploads_startRealUpload_token. exact H.
  - intros s e K T. apply step_frame. exact T.
  - intros s K o c rest TP. eapply xhr_done_settles. exact TP.
  - intros p files s K H Hin. apply Forall_forall. intros u Hu. right.
    eapply items_status_no_token; eauto.
  - intros s e K K' T F. eapply step_settled; eauto.
Qed.

Lemma C8_witness :
  let s := step init (StartRealUpload sample_props_root sample_batch) in
  (target (XhrDone "upload-2" XhrTimeout) = Some "upload-2" /\
   without "upload-2" (uploads (step s (XhrDone "upload-2" XhrTimeout))) =
   without "upload-2" (uploads s))
  /\ (take_pending "upload-2" AwaitXhr (pending s) =
        Some (mkPending "upload-2" (mkFile "b.txt" 20) sample_props_root AwaitXhr,
              [mkPending "upload-1" (mkFile "a.txt" 10) sample_props_root AwaitXhr;
               mkPending "upload-3" (mkFile "c.txt" 30) sample_props_root AwaitXhr]) /\
      Forall settled (items_of "upload-2" (step s (XhrDone "upload-2" XhrTimeout)))).
Proof.
  intros s. split.
  - split; [reflexivity |].
    apply (proj1 (proj2 (proj2 C8_batch_tasks_independent)) s
             (XhrDone "upload-2" XhrTimeout) "upload-2" eq_refl).
  - split; [reflexivity |].
    apply (proj1 (proj2 (proj2 (proj2 C8_batch_tasks_independent))) s
             "upload-2" XhrTimeout _ _ eq_refl).
Defined.

Example three_files_second_times_out :
  uploads (run init [StartRealUpload sample_props_root sample_batch;
                     XhrProgress "upload-1" true 5 10;
                     XhrDone "upload-2" XhrTimeout;
                     XhrDone "upload-1" (XhrLoad 201 "Created" (JsonValue (Some "f1") None));
                     XhrDone "upload-3" (XhrLoad 201 "Created" (JsonValue (Some "f3") None))]) =
  [mkItem "upload-1" "a.txt" (Js.Int 100) 10 completed;
   mkItem "upload-2" "b.txt" (Js.Int 0) 20 error;
   mkItem "upload-3" "c.txt" (Js.Int 100) 30 completed].
Proof. vm_compute. reflexivity. Qed.

(** The list after a progress event, item by item. *)
Lemma with_progress_items uid pr l :
  List.length (with_progress uid pr l) = List.length l /\
  map item_frame (with_progress uid pr l) = map item_frame l /\
  (forall u', In u' (with_progress uid pr l) -> id u' = uid -> progress u' = pr) /\
  (forall u', In u' (with_progress uid pr l) -> id u' <> uid -> In u' l) /\
  (forall u, In u l -> id u = uid -> In (set_progress pr u) (with_progress uid pr l)).
Proof.
  unfold with_progress, map_id.
  split; [apply length_map |]. split; [| split; [| split]].
  - rewrite map_map. apply map_ext. intros u.
    destruct (String.eqb (id u) uid); reflexivity.
  - intros u' Hin Hid. apply in_map_iff in Hin. destruct Hin as (u & <- & _).
    destruct (String.eqb_spec (id u) uid) as [_ | NE]; [reflexivity | contradiction].
  - intros u' Hin Hid. apply in_map_iff in Hin. destruct Hin as (u & <- & Hu).
    destruct (String.eqb_spec (id u) uid) as [E | _]; [| exact Hu].
    exfalso. apply Hid. exact E.
  - intros u Hu Hid. apply in_map_iff. exists u. split; [| exact Hu].
    rewrite Hid, String.eqb_refl. reflexivity.
Qed.

(** C9 (as the code has it).  While the request of a task is in flight, a
    progress event with a computable length sets the progress of the
    task's item, and of no other, to [Math.round((loaded / total) * 100)]
    evaluated in binary64 arithmetic, leaving its id, name, size and status
    as they are.  For a total below 2^44 that value is within one half of
    [100 * loaded / total]: it is that quotient rounded to the nearest
    integer, except possibly when the quotient lies exactly halfway between
    two integers, where it may be the lower one.  Over the life of a task
    -- from the batch that creates it, through any interleaving with the
    events of other tasks -- if its progress events carry one positive
    [total] and a [loaded] count that never decreases and never exceeds it
    (and no later batch is handed the same generated id), the values its
    progress takes are integers between 0 and 100, never decrease, and the
    value is exactly 100 in every state where the task is [completed]. *)
Theorem C9_progress_monotone p files s0 uid total evs :
  items_of uid s0 = [] -> pend uid s0 = [] ->
  NoDup (map fst files) -> In uid (map fst files) ->
  0 < total -> transport_ok uid total 0 evs ->
  let s1 := step s0 (StartRealUpload p files) in
  (forall s c rest loaded,
      take_pending uid AwaitXhr (pending s) = Some (c, rest) ->
      0 <= loaded <= total ->
      let s' := step s (XhrProgress uid true loaded total) in
      exists z,
        Js.percent loaded total = Js.Int z /\ 0 <= z <= 100 /\
        uploads s' = with_progress uid (Js.Int z) (uploads s) /\
        map item_frame (uploads s') = map item_frame (uploads s) /\
        (forall u', In u' (uploads s') -> id u' = uid -> progress u' = Js.Int z) /\
        (forall u', In u' (uploads s') -> id u' <> uid -> In u' (uploads s)) /\
        (forall u, In u (uploads s) -> id u = uid ->
           In (mkItem uid (name u) (Js.Int z) (size u) (status u)) (uploads s')) /\
        (total < 2 ^ 44 ->
           200 * loaded - total <= 2 * total * z <= 200 * loaded + total /\
           (z = claimed_percent loaded total \/
            (z = claimed_percent loaded total - 1 /\ halfway loaded total))))
  /\ (exists zs,
        history uid s1 evs = map Js.Int zs /\
        Forall (fun z => 0 <= z <= 100) zs /\
        StronglySorted Z.le zs)
  /\ (forall s u, In s (states s1 evs) -> In u (items_of uid s) ->
                  status u = completed -> progress u = Js.Int 100).
Proof.
  intros Ei Ep ND Hin Tpos Ok s1.
  assert (I : Inv uid total 0 s1).
  { subst s1. cbn [step]. apply startRealUpload_inv; assumption. }
  split; [| split].
  - intros s c rest loaded TP Hl s'.
    destruct (JsFacts.percent_range loaded total Hl Tpos) as (z & Ez & Rz).
    exists z. split; [exact Ez |]. split; [exact Rz |].
    assert (Eu : uploads s' = with_progress uid (Js.Int z) (uploads s)).
    { subst s'. cbn [step]. rewrite TP. unfold onprogress. rewrite Ez. reflexivity. }
    destruct (with_progress_items uid (Js.Int z) (uploads s)) as (_ & Fr & Pr & Ot & Hit).
    rewrite Eu.
    split; [reflexivity |]. split; [exact Fr |]. split; [exact Pr |].
    split; [exact Ot |]. split.
    + intros u Hu Hid. pose proof (Hit u Hu Hid) as H.
      unfold set_progress in H. rewrite Hid in H. exact H.
    + intros Hu. split.
      * apply (JsError.percent_near loaded total z Hl (conj Tpos Hu) Ez).
      * apply (JsError.percent_vs_claim loaded total z Hl (conj Tpos Hu) Ez).
  - destruct (history_sorted uid total Tpos evs 0 s1 I Ok) as (zs & E & R & S & _).
    exists zs. auto.
  - intros s u Hs Hu Hc.
    eapply (completed_is_100 uid total Tpos evs 0 s1 I Ok); eauto.
Qed.

Lemma C9_witness :
  let evs := [XhrProgress "upload-2" true 29 200;
              XhrProgress "upload-1" true 7 10;
              XhrProgress "upload-2" true 115 200;
              XhrDone "upload-2" (XhrLoad 201 "Created" (JsonValue (Some "f2") None));
              TimerFired "upload-2"] in
  (items_of "upload-2" init = [] /\ pend "upload-2" init = [] /\
   NoDup (map fst sample_batch) /\ In "upload-2" (map fst sample_batch) /\
   0 < 200 /\ transport_ok "upload-2" 200 0 evs)
  /\ exists zs,
       history "upload-2" (step init (StartRealUpload sample_props_root sample_batch)) evs
         = map Js.Int zs /\
       Forall (fun z => 0 <= z <= 100) zs /\ StronglySorted Z.le zs.
Proof.
  intros evs.
  assert (ND : NoDup (map fst sample_batch)).
  { cbn. repeat constructor; cbn; intuition discriminate. }
  assert (Hin : In "upload-2" (map fst sample_batch)) by (cbn; auto).
  assert (Ok : transport_ok "upload-2" 200 0 evs).
  { cbn. repeat (split; [try exact I; intros E; try discriminate E; lia |]). exact I. }
  split.
  - exact (conj eq_refl (conj eq_refl (conj ND (conj Hin (conj eq_refl Ok))))).
  - apply (C9_progress_monotone sample_props_root sample_batch init "upload-2" 200 evs
             eq_refl eq_refl ND Hin eq_refl Ok).
Defined.

(** C9 as stated fails on the formula: the progress is not the rounded
    exact quotient.  With 29 of 200 bytes sent the quotient is 14.5,
    rounded to 15, and the task shows 14; with 115 of 200 the quotient is
    57.5, rounded to 58 upwards and to the even neighbour alike, and the
    task shows 57: [(loaded / total) * 100] is evaluated in
    binary64, where 0.145 * 100 and 0.575 * 100 fall just below the
    half. *)
Lemma C9_counterexample :
  let s := step init (StartRealUpload sample_props_root sample_batch) in
  let s29 := step s (XhrProgress "upload-2" true 29 200) in
  let s115 := step s29 (XhrProgress "upload-2" true 115 200) in
  claimed_percent 29 200 = 15 /\ halfway 29 200 /\
  map progress (items_of "upload-2" s29) = [Js.Int 14] /\
  claimed_percent 115 200 = 58 /\
  Js.round_half_even (100 * inject_Z 115 / inject_Z 200)%Q = 58 /\
  map progress (items_of "upload-2" s115) = [Js.Int 57] /\
  Js.Int 14 <> Js.Int (claimed_percent 29 200) /\
  Js.Int 57 <> Js.Int (claimed_percent 115 200).
Proof.
  cbv zeta.
  split; [vm_compute; reflexivity |]. split; [vm_compute; reflexivity |].
  split; [vm_compute; reflexivity |]. split; [vm_compute; reflexivity |].
  split; [vm_compute; reflexivity |]. split; [vm_compute; reflexivity |].
  split; vm_compute; discriminate.
Qed.

Example progress_history :
  history "upload-2" (step init (StartRealUpload sample_props_root sample_batch))
    [XhrProgress "upload-2" true 29 200;
     XhrProgress "upload-1" true 7 10;
     XhrProgress "upload-2" true 115 200;
     XhrDone "upload-2" (XhrLoad 201 "Created" (JsonValue (Some "f2") None));
     TimerFired "upload-2"] =
  map Js.Int [0; 14; 14; 57; 100].
Proof. vm_compute. reflexivity. Qed.

(** ** Relocation after the upload *)






Example relocation_failure_log :
  log (run init
         [StartRealUpload sample_props [("upload-1", sample_file)];
          XhrDone "upload-1" (XhrLoad 201 "Created" (JsonValue (Some "file-9") None));
          MoveDone "upload-1" (MoveResponse 500 "Internal Server Error" NotJson)]) =
  [XhrSend "upload-1" "POST" "http://localhost:8080/api/v1/files" "Bearer jwt" 60000
     sample_file None;
   FetchMove "upload-1" "PATCH" "http://localhost:8080/api/v1/files/file-9/move"
     "Bearer jwt" "folder-7";
   failure_toast sample_file "Failed to move file to folder: Internal Server Error"].
Proof. vm_compute. reflexivity. Qed.

(** The toasts of the four ways a move fails, for [report.pdf]. *)
Example relocation_failure_toasts :
  let after o :=
    last (log (run init
                 [StartRealUpload sample_props [("upload-1", sample_file)];
                  XhrDone "upload-1"
                    (XhrLoad 201 "Created" (JsonValue (Some "file-9") None));
                  MoveDone "upload-1" o]))
         (AddToast toast_success "") in
  let toast reason :=
    AddToast toast_error ("Failed to upload " ++ dquote ++ "report.pdf" ++ dquote ++
                          ": " ++ reason) in
  after (MoveResponse 500 "Internal Server Error" NotJson) =
    toast "Failed to move file to folder: Internal Server Error"
  /\ after (MoveResponse 409 "Conflict" (JsonValue None (Some "name taken"))) =
    toast "Failed to move file to folder: name taken"
  /\ after (MoveResponse 409 "Conflict" (JsonValue None None)) =
    toast "Failed to move file to folder: Conflict"
  /\ after (MoveResponse 500 "Internal Server Error" JsonNull) =
    toast "Cannot read properties of null (reading 'error')"
  /\ after (MoveRejected "Failed to fetch") = toast "Failed to fetch".
Proof. cbv zeta. repeat split; vm_compute; reflexivity. Qed.

(** ** The timeout of the request *)

Lemma status_kept_by_map_id K g l :
  (forall u, id (g u) = id u /\ status (g u) = status u) ->
  forall u', In u' (map_id K g l) ->
  exists u, In u l /\ id u' = id u /\ status u' = status u.
Proof.
  intros Hg u' H. destruct (map_id_status _ _ _ _ H) as [u [Hin [-> | ->]]].
  - exists u. auto.
  - exists u. destruct (Hg u). auto.
Qed.

(** C7 (as the code has it).  The request of a task is sent with a timeout
    of 60000 ms; when that timeout fires, the task is marked [error] and
    the toast says "Upload timeout".  No cancel is wired: dismissing a task
    removes it from the list and neither forgets the suspended call nor
    makes any call.  A task leaves [uploading] when its request settles
    (then it is [completed] or [error]); progress events, the removal timer
    and dismissal change no status. *)
Theorem C7_timeout_is_wired :
  (forall p uid f s, truthy (token p) = true ->
      exists form_tags,
        log (uploadFile p uid f s) =
          (log s ++ [XhrSend uid "POST" (restBaseUrl p ++ "/files")
                       ("Bearer " ++ interpolate (token p)) 60000 f form_tags])%list /\
        pending (uploadFile p uid f s) = (pending s ++ [mkPending uid f p AwaitXhr])%list)
  /\ (forall s uid c rest,
        take_pending uid AwaitXhr (pending s) = Some (c, rest) ->
        let s' := step s (XhrDone uid XhrTimeout) in
        uploads s' = with_status uid error (uploads s) /\
        log s' = (log s ++ [failure_toast (p_file c) "Upload timeout"])%list /\
        pending s' = rest)
  /\ (forall s uid,
        pending (step s (RemoveUpload uid)) = pending s /\
        log (step s (RemoveUpload uid)) = log s /\
        uploads (step s (RemoveUpload uid)) = without uid (uploads s))
  /\ (forall s uid o c rest,
        take_pending uid AwaitXhr (pending s) = Some (c, rest) ->
        Forall settled (items_of uid (step s (XhrDone uid o))))
  /\ (forall s e,
        match e with
        | XhrProgress _ _ _ _ | TimerFired _ | RemoveUpload _ => True
        | _ => False
        end ->
        forall u', In u' (uploads (step s e)) ->
        exists u, In u (uploads s) /\ id u' = id u /\ status u' = status u).
Proof.
  split; [| split; [| split; [| split]]].
  - intros p uid f s H. unfold uploadFile. rewrite H. cbn [negb].
    eexists. split; reflexivity.
  - intros s uid c rest TP s'. subst s'. cbn [step]. rewrite TP.
    destruct (take_pending_some _ _ _ _ _ TP) as [Hc _].
    unfold uploadFile_after_xhr. cbn [xhr_settle]. rewrite Hc.
    split; [| split]; reflexivity.
  - intros s uid. split; [| split]; reflexivity.
  - intros s uid o c rest TP. eapply xhr_done_settles. exact TP.
  - intros s e He u' Hu'.
    assert (Filt : forall K, In u' (without K (uploads s)) ->
                   exists u, In u (uploads s) /\ id u' = id u /\ status u' = status u).
    { intros K H. unfold without in H. apply filter_In in H. exists u'. tauto. }
    destruct e as [p fs | u lc l t | u o | u o | u | u]; try contradiction;
      cbn [step] in Hu'.
    + destruct (take_pending u AwaitXhr (pending s)); [| exists u'; auto].
      unfold onprogress in Hu'. destruct lc; [| exists u'; auto].
      cbn [setUploads uploads] in Hu'.
      apply (status_kept_by_map_id u (set_progress (Js.percent l t)) (uploads s));
        [intros v; split; reflexivity | exact Hu'].
    + destruct (remove_first u (timers s)); [| exists u'; auto].
      apply (Filt u). exact Hu'.
    + apply (Filt u). exact Hu'.
Qed.

Lemma C7_witness :
  let s := step init (StartRealUpload sample_props_root [("upload-1", sample_file)]) in
  (take_pending "upload-1" AwaitXhr (pending s) =
     Some (mkPending "upload-1" sample_file sample_props_root AwaitXhr, []))
  /\ log (step s (XhrDone "upload-1" XhrTimeout)) =
     (log s ++ [failure_toast sample_file "Upload timeout"])%list.
Proof.
  intros s. split; [reflexivity |].
  apply (proj1 (proj2 C7_timeout_is_wired) s "upload-1" _ [] eq_refl).
Defined.

(** C7 as stated fails: the request carries a 60000 ms timeout, and a task
    whose request times out ends in [error] with the reason
    "Upload timeout". *)
Lemma C7_counterexample :
  log (step init (StartRealUpload sample_props_root [("upload-1", sample_file)])) =
    [XhrSend "upload-1" "POST" "http://localhost:8080/api/v1/files" "Bearer jwt" 60000
       sample_file None]
  /\ uploads (run init [StartRealUpload sample_props_root [("upload-1", sample_file)];
                        XhrDone "upload-1" XhrTimeout]) =
     [mkItem "upload-1" "report.pdf" (Js.Int 0) 2048 error]
  /\ log (run init [StartRealUpload sample_props_root [("upload-1", sample_file)];
                    XhrDone "upload-1" XhrTimeout]) =
     [XhrSend "upload-1" "POST" "http://localhost:8080/api/v1/files" "Bearer jwt" 60000
        sample_file None;
      failure_toast sample_file "Upload timeout"].
Proof. repeat split; vm_compute; reflexivity. Qed.

End UploadClaims.

(* ===================================================================== *)
(** * Facts about PreviewModal                                            *)
(* ===================================================================== *)

Module PreviewFacts.
Import Preview PreviewViews.

Ltac prj :=
  cbn [currentBlobUrl currentFileId abortController loadingRef previewUrlRef
       loading previewUrl error aborted awaiting next_controller next_url
       mounted log
       set_currentBlobUrl set_currentFileId set_abortController set_loadingRef
       set_previewUrlRef set_loading set_previewUrl set_error set_aborted
       set_awaiting set_next_controller set_next_url set_mounted set_log
       emit abort] in *.

(** ** Reading the log *)

Lemma live_urls_app l1 l2 acc :
  live_urls (l1 ++ l2) acc = live_urls l2 (live_urls l1 acc).
Proof.
  revert acc. induction l1 as [| e l1 IH]; intros acc; [reflexivity |].
  destruct e; cbn [app live_urls]; apply IH.
Qed.

Lemma live_emit e s :
  live (emit e s) =
  match e with
  | CreateObjectURL u => (live s ++ [u])%list
  | RevokeObjectURL u => filter (fun v => negb (Nat.eqb v u)) (live s)
  | _ => live s
  end.
Proof.
  unfold live. prj. rewrite live_urls_app. destruct e; reflexivity.
Qed.

Lemma revocations_emit u e s :
  revocations u (emit e s) =
  (revocations u s + if is_revoke u e then 1 else 0)%nat.
Proof.
  unfold revocations. prj. rewrite filter_app, length_app. f_equal.
  destruct e; cbn [filter is_revoke]; try reflexivity.
  destruct (Nat.eqb u0 u); reflexivity.
Qed.

Lemma creations_emit u e s :
  creations u (emit e s) =
  (creations u s + if is_create u e then 1 else 0)%nat.
Proof.
  unfold creations. prj. rewrite filter_app, length_app. f_equal.
  destruct e; cbn [filter is_create]; try reflexivity.
  destruct (Nat.eqb u0 u); reflexivity.
Qed.

Lemma fetches_emit e s :
  fetches (emit e s) = (fetches s ++ if is_fetch e then [e] else [])%list.
Proof.
  unfold fetches. prj. rewrite filter_app. cbn [filter].
  destruct (is_fetch e); reflexivity.
Qed.

(** ** The invariant reads the core only *)

Lemma Inv0_core s s' : core s = core s' -> Inv0 s -> Inv0 s'.
Proof.
  unfold core. intros E. injection E as E1 E2 E3 E4 E5 E6 E7.
  unfold Inv0, live, revocations, creations, is_aborted.
  rewrite E1, E2, E3, E4, E5, E6, E7. exact (fun H => H).
Qed.

Lemma core_catch c m s : core (catch_block c m s) = core s.
Proof. unfold catch_block. destruct (is_aborted c s); reflexivity. Qed.

Lemma core_finally c s : core (finally_block c s) = core s.
Proof. unfold finally_block. destruct (is_aborted c s); reflexivity. Qed.

Lemma core_throw c m s : core (throw c m s) = core s.
Proof. unfold throw. rewrite core_finally. apply core_catch. Qed.

Lemma mounted_catch c m s : mounted (catch_block c m s) = mounted s.
Proof. unfold catch_block. destruct (is_aborted c s); reflexivity. Qed.

Lemma mounted_finally c s : mounted (finally_block c s) = mounted s.
Proof. unfold finally_block. destruct (is_aborted c s); reflexivity. Qed.

Lemma mounted_throw c m s : mounted (throw c m s) = mounted s.
Proof. unfold throw. rewrite mounted_finally. apply mounted_catch. Qed.

Lemma core_fields s s' :
  core s = core s' ->
  currentBlobUrl s = currentBlobUrl s' /\ abortController s = abortController s' /\
  awaiting s = awaiting s' /\ log s = log s' /\ aborted s = aborted s'.
Proof. unfold core. intros E. injection E as E1 E2 E3 E4 E5 E6 E7. auto. Qed.

(** ** Building blocks of the steps *)

Lemma is_aborted_abort c c' s :
  is_aborted c (abort c' s) = (Nat.eqb c c' || is_aborted c s)%bool.
Proof. reflexivity. Qed.

Lemma Inv0_transfer s s' :
  currentBlobUrl s' = currentBlobUrl s ->
  abortController s' = abortController s ->
  awaiting s' = awaiting s ->
  next_controller s' = next_controller s ->
  next_url s' = next_url s ->
  live s' = live s ->
  (forall u, revocations u s' = revocations u s) ->
  (forall u, creations u s' = creations u s) ->
  (forall c, is_aborted c s' = false -> is_aborted c s = false) ->
  (forall c, In c (aborted s') -> (c < next_controller s)%nat) ->
  Inv0 s -> Inv0 s'.
Proof.
  intros E1 E2 E3 E4 E5 E6 E7 E8 A1 A2 (P1 & P2 & P3 & P4 & P5 & P6 & P7).
  unfold Inv0. rewrite E1, E2, E3, E4, E5, E6.
  split; [exact P1 |]. split; [intros u; rewrite E7, E8; apply P2 |].
  split; [intros u; rewrite E8; apply P3 |].
  split; [intros c a Hin Ha; apply (P4 c a Hin), A1, Ha |].
  split; [exact P5 |]. split; [exact P6 | exact A2].
Qed.

Lemma Inv0_emit_plain e s :
  (match e with CreateObjectURL _ | RevokeObjectURL _ => False | _ => True end) ->
  Inv0 s -> Inv0 (emit e s).
Proof.
  intros He I. apply (Inv0_transfer s); try reflexivity; try exact I.
  - rewrite live_emit. destruct e; try reflexivity; contradiction.
  - intros u. rewrite revocations_emit. destruct e; cbn [is_revoke]; try lia; contradiction.
  - intros u. rewrite creations_emit. destruct e; cbn [is_create]; try lia; contradiction.
  - intros c H. exact H.
  - intros c H. destruct I as (_ & _ & _ & _ & _ & _ & P7). apply P7. exact H.
Qed.

Lemma Inv0_abort c s :
  (c < next_controller s)%nat -> Inv0 s -> Inv0 (abort c s).
Proof.
  intros Hc I. apply (Inv0_transfer s); try reflexivity; try exact I.
  - unfold abort. unfold live. prj. rewrite live_urls_app. reflexivity.
  - intros u. unfold abort, revocations. prj. rewrite filter_app, length_app.
    cbn. lia.
  - intros u. unfold abort, creations. prj. rewrite filter_app, length_app.
    cbn. lia.
  - intros c' H. rewrite is_aborted_abort in H. apply orb_false_iff in H. tauto.
  - intros c' H. prj. destruct H as [<- | H]; [exact Hc |].
    destruct I as (_ & _ & _ & _ & _ & _ & P7). apply P7. exact H.
Qed.

(** Dropping the controller of the ref, once it is aborted. *)
Lemma Inv0_drop_controller c s :
  abortController s = Some c -> is_aborted c s = true ->
  Inv0 s -> Inv0 (set_abortController None s).
Proof.
  intros Ec Ha (P1 & P2 & P3 & P4 & P5 & P6 & P7).
  unfold Inv0, live, revocations, creations, is_aborted in *. prj.
  split; [exact P1 |]. split; [exact P2 |]. split; [exact P3 |].
  split.
  - intros c' a Hin Hna. destruct (P4 c' a Hin Hna) as [E _].
    rewrite Ec in E. injection E as ->. rewrite Ha in Hna. discriminate.
  - split; [intros c' H; discriminate |]. split; [exact P6 | exact P7].
Qed.

Lemma filter_neq_single u :
  filter (fun v => negb (Nat.eqb v u)) [u] = [].
Proof. cbn. rewrite Nat.eqb_refl. reflexivity. Qed.

(** Revoking the URL of the ref. *)
Lemma Inv0_revoke u s :
  currentBlobUrl s = Some u ->
  Inv0 s -> Inv0 (set_currentBlobUrl None (emit (RevokeObjectURL u) s)).
Proof.
  intros Eu (P1 & P2 & P3 & P4 & P5 & P6 & P7).
  rewrite Eu in P1. cbn [option_list] in P1.
  assert (L : live (set_currentBlobUrl None (emit (RevokeObjectURL u) s)) = []).
  { change (live (emit (RevokeObjectURL u) s) = []). rewrite live_emit, P1.
    apply filter_neq_single. }
  unfold Inv0. rewrite L.
  split; [reflexivity |].
  split.
  { intros v.
    change (creations v (emit (RevokeObjectURL u) s) =
            (revocations v (emit (RevokeObjectURL u) s) + 0)%nat /\
            (creations v (emit (RevokeObjectURL u) s) <= 1)%nat).
    rewrite creations_emit, revocations_emit. cbn [is_create is_revoke].
    destruct (P2 v) as [C1 C2]. rewrite P1 in C1. cbn [filter] in C1.
    rewrite (Nat.eqb_sym u v). destruct (Nat.eqb v u); cbn [List.length] in C1; lia. }
  split.
  { intros v Hv.
    change (creations v (emit (RevokeObjectURL u) s) = 0%nat).
    rewrite creations_emit. cbn [is_create]. rewrite (P3 v Hv). reflexivity. }
  split.
  { intros c a Hin Hna. destruct (P4 c a Hin Hna) as [E _]. split; [exact E | reflexivity]. }
  split; [exact P5 |]. split; [exact P6 | exact P7].
Qed.

(** ** The cleanup *)

Lemma cleanup_Inv0 s : Inv0 s -> Inv0 (cleanup s).
Proof.
  intros I. unfold cleanup.
  assert (I1 : Inv0 (match abortController s with
                     | Some c => set_abortController None (abort c s)
                     | None => s
                     end)).
  { destruct (abortController s) as [c |] eqn:Ec; [| exact I].
    apply (Inv0_drop_controller c).
    - exact Ec.
    - rewrite is_aborted_abort, Nat.eqb_refl. reflexivity.
    - apply Inv0_abort; [| exact I].
      destruct I as (_ & _ & _ & _ & P5 & _). apply P5. exact Ec. }
  destruct (currentBlobUrl _) as [u |] eqn:Eu; [| exact I1].
  apply Inv0_revoke; assumption.
Qed.

Lemma cleanup_clean s : Clean (cleanup s).
Proof.
  unfold Clean, cleanup.
  destruct (abortController s) as [c |] eqn:Ec;
    destruct (currentBlobUrl s) as [u |] eqn:Eu; prj; rewrite ?Eu, ?Ec; prj;
    split; first [reflexivity | assumption].
Qed.

Lemma cleanup_refs s :
  currentFileId (cleanup s) = currentFileId s /\
  loadingRef (cleanup s) = loadingRef s /\
  previewUrlRef (cleanup s) = previewUrlRef s /\
  previewUrl (cleanup s) = previewUrl s /\
  loading (cleanup s) = loading s /\
  mounted (cleanup s) = mounted s /\
  awaiting (cleanup s) = awaiting s /\
  next_url (cleanup s) = next_url s /\
  fetches (cleanup s) = fetches s.
Proof.
  unfold cleanup, fetches.
  destruct (abortController s) as [c |] eqn:Ec;
    destruct (currentBlobUrl s) as [u |] eqn:Eu; prj; rewrite ?Eu; prj;
    rewrite ?filter_app; cbn [filter is_fetch]; rewrite ?app_nil_r;
    repeat split; reflexivity.
Qed.

Lemma cleanup_revocations s u :
  revocations u (cleanup s) =
  (revocations u s +
   match currentBlobUrl s with
   | Some v => if Nat.eqb v u then 1 else 0
   | None => 0
   end)%nat.
Proof.
  unfold cleanup, revocations.
  destruct (abortController s) as [c |] eqn:Ec;
    destruct (currentBlobUrl s) as [v |] eqn:Ev; prj; rewrite ?Ev; prj;
    rewrite ?filter_app, ?length_app; cbn [filter List.length];
    try destruct (Nat.eqb v u); cbn [List.length]; lia.
Qed.

Lemma cleanup_creations s u : creations u (cleanup s) = creations u s.
Proof.
  unfold cleanup, creations.
  destruct (abortController s) as [c |] eqn:Ec;
    destruct (currentBlobUrl s) as [v |] eqn:Ev; prj; rewrite ?Ev; prj;
    rewrite ?filter_app, ?length_app; cbn [filter List.length]; lia.
Qed.

Lemma already_current_cleanup f s :
  already_current f (cleanup s) = already_current f s.
Proof.
  unfold already_current.
  destruct (cleanup_refs s) as (-> & -> & -> & _). reflexivity.
Qed.

(** ** The start of a request *)

Lemma start_request_facts f s :
  Inv0 s ->
  let s' := start_request f s in
  Inv0 s' /\
  is_aborted (next_controller s) s' = false /\
  abortController s' = Some (next_controller s) /\
  currentBlobUrl s' = currentBlobUrl s /\
  awaiting s' = awaiting s /\
  next_controller s' = S (next_controller s).
Proof.
  intros I. cbv zeta.
  set (s1 := match abortController s with Some c => abort c s | None => s end).
  assert (N1 : next_controller s1 = next_controller s).
  { subst s1. destruct (abortController s); reflexivity. }
  assert (I1 : Inv0 s1).
  { subst s1. destruct (abortController s) as [c |] eqn:Ec; [| exact I].
    apply Inv0_abort; [| exact I]. destruct I as (_ & _ & _ & _ & P5 & _). auto. }
  assert (Ab : forall c a, In (c, a) (awaiting s1) -> is_aborted c s1 = true).
  { intros c a Hin. destruct (is_aborted c s1) eqn:Ha; [reflexivity |]. exfalso.
    subst s1. destruct I as (_ & _ & _ & P4 & _).
    destruct (abortController s) as [c0 |] eqn:Ec.
    - rewrite is_aborted_abort in Ha. apply orb_false_iff in Ha. destruct Ha as [Hne Hna].
      destruct (P4 c a Hin Hna) as [E _]. injection E as ->.
      rewrite Nat.eqb_refl in Hne. discriminate.
    - destruct (P4 c a Hin Ha) as [E _]. discriminate. }
  assert (Fresh : is_aborted (next_controller s) s1 = false).
  { destruct (is_aborted (next_controller s) s1) eqn:Ha; [| reflexivity]. exfalso.
    unfold is_aborted in Ha. apply existsb_exists in Ha. destruct Ha as [c [Hin Hc]].
    apply Nat.eqb_eq in Hc. subst c.
    destruct I1 as (_ & _ & _ & _ & _ & _ & P7). specialize (P7 _ Hin). lia. }
  assert (E : core (start_request f s) =
              core (set_abortController (Some (next_controller s1))
                      (set_next_controller (S (next_controller s1)) s1))).
  { reflexivity. }
  assert (I2 : Inv0 (set_abortController (Some (next_controller s1))
                       (set_next_controller (S (next_controller s1)) s1))).
  { destruct I1 as (P1 & P2 & P3 & P4 & P5 & P6 & P7).
    unfold Inv0, live, revocations, creations, is_aborted in *. prj.
    split; [exact P1 |]. split; [exact P2 |]. split; [exact P3 |].
    split.
    { intros c a Hin Hna. pose proof (Ab c a Hin) as Ha.
      unfold is_aborted in Ha. rewrite Ha in Hna. discriminate. }
    split; [intros c Hc; injection Hc as <-; lia |].
    split; [intros c a Hin; specialize (P6 c a Hin); lia |].
    intros c Hin. specialize (P7 c Hin). lia. }
  split; [eapply Inv0_core; [symmetry; exact E | exact I2] |].
  split; [exact Fresh |].
  split; [unfold start_request; prj; fold s1; rewrite N1; reflexivity |].
  split; [subst s1; unfold start_request; destruct (abortController s); reflexivity |].
  split; [subst s1; unfold start_request; destruct (abortController s); reflexivity |].
  unfold start_request. prj. fold s1. rewrite N1. reflexivity.
Qed.

(** ** [loadFilePreview] by cases *)

Lemma load_guarded p f s :
  file p = Some f -> isOpen p = true -> already_current f s = true ->
  loadFilePreview p s = s.
Proof. intros Hf Ho Hg. unfold loadFilePreview. rewrite Hf, Ho, Hg. reflexivity. Qed.

Lemma load_not_previewable p f s :
  fresh_resolve p f s -> previewable f = false ->
  loadFilePreview p s =
  finally_block (next_controller s)
    (set_previewUrlRef None (set_previewUrl None (start_request f s))).
Proof.
  intros (Hf & Ho & Hg) Hp. unfold loadFilePreview. rewrite Hf, Ho, Hg.
  unfold previewable in Hp. rewrite Hp. reflexivity.
Qed.

Lemma load_auth_required p f s :
  fresh_resolve p f s -> previewable f = true -> auth_ok p = false ->
  loadFilePreview p s =
  throw (next_controller s) "Authentication required for file preview"
    (start_request f s).
Proof.
  intros (Hf & Ho & Hg) Hp Ha. unfold loadFilePreview. rewrite Hf, Ho, Hg.
  unfold previewable in Hp. rewrite Hp.
  unfold auth_ok in Ha. apply orb_false_iff in Ha. destruct Ha as [-> ->].
  reflexivity.
Qed.

Lemma load_too_large p f s msg :
  fresh_resolve p f s -> auth_ok p = true -> too_large f = Some msg ->
  previewable f = true ->
  loadFilePreview p s = throw (next_controller s) msg (start_request f s).
Proof.
  intros (Hf & Ho & Hg) Ha Ht Hp. unfold loadFilePreview. rewrite Hf, Ho, Hg.
  unfold previewable in Hp. rewrite Hp.
  assert (Hn : (negb (truthy (token p)) && negb (isPublic p))%bool = false).
  { unfold auth_ok in Ha. destruct (truthy (token p)), (isPublic p);
      try reflexivity; discriminate. }
  rewrite Hn. unfold too_large in Ht.
  destruct (isTextFile (mime_type f) && (500000 <? size_bytes f)%Z)%bool.
  { injection Ht as <-. reflexivity. }
  destruct (isVideoFile (mime_type f) && (100000000 <? size_bytes f)%Z)%bool.
  { injection Ht as <-. reflexivity. }
  destruct (isPDFFile (mime_type f) && (50000000 <? size_bytes f)%Z)%bool.
  { injection Ht as <-. reflexivity. }
  discriminate.
Qed.

(** A ceiling applies to text, video and PDF only, all of them
    previewable. *)
Lemma too_large_previewable f msg : too_large f = Some msg -> previewable f = true.
Proof.
  unfold too_large, previewable. intros H.
  destruct (isImageFile (mime_type f)); [reflexivity |].
  destruct (isTextFile (mime_type f)); [reflexivity |].
  destruct (isPDFFile (mime_type f)); [reflexivity |].
  destruct (isVideoFile (mime_type f)); [reflexivity |].
  cbn in H. discriminate.
Qed.

Lemma load_fetch p f s :
  fresh_resolve p f s -> fetchable p f = true ->
  loadFilePreview p s =
  let signal := next_controller s in
  let s0 := start_request f s in
  let s1 := emit (Fetch (downloadUrl p f) (headers p f) signal)
              (emit (SetTimeout signal (timeoutDuration f)) s0) in
  set_awaiting (awaiting s1 ++ [(signal, AwaitRace)])%list s1.
Proof.
  intros (Hf & Ho & Hg) Hfe. unfold loadFilePreview. rewrite Hf, Ho, Hg.
  unfold fetchable in Hfe. apply andb_true_iff in Hfe. destruct Hfe as [Hfe Ht].
  apply andb_true_iff in Hfe. destruct Hfe as [Hp Ha].
  unfold previewable in Hp. rewrite Hp.
  assert (Hn : (negb (truthy (token p)) && negb (isPublic p))%bool = false).
  { unfold auth_ok in Ha. destruct (truthy (token p)), (isPublic p);
      try reflexivity; discriminate. }
  rewrite Hn. unfold too_large in Ht.
  destruct (isTextFile (mime_type f) && (500000 <? size_bytes f)%Z)%bool;
    [discriminate |].
  destruct (isVideoFile (mime_type f) && (100000000 <? size_bytes f)%Z)%bool;
    [discriminate |].
  destruct (isPDFFile (mime_type f) && (50000000 <? size_bytes f)%Z)%bool;
    [discriminate |].
  reflexivity.
Qed.

Lemma reset_Inv0 s :
  Inv0 s -> currentBlobUrl s = None -> Inv0 (loadFilePreview_reset s).
Proof.
  intros I Eu. unfold loadFilePreview_reset. rewrite Eu.
  set (s1 := match abortController s with
             | Some c => set_abortController None (abort c s)
             | None => s
             end).
  assert (I1 : Inv0 s1).
  { subst s1. destruct (abortController s) as [c |] eqn:Ec; [| exact I].
    apply (Inv0_drop_controller c).
    - exact Ec.
    - rewrite is_aborted_abort, Nat.eqb_refl. reflexivity.
    - apply Inv0_abort; [| exact I].
      destruct I as (_ & _ & _ & _ & P5 & _). apply P5. exact Ec. }
  eapply Inv0_core; [| exact I1]. reflexivity.
Qed.

Lemma reset_clean s :
  currentBlobUrl s = None -> Clean (loadFilePreview_reset s).
Proof.
  intros Eu. unfold Clean, loadFilePreview_reset. rewrite Eu.
  destruct (abortController s) as [c |] eqn:Ec; prj; rewrite ?Eu, ?Ec;
    split; reflexivity.
Qed.

Lemma load_Inv0 p s :
  Inv0 s -> currentBlobUrl s = None -> Inv0 (loadFilePreview p s).
Proof.
  intros I Eu. unfold loadFilePreview.
  destruct (file p) as [f |]; [| apply reset_Inv0; assumption].
  destruct (isOpen p); [| apply reset_Inv0; assumption].
  destruct (already_current f s); [exact I |].
  pose proof (start_request_facts f s I) as H0. cbv zeta in H0.
  remember (start_request f s) as s0 eqn:Hs0.
  destruct H0 as (I0 & Fr & Ec & Eb & Ew & En).
  assert (Th : forall m, Inv0 (throw (next_controller s) m s0)).
  { intros m. eapply Inv0_core; [symmetry; apply core_throw | exact I0]. }
  destruct (isImageFile _ || isTextFile _ || isPDFFile _ || isVideoFile _)%bool.
  2:{ eapply Inv0_core; [symmetry; apply core_finally |].
      eapply Inv0_core; [| exact I0]. reflexivity. }
  destruct (negb (truthy (token p)) && negb (isPublic p))%bool; [apply Th |].
  destruct (isTextFile _ && _)%bool; [apply Th |].
  destruct (isVideoFile _ && _)%bool; [apply Th |].
  destruct (isPDFFile _ && _)%bool; [apply Th |].
  assert (I1 : Inv0 (emit (Fetch (downloadUrl p f) (headers p f) (next_controller s))
                       (emit (SetTimeout (next_controller s) (timeoutDuration f)) s0))).
  { apply Inv0_emit_plain; [exact Logic.I |].
    apply Inv0_emit_plain; [exact Logic.I | exact I0]. }
  clear I I0 Th.
  destruct I1 as (P1 & P2 & P3 & P4 & P5 & P6 & P7).
  unfold Inv0, live, revocations, creations, is_aborted in *. prj.
  split; [exact P1 |]. split; [exact P2 |]. split; [exact P3 |].
  split.
  { intros c a Hin Hna. apply in_app_or in Hin. destruct Hin as [Hin | [E | []]].
    - apply (P4 c a Hin Hna).
    - injection E as <- <-. split; [exact Ec | rewrite Eb; exact Eu]. }
  split; [exact P5 |].
  split; [| exact P7].
  intros c a Hin. apply in_app_or in Hin. destruct Hin as [Hin | [E | []]].
  - apply (P6 c a Hin).
  - injection E as <- <-. rewrite En. lia.
Qed.

(** ** Resumed calls *)

Lemma is_awaiting_In c a s : is_awaiting c a s = true -> In (c, a) (awaiting s).
Proof.
  unfold is_awaiting. intros H. apply existsb_exists in H.
  destruct H as [[c' a'] [Hin H]]. cbn [fst snd] in H.
  apply andb_true_iff in H. destruct H as [Hc Ha]. apply Nat.eqb_eq in Hc. subst c'.
  destruct a', a; try discriminate; exact Hin.
Qed.

Lemma In_resume c c' a s :
  In (c', a) (awaiting (resume c s)) -> In (c', a) (awaiting s) /\ c' <> c.
Proof.
  unfold resume. prj. intros H. apply filter_In in H. destruct H as [Hin H].
  cbn [fst] in H. split; [exact Hin |].
  intros ->. rewrite Nat.eqb_refl in H. discriminate.
Qed.

Lemma resume_Inv0 c s : Inv0 s -> Inv0 (resume c s).
Proof.
  intros (P1 & P2 & P3 & P4 & P5 & P6 & P7).
  unfold Inv0, live, revocations, creations, is_aborted in *.
  split; [exact P1 |]. split; [exact P2 |]. split; [exact P3 |].
  split.
  { intros c' a Hin Hna. destruct (In_resume _ _ _ _ Hin) as [Hin' _].
    apply (P4 c' a Hin' Hna). }
  split; [exact P5 |]. split; [| exact P7].
  intros c' a Hin. destruct (In_resume _ _ _ _ Hin) as [Hin' _]. apply (P6 c' a Hin').
Qed.

Lemma after_fetch_Inv0 c r s :
  Inv0 s -> In (c, AwaitRace) (awaiting s) -> Inv0 (after_fetch c r (resume c s)).
Proof.
  intros I Hin. pose proof (resume_Inv0 c s I) as I1.
  unfold after_fetch. destruct r as [st txt | msg].
  2:{ eapply Inv0_core; [symmetry; apply core_throw | exact I1]. }
  destruct (is_aborted c (resume c s)) eqn:Ha; [exact I1 |].
  destruct (is_2xx st).
  2:{ eapply Inv0_core; [symmetry; apply core_throw | exact I1]. }
  destruct I as (_ & _ & _ & Q4 & _ & Q6 & _).
  destruct I1 as (P1 & P2 & P3 & P4 & P5 & P6 & P7).
  unfold Inv0, live, revocations, creations, is_aborted in *.
  split; [exact P1 |]. split; [exact P2 |]. split; [exact P3 |].
  split.
  { intros c' a Hin' Hna. cbn [awaiting set_awaiting] in Hin'.
    apply in_app_or in Hin'. destruct Hin' as [Hin' | [E | []]].
    - apply (P4 c' a Hin' Hna).
    - injection E as <- <-. apply (Q4 c AwaitRace Hin Hna). }
  split; [exact P5 |]. split; [| exact P7].
  intros c' a Hin'. cbn [awaiting set_awaiting] in Hin'.
  apply in_app_or in Hin'. destruct Hin' as [Hin' | [E | []]].
  - apply (P6 c' a Hin').
  - injection E as <- <-. apply (Q6 c AwaitRace Hin).
Qed.

(** The state in which [URL.createObjectURL] is reached. *)
Lemma after_blob_ok c s :
  Inv0 s -> In (c, AwaitBlob) (awaiting s) -> is_aborted c s = false ->
  abortController s = Some c /\ currentBlobUrl s = None /\
  after_blob c BlobOk (resume c s) =
  finally_block c
    (set_previewUrl (Some (next_url s))
       (set_previewUrlRef (Some (next_url s))
          (set_currentBlobUrl (Some (next_url s))
             (set_next_url (S (next_url s))
                (emit (CreateObjectURL (next_url s)) (resume c s)))))).
Proof.
  intros I Hin Ha. destruct I as (_ & _ & _ & P4 & _).
  destruct (P4 c AwaitBlob Hin Ha) as [Ec Eu].
  split; [exact Ec |]. split; [exact Eu |].
  unfold after_blob.
  change (is_aborted c (resume c s)) with (is_aborted c s). rewrite Ha.
  change (currentBlobUrl (resume c s)) with (currentBlobUrl s). rewrite Eu.
  reflexivity.
Qed.

Lemma after_blob_Inv0 c r s :
  Inv0 s -> In (c, AwaitBlob) (awaiting s) -> Inv0 (after_blob c r (resume c s)).
Proof.
  intros I Hin. pose proof (resume_Inv0 c s I) as I1.
  destruct r as [| msg].
  2:{ eapply Inv0_core; [symmetry; apply core_throw | exact I1]. }
  destruct (is_aborted c s) eqn:Ha.
  { unfold after_blob. change (is_aborted c (resume c s)) with (is_aborted c s).
    rewrite Ha. exact I1. }
  destruct (after_blob_ok c s I Hin Ha) as (Ec & Eu & ->).
  eapply Inv0_core; [symmetry; apply core_finally |].
  set (u := next_url s).
  assert (L : live (emit (CreateObjectURL u) (resume c s)) = [u]).
  { rewrite live_emit. change (live (resume c s)) with (live s).
    destruct I as (P1 & _). rewrite P1, Eu. reflexivity. }
  destruct I as (P1 & P2 & P3 & P4 & P5 & P6 & P7).
  unfold Inv0.
  split; [exact L |].
  split.
  { intros v.
    change (creations v (emit (CreateObjectURL u) (resume c s)) =
            (revocations v (emit (CreateObjectURL u) (resume c s)) +
             List.length (filter (Nat.eqb v) (live (emit (CreateObjectURL u) (resume c s)))))%nat
            /\ (creations v (emit (CreateObjectURL u) (resume c s)) <= 1)%nat).
    rewrite L, creations_emit, revocations_emit. cbn [is_create is_revoke filter].
    change (creations v (resume c s)) with (creations v s).
    change (revocations v (resume c s)) with (revocations v s).
    destruct (P2 v) as [C1 C2]. rewrite P1, Eu in C1. cbn [option_list filter List.length] in C1.
    rewrite (Nat.eqb_sym u v). destruct (Nat.eqb v u) eqn:E; cbn [List.length].
    - apply Nat.eqb_eq in E. subst v. rewrite (P3 u) in * by (unfold u; lia). lia.
    - lia. }
  split.
  { intros v Hv.
    change (creations v (emit (CreateObjectURL u) (resume c s)) = 0%nat).
    rewrite creations_emit. cbn [is_create].
    change (creations v (resume c s)) with (creations v s).
    change (next_url (set_previewUrl (Some u) (set_previewUrlRef (Some u)
             (set_currentBlobUrl (Some u) (set_next_url (S u)
               (emit (CreateObjectURL u) (resume c s))))))) with (S u) in Hv.
    rewrite (P3 v) by (unfold u in *; lia).
    assert (E : Nat.eqb u v = false) by (apply Nat.eqb_neq; lia).
    rewrite E. reflexivity. }
  split.
  { intros c' a Hin' Hna. exfalso.
    apply In_resume in Hin'. destruct Hin' as [Hin' Hne].
    destruct (P4 c' a Hin' Hna) as [E _]. rewrite Ec in E. injection E as ->.
    apply Hne. reflexivity. }
  split; [exact P5 |]. split; [| exact P7].
  intros c' a Hin'. apply In_resume in Hin'. destruct Hin' as [Hin' _].
  apply (P6 c' a Hin').
Qed.

(** ** The invariant along every trace *)

Lemma Inv_init : Inv init.
Proof.
  split.
  - unfold Inv0. cbn. repeat split; try lia; try contradiction; try discriminate.
  - intros _. split; reflexivity.
Qed.

Lemma Inv_mounted s c : Inv s -> abortController s = Some c -> mounted s = true.
Proof.
  intros [_ M] Ec. destruct (mounted s); [reflexivity |].
  destruct (M eq_refl) as [_ E]. rewrite Ec in E. discriminate.
Qed.

Lemma Inv_mounted_url s u : Inv s -> currentBlobUrl s = Some u -> mounted s = true.
Proof.
  intros [_ M] Eu. destruct (mounted s); [reflexivity |].
  destruct (M eq_refl) as [E _]. rewrite Eu in E. discriminate.
Qed.

Lemma step_Inv s e : Inv s -> Inv (step s e).
Proof.
  intros I. pose proof I as [I0 M].
  destruct e as [p | | c r | c | c r]; cbn [step].
  - (* the effect runs *)
    set (s1 := if mounted s then cleanup s else s).
    assert (I1 : Inv0 s1 /\ currentBlobUrl s1 = None).
    { subst s1. destruct (mounted s) eqn:Em.
      - split; [apply cleanup_Inv0; exact I0 | apply cleanup_clean].
      - split; [exact I0 | apply (M eq_refl)]. }
    destruct I1 as [I1 Eu]. split.
    + eapply Inv0_core; [| apply (load_Inv0 p s1 I1 Eu)]. reflexivity.
    + intros H. discriminate.
  - (* unmount *)
    destruct (mounted s) eqn:Em; [| exact I]. split.
    + eapply Inv0_core; [| apply (cleanup_Inv0 s I0)]. reflexivity.
    + intros _. apply cleanup_clean.
  - (* the fetch settles *)
    destruct (is_awaiting c AwaitRace s) eqn:Aw; [| exact I].
    apply is_awaiting_In in Aw. split.
    + apply after_fetch_Inv0; assumption.
    + intros Hm. unfold after_fetch in *.
      destruct r as [st txt | msg].
      * destruct (is_aborted c (resume c s)).
        -- apply (M Hm).
        -- destruct (is_2xx st).
           ++ apply (M Hm).
           ++ rewrite mounted_throw in Hm.
              destruct (core_fields _ _ (core_throw c
                          ("Failed to load preview: " ++ show_Z st ++ " " ++ txt)
                          (resume c s))) as (-> & -> & _).
              apply (M Hm).
      * rewrite mounted_throw in Hm.
        destruct (core_fields _ _ (core_throw c msg (resume c s))) as (-> & -> & _).
        apply (M Hm).
  - (* the timer fires *)
    destruct (is_awaiting c AwaitRace s && negb (is_aborted c s))%bool eqn:Aw;
      [| exact I].
    split.
    + eapply Inv0_core; [symmetry; apply core_throw |]. apply resume_Inv0. exact I0.
    + intros Hm. rewrite mounted_throw in Hm.
      destruct (core_fields _ _ (core_throw c
                  "Request timeout - large files may take longer to load"
                  (resume c s))) as (-> & -> & _).
      apply (M Hm).
  - (* the blob settles *)
    destruct (is_awaiting c AwaitBlob s) eqn:Aw; [| exact I].
    apply is_awaiting_In in Aw. split.
    + apply after_blob_Inv0; assumption.
    + intros Hm. destruct r as [| msg].
      * destruct (is_aborted c s) eqn:Ha.
        -- unfold after_blob in *.
           change (is_aborted c (resume c s)) with (is_aborted c s) in *.
           rewrite Ha in *. apply (M Hm).
        -- exfalso. destruct (after_blob_ok c s I0 Aw Ha) as (Ec & _ & E).
           rewrite E, mounted_finally in Hm. change (mounted s = false) in Hm.
           rewrite (Inv_mounted s c I Ec) in Hm. discriminate.
      * unfold after_blob in *. rewrite mounted_throw in Hm.
        destruct (core_fields _ _ (core_throw c msg (resume c s))) as (-> & -> & _).
        apply (M Hm).
Qed.

Lemma run_app s evs1 evs2 : run s (evs1 ++ evs2) = run (run s evs1) evs2.
Proof. apply fold_left_app. Qed.

Lemma run_Inv evs : forall s, Inv s -> Inv (run s evs).
Proof.
  induction evs as [| e evs IH]; intros s I; [exact I |].
  apply IH, step_Inv, I.
Qed.

Lemma reachable_Inv evs : Inv (run init evs).
Proof. apply run_Inv, Inv_init. Qed.

(** No object URL is revoked twice, and at most one is live. *)
Lemma Inv_once s : Inv s ->
  (forall u, (revocations u s <= creations u s <= 1)%nat) /\
  live s = option_list (currentBlobUrl s).
Proof.
  intros [(P1 & P2 & _) _]. split; [| exact P1].
  intros u. destruct (P2 u). lia.
Qed.

(** ** What a step adds to the log *)

Lemma cleanup_next_controller s : next_controller (cleanup s) = next_controller s.
Proof.
  unfold cleanup.
  destruct (abortController s) as [c |] eqn:Ec;
    destruct (currentBlobUrl s) as [u |] eqn:Eu; prj; rewrite ?Eu; reflexivity.
Qed.

Lemma start_request_log f s :
  fetches (start_request f s) = fetches s /\
  (forall u, revocations u (start_request f s) = revocations u s) /\
  (forall u, creations u (start_request f s) = creations u s) /\
  next_url (start_request f s) = next_url s /\
  currentFileId (start_request f s) = Some (id f) /\
  loadingRef (start_request f s) = true /\
  previewUrlRef (start_request f s) = previewUrlRef s /\
  previewUrl (start_request f s) = previewUrl s.
Proof.
  unfold start_request, fetches, revocations, creations.
  destruct (abortController s) as [c |]; prj;
    (split; [rewrite ?filter_app; cbn [filter is_fetch]; rewrite ?app_nil_r; reflexivity |]);
    (split; [intros u; rewrite ?filter_app, ?length_app; cbn [filter List.length]; lia |]);
    (split; [intros u; rewrite ?filter_app, ?length_app; cbn [filter List.length]; lia |]);
    repeat split; reflexivity.
Qed.

(** The state after [throw], when the signal is not aborted. *)
Lemma throw_live c m s :
  is_aborted c s = false ->
  throw c m s =
  set_loadingRef false (set_loading false
    (set_previewUrlRef None (set_previewUrl None (set_error (Some m) s)))).
Proof.
  intros H. unfold throw, catch_block, finally_block. rewrite H.
  change (is_aborted c (set_previewUrlRef None (set_previewUrl None
            (set_error (Some m) s)))) with (is_aborted c s).
  rewrite H. reflexivity.
Qed.

Lemma fetches_core s s' : core s = core s' -> fetches s = fetches s'.
Proof.
  intros E. destruct (core_fields _ _ E) as (_ & _ & _ & El & _).
  unfold fetches. rewrite El. reflexivity.
Qed.

Lemma revocations_core s s' u : core s = core s' -> revocations u s = revocations u s'.
Proof.
  intros E. destruct (core_fields _ _ E) as (_ & _ & _ & El & _).
  unfold revocations. rewrite El. reflexivity.
Qed.

Lemma creations_core s s' u : core s = core s' -> creations u s = creations u s'.
Proof.
  intros E. destruct (core_fields _ _ E) as (_ & _ & _ & El & _).
  unfold creations. rewrite El. reflexivity.
Qed.

(** [loadFilePreview] revokes nothing and creates nothing when the ref
    holds no URL. *)
(** The URLs after each way [loadFilePreview] ends. *)
Lemma urls_throw c m s u :
  revocations u (throw c m s) = revocations u s /\
  creations u (throw c m s) = creations u s /\
  currentBlobUrl (throw c m s) = currentBlobUrl s /\
  next_url (throw c m s) = next_url s.
Proof.
  pose proof (core_throw c m s) as E.
  rewrite (revocations_core _ _ u E), (creations_core _ _ u E).
  unfold core in E. injection E as E1 _ _ _ _ E6 _. rewrite E1, E6. auto.
Qed.

Lemma urls_not_previewable c s u :
  let s' := finally_block c (set_previewUrlRef None (set_previewUrl None s)) in
  revocations u s' = revocations u s /\ creations u s' = creations u s /\
  currentBlobUrl s' = currentBlobUrl s /\ next_url s' = next_url s.
Proof.
  cbv zeta.
  pose proof (core_finally c (set_previewUrlRef None (set_previewUrl None s))) as E.
  rewrite (revocations_core _ _ u E), (creations_core _ _ u E).
  unfold core in E. injection E as E1 _ _ _ _ E6 _. rewrite E1, E6.
  repeat split; reflexivity.
Qed.

Lemma urls_fetch url h c ms s u :
  let s1 := emit (Fetch url h c) (emit (SetTimeout c ms) s) in
  let s' := set_awaiting (awaiting s1 ++ [(c, AwaitRace)])%list s1 in
  revocations u s' = revocations u s /\ creations u s' = creations u s /\
  currentBlobUrl s' = currentBlobUrl s /\ next_url s' = next_url s.
Proof.
  cbv zeta. unfold revocations, creations. prj.
  rewrite !filter_app, !length_app. cbn [filter List.length].
  repeat split; try reflexivity; lia.
Qed.

Lemma load_urls p s u :
  currentBlobUrl s = None ->
  revocations u (loadFilePreview p s) = revocations u s /\
  creations u (loadFilePreview p s) = creations u s /\
  currentBlobUrl (loadFilePreview p s) = None /\
  next_url (loadFilePreview p s) = next_url s.
Proof.
  intros Eu.
  assert (Reset : revocations u (loadFilePreview_reset s) = revocations u s /\
                  creations u (loadFilePreview_reset s) = creations u s /\
                  currentBlobUrl (loadFilePreview_reset s) = None /\
                  next_url (loadFilePreview_reset s) = next_url s).
  { unfold loadFilePreview_reset, revocations, creations. rewrite Eu.
    destruct (abortController s) as [c |]; prj;
      rewrite ?filter_app, ?length_app; cbn [filter List.length];
      repeat split; try lia; assumption. }
  unfold loadFilePreview.
  destruct (file p) as [f |]; [| exact Reset].
  destruct (isOpen p); [| exact Reset].
  destruct (already_current f s); [auto |].
  destruct (start_request_log f s) as (_ & Rv & Cr & Nu & _).
  assert (Cu : currentBlobUrl (start_request f s) = None).
  { unfold start_request. destruct (abortController s); prj; exact Eu. }
  cbv zeta.
  assert (Th : forall m,
             revocations u (throw (next_controller s) m (start_request f s)) =
               revocations u s /\
             creations u (throw (next_controller s) m (start_request f s)) =
               creations u s /\
             currentBlobUrl (throw (next_controller s) m (start_request f s)) = None /\
             next_url (throw (next_controller s) m (start_request f s)) = next_url s).
  { intros m.
    destruct (urls_throw (next_controller s) m (start_request f s) u)
      as (-> & -> & -> & ->). auto. }
  destruct (isImageFile _ || isTextFile _ || isPDFFile _ || isVideoFile _)%bool.
  2:{ destruct (urls_not_previewable (next_controller s) (start_request f s) u)
        as (-> & -> & -> & ->). auto. }
  destruct (negb (truthy (token p)) && negb (isPublic p))%bool; [apply Th |].
  destruct (isTextFile _ && _)%bool; [apply Th |].
  destruct (isVideoFile _ && _)%bool; [apply Th |].
  destruct (isPDFFile _ && _)%bool; [apply Th |].
  destruct (urls_fetch (downloadUrl p f) (headers p f) (next_controller s)
              (timeoutDuration f) (start_request f s) u) as (-> & -> & -> & ->).
  auto.
Qed.

End PreviewFacts.

(* ===================================================================== *)
(** * The preview resolver: statements                                    *)
(* ===================================================================== *)

Module PreviewClaims.
Import Preview PreviewViews PreviewFacts.

(** The state the effect hands to [loadFilePreview]. *)
Lemma effect_step p s :
  step s (RunEffect p) =
  set_mounted true (loadFilePreview p (if mounted s then cleanup s else s)).
Proof. reflexivity. Qed.

Lemma before_load_facts s :
  let s0 := if mounted s then cleanup s else s in
  fetches s0 = fetches s /\ next_controller s0 = next_controller s /\
  awaiting s0 = awaiting s /\
  (forall f, already_current f s0 = already_current f s).
Proof.
  cbv zeta. destruct (mounted s).
  - destruct (cleanup_refs s) as (_ & _ & _ & _ & _ & _ & Ew & _ & Ef).
    split; [exact Ef |]. split; [apply cleanup_next_controller |].
    split; [exact Ew |]. intros f. apply already_current_cleanup.
  - repeat split; reflexivity.
Qed.

(** C3 (at the failing input).  For a 1000-byte [application/xml] file,
    opened with a credential, the loader fetches nothing and leaves no
    preview URL and no error -- the "no preview" state -- although the
    renderer of the same component counts [application/xml] as text; the
    same descriptor with [application/json] is fetched. *)
Theorem C3_xml_is_not_fetched :
  let s := step init (RunEffect (props_of xml_file (Some "jwt") false)) in
  isText (mime_type xml_file) = true /\
  isTextFile (mime_type xml_file) = false /\
  fetches s = [] /\ awaiting s = [] /\
  previewUrl s = None /\ error s = None /\ loading s = false /\
  fetches (step init (RunEffect (props_of
             (mkFileItem "file-1" "feed.json" "application/json" 1000 None)
             (Some "jwt") false))) =
  [Fetch "http://localhost:8080/api/v1/files/file-1/download" (Some "Bearer jwt") 0%nat].
Proof. vm_compute. repeat split; reflexivity. Qed.

(** ** Resolving the file of the session in place *)

Lemma already_current_id f f' s :
  id f' = id f -> already_current f' s = already_current f s.
Proof. intros E. unfold already_current. rewrite E. reflexivity. Qed.

Lemma rerun_same_file p f s :
  file p = Some f -> isOpen p = true -> already_current f s = true ->
  fetches (step s (RunEffect p)) = fetches s /\
  already_current f (step s (RunEffect p)) = true.
Proof.
  intros Hf Ho Hg. rewrite effect_step.
  destruct (before_load_facts s) as (Ef & _ & _ & Ec). cbv zeta in *.
  rewrite (load_guarded p f _ Hf Ho) by (rewrite Ec; exact Hg).
  split.
  - exact Ef.
  - change (already_current f (if mounted s then cleanup s else s) = true).
    rewrite Ec. exact Hg.
Qed.

Lemma reruns_same_file f qs : forall s,
  already_current f s = true ->
  Forall (fun q => exists f', file q = Some f' /\ isOpen q = true /\ id f' = id f) qs ->
  fetches (run s (map RunEffect qs)) = fetches s.
Proof.
  induction qs as [| q qs IH]; intros s Hg F; [reflexivity |].
  inversion F as [| ? ? (f' & Hf & Ho & Hi) F']; subst.
  cbn [map run fold_left]. fold (run (step s (RunEffect q)) (map RunEffect qs)).
  destruct (rerun_same_file q f' s Hf Ho) as [Ef Eg].
  { rewrite (already_current_id f f' s Hi). exact Hg. }
  rewrite IH; [exact Ef | | exact F'].
  rewrite <- (already_current_id f f' _ Hi). exact Eg.
Qed.

Lemma first_resolve p f :
  file p = Some f -> isOpen p = true -> fetchable p f = true ->
  fetches (step init (RunEffect p)) = [Fetch (downloadUrl p f) (headers p f) 0%nat] /\
  already_current f (step init (RunEffect p)) = true.
Proof.
  intros Hf Ho Hfe. rewrite effect_step. cbn [mounted init].
  rewrite (load_fetch p f init) by (repeat split; assumption).
  cbv zeta. split.
  - reflexivity.
  - unfold already_current. cbn. rewrite String.eqb_refl. reflexivity.
Qed.

(** X20.  A re-run of the effect for the file id of the session in place,
    while that session is in flight or resolved, issues no fetch and leaves
    the same-file guard up; one resolve followed by any number of re-runs
    for its file id therefore logs exactly one fetch. *)
Theorem X20_same_file_rerun_fetches_nothing :
  (forall p f s, file p = Some f -> isOpen p = true -> already_current f s = true ->
      fetches (step s (RunEffect p)) = fetches s /\
      already_current f (step s (RunEffect p)) = true)
  /\ (forall p f qs,
        file p = Some f -> isOpen p = true -> fetchable p f = true ->
        Forall (fun q => exists f', file q = Some f' /\ isOpen q = true /\ id f' = id f) qs ->
        fetches (run init (RunEffect p :: map RunEffect qs)) =
        [Fetch (downloadUrl p f) (headers p f) 0%nat]).
Proof.
  split.
  - intros p f s. apply rerun_same_file.
  - intros p f qs Hf Ho Hfe F.
    destruct (first_resolve p f Hf Ho Hfe) as [E G].
    cbn [run fold_left]. fold (run (step init (RunEffect p)) (map RunEffect qs)).
    rewrite (reruns_same_file f qs _ G F). exact E.
Qed.

Lemma X20_witness :
  let p := props_of private_image (Some "jwt") false in
  (file p = Some private_image /\ isOpen p = true /\ fetchable p private_image = true /\
   Forall (fun q => exists f', file q = Some f' /\ isOpen q = true /\
                               id f' = id private_image) [p])
  /\ fetches (run init [RunEffect p; RunEffect p]) =
     [Fetch (downloadUrl p private_image) (headers p private_image) 0%nat].
Proof.
  intros p.
  assert (F : Forall (fun q => exists f', file q = Some f' /\ isOpen q = true /\
                                          id f' = id private_image) [p]).
  { constructor; [| constructor]. exists private_image. repeat split; reflexivity. }
  split.
  - split; [reflexivity |]. split; [reflexivity |]. split; [reflexivity | exact F].
  - apply (proj2 X20_same_file_rerun_fetches_nothing p private_image [p]
             eq_refl eq_refl eq_refl F).
Defined.

(** C4 (at the failing input).  An image is being resolved with one
    credential and the effect runs again for the same file id with another
    while the request is in flight.  The second resolve issues no fetch --
    one fetch is logged, as specified -- but it is no no-op: the
    cleanup that precedes it aborts the request in flight and the same-file
    guard then returns without starting another.  Whether the response
    arrives all the same, the fetch rejects or the timeout fires, the
    aborted call returns at its first test of the signal: no object URL is
    created, the loading flag stays up and the preview area shows the
    spinner, where the single resolve ends in the image viewer.  When the
    session is already resolved, the second resolve issues no fetch either
    and revokes the object URL the preview state keeps. *)
Theorem C4_second_resolve_aborts_the_first :
  let p := props_of private_image (Some "jwt") false in
  let p' := props_of private_image (Some "jwt-2") false in
  let settle := [FetchSettled 0%nat (Response 200 "OK"); BlobSettled 0%nat BlobOk] in
  let s1 := step init (RunEffect p) in
  let s2 := step s1 (RunEffect p') in
  let r1 := run s1 settle in
  let r2 := step r1 (RunEffect p') in
  (* one resolve, to its end *)
  (fetches s1 =
     [Fetch "http://localhost:8080/api/v1/files/file-4/download" (Some "Bearer jwt") 0%nat]
   /\ awaiting s1 = [(0%nat, AwaitRace)] /\ is_aborted 0%nat s1 = false
   /\ loading r1 = false /\ previewUrl r1 = Some 0%nat /\ live r1 = [0%nat]
   /\ Render.renderPreview private_image r1 = Render.ImageView 0%nat)
  (* the second resolve, the first in flight *)
  /\ (same_file_rerun p' s1 /\ already_current private_image s1 = true
      /\ fetches s2 = fetches s1
      /\ log s2 = (log s1 ++ [Abort 0%nat])%list
      /\ is_aborted 0%nat s2 = true /\ abortController s2 = None /\ s2 <> s1)
  (* however the request settles *)
  /\ Forall (fun evs =>
               let s := run s2 evs in
               loading s = true /\ error s = None /\ previewUrl s = None /\ live s = []
               /\ awaiting s = [] /\ fetches s = fetches s1
               /\ Render.renderPreview private_image s = Render.Spinner)
       [settle;
        [FetchSettled 0%nat (FetchRejected "The user aborted a request.")];
        [TimerFired 0%nat; FetchSettled 0%nat (Response 200 "OK")];
        [FetchSettled 0%nat (Response 200 "OK"); BlobSettled 0%nat BlobOk;
         RunEffect p'; RunEffect p]]
  (* the second resolve, the first resolved *)
  /\ (same_file_rerun p' r1 /\ already_current private_image r1 = true
      /\ fetches r2 = fetches r1
      /\ revocations 0%nat r1 = 0%nat /\ revocations 0%nat r2 = 1%nat /\ live r2 = []
      /\ previewUrl r2 = Some 0%nat /\ r2 <> r1).
Proof.
  cbv zeta. split; [| split; [| split]].
  - vm_compute. repeat split; reflexivity.
  - split.
    { split; [reflexivity |]. exists private_image. split; reflexivity. }
    split; [vm_compute; reflexivity |]. split; [vm_compute; reflexivity |].
    split; [vm_compute; reflexivity |]. split; [vm_compute; reflexivity |].
    split; [vm_compute; reflexivity |].
    intros E. apply (f_equal aborted) in E. vm_compute in E. discriminate E.
  - repeat (apply Forall_cons; [vm_compute; repeat split; reflexivity |]).
    apply Forall_nil.
  - split.
    { split; [reflexivity |]. exists private_image. split; reflexivity. }
    split; [vm_compute; reflexivity |]. split; [vm_compute; reflexivity |].
    split; [vm_compute; reflexivity |]. split; [vm_compute; reflexivity |].
    split; [vm_compute; reflexivity |]. split; [vm_compute; reflexivity |].
    intros E. apply (f_equal aborted) in E. vm_compute in E. discriminate E.
Qed.

Example two_concurrent_resolves :
  fetches (run init [RunEffect (props_of private_image (Some "jwt") false);
                     RunEffect (props_of private_image (Some "jwt") false)]) =
  [Fetch "http://localhost:8080/api/v1/files/file-4/download" (Some "Bearer jwt") 0%nat].
Proof. vm_compute. reflexivity. Qed.

(** ** Ceilings and the credential *)

Lemma before_load_Inv0 s :
  Inv s -> Inv0 (if mounted s then cleanup s else s).
Proof.
  intros [I0 _]. destruct (mounted s); [apply cleanup_Inv0 |]; exact I0.
Qed.

(** A resolve that stops at a [throw] before the fetch. *)
Lemma resolve_throws s p f m :
  Inv s -> fresh_resolve p f s ->
  (forall s0, fresh_resolve p f s0 ->
     loadFilePreview p s0 = throw (next_controller s0) m (start_request f s0)) ->
  let s' := step s (RunEffect p) in
  fetches s' = fetches s /\ awaiting s' = awaiting s /\
  previewUrl s' = None /\ loading s' = false /\ error s' = Some m.
Proof.
  intros I (Hf & Ho & Hg) L. cbv zeta. rewrite effect_step.
  destruct (before_load_facts s) as (Ef & En & Ew & Ec). cbv zeta in *.
  pose proof (before_load_Inv0 s I) as I0.
  remember (if mounted s then cleanup s else s) as s0 eqn:Hs0.
  assert (Fr : fresh_resolve p f s0).
  { split; [exact Hf |]. split; [exact Ho |]. rewrite Ec. exact Hg. }
  rewrite (L s0 Fr).
  pose proof (start_request_facts f s0 I0) as H0. cbv zeta in H0.
  destruct H0 as (_ & Fa & _ & _ & Ew0 & _).
  destruct (start_request_log f s0) as (Ef0 & _).
  rewrite (throw_live _ m _ Fa).
  split; [exact (eq_trans Ef0 Ef) |].
  split; [exact (eq_trans Ew0 Ew) |].
  repeat split; reflexivity.
Qed.

Lemma image_has_no_ceiling f :
  isImageFile (mime_type f) = true -> too_large f = None.
Proof.
  unfold too_large, isImageFile, isTextFile, isVideoFile, isPDFFile.
  destruct (mime_type f) as [| a m]; [discriminate |].
  cbn [String.prefix]. destruct (ascii_dec "i" a) as [<- |]; [| discriminate].
  intros _. reflexivity.
Qed.

(** C5 (as the code has it).  In every reachable state, a resolve for a
    file over the ceiling of its kind (text over 500,000 bytes, video over
    100,000,000, PDF over 50,000,000) issues no fetch and suspends no call;
    it ends in the too-large error state when the credential is present or
    the context is public, and in the authentication-required error state
    otherwise.  Images have no ceiling. *)
Theorem C5_too_large_short_circuits evs p f msg :
  let s := run init evs in
  fresh_resolve p f s -> too_large f = Some msg ->
  let s' := step s (RunEffect p) in
  fetches s' = fetches s /\ awaiting s' = awaiting s /\
  previewUrl s' = None /\ loading s' = false /\
  (auth_ok p = true -> error s' = Some msg) /\
  (auth_ok p = false -> error s' = Some "Authentication required for file preview") /\
  (forall g, isImageFile (mime_type g) = true -> too_large g = None).
Proof.
  intros s Fr Ht s'.
  pose proof (reachable_Inv evs : Inv s) as I.
  pose proof (too_large_previewable f msg Ht) as Hp.
  destruct (auth_ok p) eqn:Ha.
  - destruct (resolve_throws s p f msg I Fr) as (A & B & C & D & E).
    { intros s0 F0. apply load_too_large; assumption. }
    split; [exact A |]. split; [exact B |]. split; [exact C |]. split; [exact D |].
    split; [intros _; exact E |]. split; [discriminate |].
    exact image_has_no_ceiling.
  - destruct (resolve_throws s p f "Authentication required for file preview" I Fr)
      as (A & B & C & D & E).
    { intros s0 F0. apply load_auth_required; assumption. }
    split; [exact A |]. split; [exact B |]. split; [exact C |]. split; [exact D |].
    split; [discriminate |]. split; [intros _; exact E |].
    exact image_has_no_ceiling.
Qed.

Lemma C5_witness :
  let p := props_of big_text_file (Some "jwt") false in
  (fresh_resolve p big_text_file (run init []) /\
   too_large big_text_file = Some "Text file too large for preview (max 500KB)")
  /\ fetches (step (run init []) (RunEffect p)) = fetches (run init []).
Proof.
  intros p.
  assert (Fr : fresh_resolve p big_text_file (run init [])).
  { split; [reflexivity |]. split; reflexivity. }
  split; [split; [exact Fr | reflexivity] |].
  apply (C5_too_large_short_circuits [] p big_text_file
           "Text file too large for preview (max 500KB)" Fr eq_refl).
Defined.

(** C5 as stated fails: without a credential, outside a public context, a
    600,000-byte text file ends in the authentication-required state, not
    in the too-large state. *)
Lemma C5_counterexample :
  too_large big_text_file = Some "Text file too large for preview (max 500KB)" /\
  error (step init (RunEffect (props_of big_text_file None false))) =
    Some "Authentication required for file preview" /\
  fetches (step init (RunEffect (props_of big_text_file None false))) = [].
Proof. vm_compute. repeat split; reflexivity. Qed.

(** ** The endpoint of the fetch *)

Lemma resolve_fetches s p f :
  fresh_resolve p f s -> fetchable p f = true ->
  fetches (step s (RunEffect p)) =
  (fetches s ++ [Fetch (downloadUrl p f) (headers p f) (next_controller s)])%list.
Proof.
  intros (Hf & Ho & Hg) Hfe. rewrite effect_step.
  destruct (before_load_facts s) as (Ef & En & Ew & Ec). cbv zeta in *.
  remember (if mounted s then cleanup s else s) as s0 eqn:Hs0.
  rewrite (load_fetch p f s0) by (repeat split; try assumption; rewrite Ec; exact Hg).
  cbv zeta. destruct (start_request_log f s0) as (Ef0 & _).
  change (fetches (emit (Fetch (downloadUrl p f) (headers p f) (next_controller s0))
            (emit (SetTimeout (next_controller s0) (timeoutDuration f))
               (start_request f s0))) =
          (fetches s ++ [Fetch (downloadUrl p f) (headers p f) (next_controller s)])%list).
  rewrite !fetches_emit. cbn [is_fetch]. rewrite app_nil_r, Ef0, Ef, En. reflexivity.
Qed.

Lemma fetches_set_mounted b s : fetches (set_mounted b s) = fetches s.
Proof. reflexivity. Qed.

Lemma resolve_without_auth s p f :
  fresh_resolve p f s -> previewable f = true -> auth_ok p = false ->
  fetches (step s (RunEffect p)) = fetches s.
Proof.
  intros (Hf & Ho & Hg) Hp Ha. rewrite effect_step.
  destruct (before_load_facts s) as (Ef & En & Ew & Ec). cbv zeta in *.
  remember (if mounted s then cleanup s else s) as s0 eqn:Hs0.
  rewrite (load_auth_required p f s0)
    by (repeat split; try assumption; rewrite Ec; exact Hg).
  destruct (start_request_log f s0) as (Ef0 & _).
  rewrite fetches_set_mounted, (fetches_core _ _ (core_throw _ _ _)), Ef0. exact Ef.
Qed.

(** C6 (as the code has it).  A resolve that passes the tests before the
    fetch (previewable, credential present or public context, within the
    ceiling) issues one fetch.  For a file with an active share token it
    goes to [/p/{token}] without an Authorization header, whether or not a
    credential is present.  For a file without one it goes to
    [/files/{id}/download], with [Authorization: Bearer <credential>]
    outside a public context and without any header inside one.  Without a
    credential and outside a public context nothing is fetched, share
    token or not. *)
Theorem C6_endpoint_selection s p f :
  fresh_resolve p f s -> previewable f = true ->
  (fetchable p f = true ->
     fetches (step s (RunEffect p)) =
     (fetches s ++ [Fetch (downloadUrl p f) (headers p f) (next_controller s)])%list)
  /\ (hasPublicToken f = true ->
        exists l, share_link f = Some l /\ ShareLink.token l <> "" /\
                  ShareLink.is_active l = true /\
                  downloadUrl p f = restBaseUrl p ++ "/p/" ++ ShareLink.token l /\
                  headers p f = None)
  /\ (hasPublicToken f = false ->
        downloadUrl p f = restBaseUrl p ++ "/files/" ++ id f ++ "/download" /\
        headers p f =
          if isPublic p then None else Some ("Bearer " ++ interpolate (token p)))
  /\ (hasPublicToken f = false -> isPublic p = false -> auth_ok p = true ->
        exists tok, token p = Some tok /\ tok <> "" /\
                    headers p f = Some ("Bearer " ++ tok))
  /\ (auth_ok p = false -> fetches (step s (RunEffect p)) = fetches s).
Proof.
  intros Fr Hp. split; [| split; [| split; [| split]]].
  - intros Hfe. apply resolve_fetches; assumption.
  - intros Ht. unfold hasPublicToken in Ht.
    destruct (share_link f) as [l |] eqn:El; [| discriminate].
    apply andb_true_iff in Ht. destruct Ht as [T1 T2].
    exists l. split; [reflexivity |].
    split.
    { intros E. rewrite E in T1. discriminate. }
    split; [exact T2 |].
    unfold downloadUrl, headers, hasPublicToken. rewrite El, T1, T2.
    cbn [andb]. rewrite orb_true_r. split; reflexivity.
  - intros Ht. unfold downloadUrl, headers. rewrite Ht.
    rewrite orb_false_r. split; [destruct (share_link f) |]; reflexivity.
  - intros Ht Hpub Ha. unfold auth_ok in Ha. rewrite Hpub, orb_false_r in Ha.
    unfold truthy in Ha. destruct (token p) as [tok |] eqn:Et; [| discriminate].
    exists tok. split; [reflexivity |]. split.
    { intros E. rewrite E in Ha. discriminate. }
    unfold headers. rewrite Ht, Hpub, Et. reflexivity.
  - intros Ha. apply (resolve_without_auth s p f); assumption.
Qed.

Lemma C6_witness :
  let p := props_of shared_pdf (Some "jwt") false in
  (fresh_resolve p shared_pdf init /\ previewable shared_pdf = true /\
   fetchable p shared_pdf = true)
  /\ fetches (step init (RunEffect p)) =
     (fetches init ++
      [Fetch (downloadUrl p shared_pdf) (headers p shared_pdf) (next_controller init)])%list.
Proof.
  intros p.
  assert (Fr : fresh_resolve p shared_pdf init).
  { split; [reflexivity |]. split; reflexivity. }
  split; [split; [exact Fr | split; reflexivity] |].
  apply (proj1 (C6_endpoint_selection init p shared_pdf Fr eq_refl) eq_refl).
Defined.

Example shared_pdf_goes_public :
  fetches (step init (RunEffect (props_of shared_pdf (Some "jwt") false))) =
  [Fetch "http://localhost:8080/api/v1/p/tok123" None 0%nat].
Proof. vm_compute. reflexivity. Qed.

(** C6 as stated fails twice: in a public context a file without a share
    token is fetched from [/files/{id}/download] with no Authorization
    header although a credential is present; and a file with an active
    share token is not fetched at all when there is no credential and the
    context is not public. *)
Lemma C6_counterexample :
  hasPublicToken private_image = false /\
  fetches (step init (RunEffect (props_of private_image (Some "jwt") true))) =
    [Fetch "http://localhost:8080/api/v1/files/file-4/download" None 0%nat] /\
  hasPublicToken shared_pdf = true /\
  fetches (step init (RunEffect (props_of shared_pdf None false))) = [] /\
  error (step init (RunEffect (props_of shared_pdf None false))) =
    Some "Authentication required for file preview".
Proof. vm_compute. repeat split; reflexivity. Qed.

(** ** Object URLs *)

Lemma live_url_not_revoked s u :
  Inv s -> currentBlobUrl s = Some u -> revocations u s = 0%nat /\ creations u s = 1%nat.
Proof.
  intros [(P1 & P2 & _) _] Eu. destruct (P2 u) as [C1 C2].
  rewrite P1, Eu in C1. cbn [option_list filter] in C1. rewrite Nat.eqb_refl in C1.
  cbn [List.length] in C1. lia.
Qed.

(** The cleanup of the effect revokes the live URL, whatever makes the
    effect run again. *)
Lemma effect_revokes s u e :
  Inv s -> currentBlobUrl s = Some u ->
  (e = Unmount \/ exists p, e = RunEffect p) ->
  revocations u (step s e) = 1%nat /\ currentBlobUrl (step s e) = None /\
  live (step s e) = [].
Proof.
  intros I Eu He.
  pose proof (Inv_mounted_url s u I Eu) as Em.
  destruct (live_url_not_revoked s u I Eu) as [R0 _].
  assert (Rc : revocations u (cleanup s) = 1%nat).
  { rewrite cleanup_revocations, Eu, Nat.eqb_refl, R0. reflexivity. }
  assert (Cu : currentBlobUrl (step s e) = None).
  { destruct He as [-> | [p ->]]; cbn [step]; rewrite Em.
    - apply cleanup_clean.
    - apply (load_urls p (cleanup s) u), cleanup_clean. }
  split; [| split; [exact Cu |]].
  - destruct He as [-> | [p ->]]; cbn [step]; rewrite Em.
    + exact Rc.
    + change (revocations u (loadFilePreview p (cleanup s)) = 1%nat).
      destruct (load_urls p (cleanup s) u) as [-> _]; [apply cleanup_clean | exact Rc].
  - destruct (step_Inv s e I) as [(P1 & _) _]. rewrite P1, Cu. reflexivity.
Qed.

(** The settling of a fetch, of a timer or of a blob revokes nothing. *)
Lemma settling_keeps_url s u e :
  Inv s -> currentBlobUrl s = Some u ->
  (match e with FetchSettled _ _ | TimerFired _ | BlobSettled _ _ => True | _ => False end) ->
  revocations u (step s e) = 0%nat /\ currentBlobUrl (step s e) = Some u.
Proof.
  intros I Eu He. destruct (live_url_not_revoked s u I Eu) as [R0 _].
  assert (Th : forall c m,
             revocations u (throw c m (resume c s)) = 0%nat /\
             currentBlobUrl (throw c m (resume c s)) = Some u).
  { intros c m. pose proof (core_throw c m (resume c s)) as E.
    rewrite (revocations_core _ _ u E).
    destruct (core_fields _ _ E) as (-> & _). auto. }
  destruct e as [p | | c r | c | c r]; try contradiction; cbn [step].
  - destruct (is_awaiting c AwaitRace s); [| auto].
    unfold after_fetch. destruct r as [st txt | msg]; [| apply Th].
    destruct (is_aborted c (resume c s)); [auto |].
    destruct (is_2xx st); [auto | apply Th].
  - destruct (is_awaiting c AwaitRace s && negb (is_aborted c s))%bool; [apply Th | auto].
  - destruct (is_awaiting c AwaitBlob s) eqn:Aw; [| auto].
    unfold after_blob. destruct r as [| msg]; [| apply Th].
    change (is_aborted c (resume c s)) with (is_aborted c s).
    destruct (is_aborted c s) eqn:Ha; [auto |]. exfalso.
    apply is_awaiting_In in Aw. destruct I as [(_ & _ & _ & P4 & _) _].
    destruct (P4 c AwaitBlob Aw Ha) as [_ E]. rewrite Eu in E. discriminate.
Qed.

Lemma is_awaiting_last c a l s :
  awaiting s = (l ++ [(c, a)])%list -> is_awaiting c a s = true.
Proof.
  intros E. unfold is_awaiting. rewrite E, existsb_app. cbn [existsb fst snd].
  rewrite Nat.eqb_refl. destruct a; cbn; apply orb_true_r.
Qed.

Lemma fetch_ok_step s c st txt :
  is_awaiting c AwaitRace s = true -> is_aborted c s = false -> is_2xx st = true ->
  step s (FetchSettled c (Response st txt)) =
  set_awaiting (awaiting (resume c s) ++ [(c, AwaitBlob)])%list (resume c s).
Proof.
  intros Aw Ha H2. cbn [step]. rewrite Aw. unfold after_fetch.
  change (is_aborted c (resume c s)) with (is_aborted c s). rewrite Ha, H2. reflexivity.
Qed.

Lemma blob_ok_step s c :
  Inv0 s -> is_awaiting c AwaitBlob s = true -> is_aborted c s = false ->
  step s (BlobSettled c BlobOk) =
  set_loadingRef false (set_loading false
    (set_previewUrl (Some (next_url s))
       (set_previewUrlRef (Some (next_url s))
          (set_currentBlobUrl (Some (next_url s))
             (set_next_url (S (next_url s))
                (emit (CreateObjectURL (next_url s)) (resume c s))))))).
Proof.
  intros I Aw Ha. cbn [step]. rewrite Aw.
  destruct (after_blob_ok c s I (is_awaiting_In _ _ _ Aw) Ha) as (_ & _ & ->).
  unfold finally_block.
  change (is_aborted c (set_previewUrl (Some (next_url s))
            (set_previewUrlRef (Some (next_url s))
               (set_currentBlobUrl (Some (next_url s))
                  (set_next_url (S (next_url s))
                     (emit (CreateObjectURL (next_url s)) (resume c s)))))))
    with (is_aborted c s).
  rewrite Ha. reflexivity.
Qed.

(** A resolve whose fetch and blob succeed. *)
Lemma resolve_completes s p f st txt :
  Inv s -> fresh_resolve p f s -> fetchable p f = true -> is_2xx st = true ->
  let c := next_controller s in
  let s' := run s [RunEffect p; FetchSettled c (Response st txt); BlobSettled c BlobOk] in
  currentBlobUrl s' = Some (next_url s) /\
  previewUrl s' = Some (next_url s) /\
  currentFileId s' = Some (id f) /\
  next_url s' = S (next_url s) /\
  next_controller s' = S c /\
  loading s' = false /\
  (forall u, revocations u s' =
             (revocations u s +
              match currentBlobUrl s with
              | Some v => if Nat.eqb v u then 1 else 0
              | None => 0
              end)%nat).
Proof.
  intros I (Hf & Ho & Hg) Hfe H2. cbv zeta.
  cbn [run fold_left].
  set (c := next_controller s).
  pose proof (step_Inv s (RunEffect p) I) as I1.
  (* the effect *)
  destruct (before_load_facts s) as (Ef & En & Ew & Ec). cbv zeta in *.
  pose proof (before_load_Inv0 s I) as I0.
  assert (R0 : forall u, revocations u (if mounted s then cleanup s else s) =
                 (revocations u s +
                  match currentBlobUrl s with
                  | Some v => if Nat.eqb v u then 1 else 0
                  | None => 0
                  end)%nat).
  { intros u. destruct (mounted s) eqn:Em; [apply cleanup_revocations |].
    destruct I as [_ M]. destruct (M Em) as [-> _]. lia. }
  assert (N0 : next_url (if mounted s then cleanup s else s) = next_url s).
  { destruct (mounted s); [apply cleanup_refs | reflexivity]. }
  revert I1. rewrite effect_step.
  remember (if mounted s then cleanup s else s) as s0 eqn:Hs0.
  rewrite (load_fetch p f s0) by (repeat split; try assumption; rewrite Ec; exact Hg).
  cbv zeta. rewrite En. fold c.
  pose proof (start_request_facts f s0 I0) as H0. cbv zeta in H0.
  rewrite En in H0. fold c in H0.
  destruct (start_request_log f s0) as (_ & Rv & _ & Nu & Ei & _).
  remember (start_request f s0) as sr eqn:Hsr.
  destruct H0 as (_ & Fa & _ & _ & Ewr & Enr).
  set (s1 := set_mounted true _). intros I1.
  (* the fetch settles *)
  assert (Aw1 : is_awaiting c AwaitRace s1 = true).
  { apply (is_awaiting_last c AwaitRace (awaiting sr)). reflexivity. }
  assert (Ha1 : is_aborted c s1 = false) by exact Fa.
  rewrite (fetch_ok_step s1 c st txt Aw1 Ha1 H2).
  pose proof (step_Inv s1 (FetchSettled c (Response st txt)) I1) as I2.
  rewrite (fetch_ok_step s1 c st txt Aw1 Ha1 H2) in I2.
  set (s2 := set_awaiting _ (resume c s1)) in *.
  (* the blob settles *)
  assert (Aw2 : is_awaiting c AwaitBlob s2 = true).
  { apply (is_awaiting_last c AwaitBlob (awaiting (resume c s1))). reflexivity. }
  assert (Ha2 : is_aborted c s2 = false) by exact Fa.
  rewrite (blob_ok_step s2 c (proj1 I2) Aw2 Ha2).
  assert (Nu2 : next_url s2 = next_url s).
  { change (next_url sr = next_url s). rewrite Nu. exact N0. }
  rewrite Nu2.
  split; [reflexivity |]. split; [reflexivity |].
  split; [exact Ei |]. split; [reflexivity |]. split; [exact Enr |].
  split; [reflexivity |].
  intros u. rewrite <- R0, <- Rv.
  unfold revocations. cbn [log set_loadingRef set_loading set_previewUrl
    set_previewUrlRef set_currentBlobUrl set_next_url emit set_log resume
    set_awaiting set_mounted s2 s1].
  rewrite !filter_app, !length_app. cbn [filter List.length]. lia.
Qed.

Lemma fresh_at_init p f :
  file p = Some f -> isOpen p = true -> fresh_resolve p f init.
Proof. intros Hf Ho. split; [exact Hf |]. split; [exact Ho | reflexivity]. Qed.

(** Resolve A to the end, then resolve B to the end. *)
Lemma resolve_A_then_B pA fA pB fB st txt st' txt' :
  file pA = Some fA -> isOpen pA = true -> fetchable pA fA = true ->
  file pB = Some fB -> isOpen pB = true -> fetchable pB fB = true ->
  id fA <> id fB -> is_2xx st = true -> is_2xx st' = true ->
  let sA := run init [RunEffect pA; FetchSettled 0%nat (Response st txt);
                      BlobSettled 0%nat BlobOk] in
  let sB := run sA [RunEffect pB; FetchSettled 1%nat (Response st' txt');
                    BlobSettled 1%nat BlobOk] in
  currentBlobUrl sA = Some 0%nat /\ live sA = [0%nat] /\
  revocations 0%nat sB = 1%nat /\ revocations 1%nat sB = 0%nat /\
  live sB = [1%nat] /\ previewUrl sB = Some 1%nat.
Proof.
  intros HfA HoA HeA HfB HoB HeB Hne H2 H2'. cbv zeta.
  pose proof (resolve_completes init pA fA st txt Inv_init
                (fresh_at_init pA fA HfA HoA) HeA H2) as HA.
  cbv zeta in HA. change (next_controller init) with 0%nat in HA.
  change (next_url init) with 0%nat in HA.
  set (sA := run init [RunEffect pA; FetchSettled 0%nat (Response st txt);
                       BlobSettled 0%nat BlobOk]) in *.
  destruct HA as (Cu & _ & Ci & Nu & Nc & _ & Rv).
  assert (IA : Inv sA) by apply reachable_Inv.
  assert (FrB : fresh_resolve pB fB sA).
  { split; [exact HfB |]. split; [exact HoB |]. unfold already_current. rewrite Ci.
    apply String.eqb_neq in Hne. rewrite Hne. reflexivity. }
  pose proof (resolve_completes sA pB fB st' txt' IA FrB HeB H2') as HB.
  cbv zeta in HB. rewrite Nc, Nu, Cu in HB.
  set (sB := run sA [RunEffect pB; FetchSettled 1%nat (Response st' txt');
                     BlobSettled 1%nat BlobOk]) in *.
  destruct HB as (CuB & PvB & _ & _ & _ & _ & RvB).
  assert (IB : Inv sB) by (apply run_Inv; exact IA).
  split; [exact Cu |].
  split; [destruct IA as [(P1 & _) _]; rewrite P1, Cu; reflexivity |].
  split; [rewrite RvB, Rv; reflexivity |].
  split; [rewrite RvB, Rv; reflexivity |].
  split; [destruct IB as [(P1 & _) _]; rewrite P1, CuB; reflexivity | exact PvB].
Qed.

(** X19.  Along every trace of a consumer no object URL is revoked more
    often than it was created, none is created twice, and the live URLs are
    exactly the one the ref holds (at most one).  The URL in the ref, never
    revoked so far, is revoked by the cleanup of the next run of the effect
    or of the unmount -- whatever makes the effect run again: a resolve for
    another file id, a close, or a re-run for the same file -- and after
    that step no URL is live; the settling of a fetch, of a timer or of a
    blob revokes nothing.  Resolving A and then B (A <> B), each to its
    end, leaves A's URL revoked exactly once and exactly one live URL,
    B's. *)
Theorem X19_object_urls_revoked_at_most_once :
  (forall evs,
      (forall u, (revocations u (run init evs) <= creations u (run init evs) <= 1)%nat) /\
      live (run init evs) = option_list (currentBlobUrl (run init evs)))
  /\ (forall evs u e,
        currentBlobUrl (run init evs) = Some u ->
        (e = Unmount \/ exists p, e = RunEffect p) ->
        revocations u (run init evs) = 0%nat /\
        revocations u (step (run init evs) e) = 1%nat /\
        live (step (run init evs) e) = [])
  /\ (forall evs u e,
        currentBlobUrl (run init evs) = Some u ->
        (match e with
         | FetchSettled _ _ | TimerFired _ | BlobSettled _ _ => True
         | _ => False
         end) ->
        revocations u (step (run init evs) e) = 0%nat /\
        currentBlobUrl (step (run init evs) e) = Some u)
  /\ (forall pA fA pB fB st txt st' txt',
        file pA = Some fA -> isOpen pA = true -> fetchable pA fA = true ->
        file pB = Some fB -> isOpen pB = true -> fetchable pB fB = true ->
        id fA <> id fB -> is_2xx st = true -> is_2xx st' = true ->
        let sA := run init [RunEffect pA; FetchSettled 0%nat (Response st txt);
                            BlobSettled 0%nat BlobOk] in
        let sB := run sA [RunEffect pB; FetchSettled 1%nat (Response st' txt');
                          BlobSettled 1%nat BlobOk] in
        currentBlobUrl sA = Some 0%nat /\ live sA = [0%nat] /\
        revocations 0%nat sB = 1%nat /\ revocations 1%nat sB = 0%nat /\
        live sB = [1%nat] /\ previewUrl sB = Some 1%nat).
Proof.
  split; [| split; [| split]].
  - intros evs. apply Inv_once, reachable_Inv.
  - intros evs u e Eu He.
    split; [apply (live_url_not_revoked _ u (reachable_Inv evs) Eu) |].
    destruct (effect_revokes _ u e (reachable_Inv evs) Eu He) as (A & _ & B). auto.
  - intros evs u e Eu He. apply settling_keeps_url; [apply reachable_Inv | | ]; assumption.
  - apply resolve_A_then_B.
Qed.

Lemma X19_witness :
  let pA := props_of private_image (Some "jwt") false in
  let pB := props_of shared_pdf (Some "jwt") false in
  (file pA = Some private_image /\ isOpen pA = true /\ fetchable pA private_image = true /\
   file pB = Some shared_pdf /\ isOpen pB = true /\ fetchable pB shared_pdf = true /\
   id private_image <> id shared_pdf /\ is_2xx 200 = true)
  /\ let sB := run (run init [RunEffect pA; FetchSettled 0%nat (Response 200 "OK");
                              BlobSettled 0%nat BlobOk])
                   [RunEffect pB; FetchSettled 1%nat (Response 200 "OK");
                    BlobSettled 1%nat BlobOk] in
     revocations 0%nat sB = 1%nat /\ live sB = [1%nat].
Proof.
  intros pA pB.
  assert (N : id private_image <> id shared_pdf) by discriminate.
  split.
  - repeat split; try reflexivity. exact N.
  - destruct (proj2 (proj2 (proj2 X19_object_urls_revoked_at_most_once))
                pA private_image pB shared_pdf 200 "OK" 200 "OK"
                eq_refl eq_refl eq_refl eq_refl eq_refl eq_refl N eq_refl eq_refl)
      as (_ & _ & R & _ & L & _).
    split; [exact R | exact L].
Defined.

(** C2 (at the failing input).  The session of an image is resolved: its
    object URL is live, never revoked, held by the ref and by the preview
    state, and the image viewer shows it.  The effect then runs again for
    the same file with another credential -- no resolve for another file
    id, no close, no unmount.  The cleanup revokes the URL and empties the
    ref, the same-file guard returns before anything is fetched, and the
    preview state keeps the URL: the image viewer is still given it, with
    no live URL left and no request to replace it, however often the effect
    re-runs for that file.  A close at the same point revokes the URL and
    takes it out of the preview state as well. *)
Theorem C2_rerun_revokes_the_url_on_display :
  let p := props_of private_image (Some "jwt") false in
  let p' := props_of private_image (Some "jwt-2") false in
  let s3 := run init [RunEffect p; FetchSettled 0%nat (Response 200 "OK");
                      BlobSettled 0%nat BlobOk] in
  let e := RunEffect p' in
  let s4 := step s3 e in
  let closed := step s3 (RunEffect (mkProps (Some private_image) false (Some "jwt") false None)) in
  (* resolved *)
  (currentBlobUrl s3 = Some 0%nat /\ previewUrlRef s3 = Some 0%nat
   /\ previewUrl s3 = Some 0%nat /\ creations 0%nat s3 = 1%nat
   /\ revocations 0%nat s3 = 0%nat /\ live s3 = [0%nat]
   /\ Render.render p s3 = Some (Render.ImageView 0%nat))
  (* the event is none of the three occasions *)
  /\ (same_file_rerun p' s3 /\ ~ disposes e s3)
  (* the URL is revoked there and then *)
  /\ (log s4 = (log s3 ++ [Abort 0%nat; RevokeObjectURL 0%nat])%list
      /\ revocations 0%nat s4 = 1%nat /\ live s4 = [] /\ currentBlobUrl s4 = None)
  (* and stays on display *)
  /\ (previewUrlRef s4 = Some 0%nat /\ previewUrl s4 = Some 0%nat
      /\ loading s4 = false /\ error s4 = None /\ awaiting s4 = []
      /\ fetches s4 = fetches s3
      /\ Render.render p' s4 = Some (Render.ImageView 0%nat))
  /\ Forall (fun evs =>
               let s := run s4 evs in
               live s = [] /\ fetches s = fetches s3 /\
               Render.render p s = Some (Render.ImageView 0%nat))
       [[e]; [RunEffect p]; [e; RunEffect p; e]]
  (* a close at the same point *)
  /\ (revocations 0%nat closed = 1%nat /\ live closed = []
      /\ previewUrlRef closed = None /\ previewUrl closed = None).
Proof.
  cbv zeta. split; [| split; [| split; [| split; [| split]]]].
  - vm_compute. repeat split; reflexivity.
  - split.
    + split; [reflexivity |]. exists private_image. split; reflexivity.
    + intros H. apply H. vm_compute. reflexivity.
  - vm_compute. repeat split; reflexivity.
  - vm_compute. repeat split; reflexivity.
  - repeat (apply Forall_cons; [vm_compute; repeat split; reflexivity |]).
    apply Forall_nil.
  - vm_compute. repeat split; reflexivity.
Qed.

Example supersede_in_flight :
  let s := run init [RunEffect (props_of private_image (Some "jwt") false);
                     RunEffect (props_of shared_pdf (Some "jwt") false);
                     FetchSettled 0%nat (FetchRejected "The user aborted a request.");
                     FetchSettled 1%nat (Response 200 "OK");
                     BlobSettled 1%nat BlobOk] in
  live s = [0%nat] /\ revocations 0%nat s = 0%nat /\ creations 0%nat s = 1%nat /\
  aborted s = [0%nat] /\ error s = None /\ previewUrl s = Some 0%nat /\
  List.length (fetches s) = 2%nat.
Proof. vm_compute. repeat split; reflexivity. Qed.

End PreviewClaims.

(* ===================================================================== *)
(** * UploadButton: accounts of the calls, and the end of a task          *)
(* ===================================================================== *)

Module UploadExtras.
Import Upload UploadViews UploadAccounts UploadFacts.

(** ** The log after each continuation *)

Lemma log_catch uid f m s :
  log (uploadFile_catch uid f m s) = (log s ++ [failure_toast f m])%list.
Proof. reflexivity. Qed.

Lemma log_success p uid f s :
  log (uploadFile_success p uid f s) = (log s ++ success_calls p uid f)%list.
Proof.
  unfold uploadFile_success, success_calls. destruct (onUploadComplete p); cbn [log emit set_timers];
    rewrite <- ?app_assoc; reflexivity.
Qed.

(** What a settled upload request adds to the log and to the suspended
    calls: the toast of the failure; or the three calls of the success; or
    the move request and the call that waits for it. *)
Lemma after_xhr_log c o s :
  let s' := uploadFile_after_xhr c o s in
  (exists m, log s' = (log s ++ [failure_toast (p_file c) m])%list /\
             pending s' = pending s)
  \/ (log s' = (log s ++ success_calls (p_props c) (p_uploadId c) (p_file c))%list /\
      pending s' = pending s)
  \/ (exists url auth folder,
        log s' = (log s ++ [FetchMove (p_uploadId c) "PATCH" url auth folder])%list /\
        pending s' =
        (pending s ++ [mkPending (p_uploadId c) (p_file c) (p_props c) AwaitMove])%list).
Proof.
  cbv zeta. unfold uploadFile_after_xhr.
  destruct (xhr_settle o) as [body | m].
  2:{ left. exists m. split; [apply log_catch | apply pending_catch]. }
  destruct (negb (truthy (folderId (p_props c)))).
  { right. left. rewrite log_success, pending_success; cbn [log pending setUploads]; split; reflexivity. }
  destruct body as [| | fid msg].
  - right. left. rewrite log_success, pending_success; cbn [log pending setUploads]; split; reflexivity.
  - left. eexists. rewrite log_catch, pending_catch. split; reflexivity.
  - destruct (truthy fid).
    + right. right. do 3 eexists. split; reflexivity.
    + right. left. rewrite log_success, pending_success; cbn [log pending setUploads]; split; reflexivity.
Qed.

Lemma after_move_log c o s :
  let s' := uploadFile_after_move c o s in
  pending s' = pending s /\
  ((exists m, log s' = (log s ++ [failure_toast (p_file c) m])%list)
   \/ log s' = (log s ++ success_calls (p_props c) (p_uploadId c) (p_file c))%list).
Proof.
  cbv zeta. unfold uploadFile_after_move.
  destruct o as [st txt body | m].
  - destruct (is_2xx st).
    + rewrite pending_success. rewrite log_success. split; [reflexivity | right; reflexivity].
    + destruct body; rewrite pending_catch; (split; [reflexivity |]);
        left; eexists; apply log_catch.
  - rewrite pending_catch. split; [reflexivity |]. left. eexists. apply log_catch.
Qed.

Lemma enqueue_one_log p s uid f :
  (truthy (token p) = false /\
   log (enqueue_one p s (uid, f)) =
     (log s ++ [AddToast toast_error "Authentication required for file upload"])%list /\
   pending (enqueue_one p s (uid, f)) = pending s)
  \/ (truthy (token p) = true /\
      (exists url auth tags,
         log (enqueue_one p s (uid, f)) =
           (log s ++ [XhrSend uid "POST" url auth 60000 f tags])%list) /\
      pending (enqueue_one p s (uid, f)) =
        (pending s ++ [mkPending uid f p AwaitXhr])%list).
Proof.
  unfold enqueue_one, uploadFile. destruct (truthy (token p)); cbn [negb].
  - right. split; [reflexivity |]. split; [| reflexivity]. do 3 eexists. reflexivity.
  - left. split; [reflexivity |]. split; reflexivity.
Qed.

(** A suspended call taken from the list. *)
Lemma take_pending_count K a l c rest (P : Pending -> bool) :
  take_pending K a l = Some (c, rest) ->
  List.length (filter P l) =
  (List.length (filter P rest) + if P c then 1 else 0)%nat /\
  List.length l = S (List.length rest).
Proof.
  intros TP. destruct (take_pending_some _ _ _ _ _ TP) as (_ & _ & l1 & l2 & -> & ->).
  rewrite !filter_app, !length_app. cbn [filter List.length].
  destruct (P c); cbn [List.length]; lia.
Qed.

Lemma upload_count_app (P : Effect -> bool) l1 l2 :
  List.length (filter P (l1 ++ l2)) =
  (List.length (filter P l1) + List.length (filter P l2))%nat.
Proof. rewrite filter_app, length_app. reflexivity. Qed.

Lemma upload_run_snoc s evs e : run s (evs ++ [e]) = step (run s evs) e.
Proof. unfold run. rewrite fold_left_app. reflexivity. Qed.

Lemma enqueued_snoc evs e :
  enqueued (evs ++ [e]) =
  (enqueued evs + match e with
                  | StartRealUpload _ files => List.length files
                  | _ => 0
                  end)%nat.
Proof.
  induction evs as [| e' evs IH]; cbn [app enqueued].
  - destruct e; cbn; lia.
  - destruct e'; rewrite ?IH; lia.
Qed.

(** ** Every call ends in one toast *)

Lemma startRealUpload_toasts p files : forall s,
  (toasts (startRealUpload p files s) + List.length (pending (startRealUpload p files s)) =
   toasts s + List.length (pending s) + List.length files)%nat.
Proof.
  unfold startRealUpload.
  induction files as [| [uid f] files IH]; intros s; cbn [fold_left List.length].
  - lia.
  - rewrite IH. unfold toasts.
    destruct (enqueue_one_log p s uid f) as [(_ & -> & ->) | (_ & (url & auth & tg & ->) & ->)];
      rewrite upload_count_app, ?length_app; cbn; lia.
Qed.

Lemma success_calls_toasts p uid f :
  List.length (filter is_toast (success_calls p uid f)) = 1%nat.
Proof. unfold success_calls. destruct (onUploadComplete p); reflexivity. Qed.

Lemma step_toasts s e :
  (toasts (step s e) + List.length (pending (step s e)) =
   toasts s + List.length (pending s)
   + match e with
     | StartRealUpload _ files => List.length files
     | _ => 0
     end)%nat.
Proof.
  destruct e as [p fs | u lc l t | u o | u o | u | u]; cbn [step].
  - apply startRealUpload_toasts.
  - destruct (take_pending u AwaitXhr (pending s)); [| lia].
    unfold onprogress, toasts. destruct lc; cbn [setUploads log pending]; lia.
  - destruct (take_pending u AwaitXhr (pending s)) as [[c rest] |] eqn:TP; [| lia].
    destruct (take_pending_count _ _ _ _ _ (fun _ => true) TP) as [_ L].
    unfold toasts.
    destruct (after_xhr_log c o (set_pending rest s))
      as [(m & -> & ->) | [(-> & ->) | (url & auth & fo & -> & ->)]];
      rewrite upload_count_app, ?length_app, ?success_calls_toasts;
      cbn [set_pending log pending filter is_toast failure_toast List.length]; lia.
  - destruct (take_pending u AwaitMove (pending s)) as [[c rest] |] eqn:TP; [| lia].
    destruct (take_pending_count _ _ _ _ _ (fun _ => true) TP) as [_ L].
    unfold toasts.
    destruct (after_move_log c o (set_pending rest s)) as [-> [(m & ->) | ->]];
      rewrite upload_count_app, ?success_calls_toasts;
      cbn [set_pending log pending filter is_toast failure_toast List.length]; lia.
  - unfold toasts, removeUpload.
    destruct (remove_first u (timers s)); cbn [setUploads set_timers log pending]; lia.
  - unfold toasts. cbn [removeUpload setUploads log pending]. lia.
Qed.

(** X1.  Along every trace of the upload component, the toasts shown plus
    the [uploadFile] calls still suspended number exactly the files handed
    to [startRealUpload]: each enqueued file is answered by exactly one
    toast, shown when its call ends and not before. *)
Theorem X1_one_toast_per_file evs :
  (toasts (run init evs) + List.length (pending (run init evs)) = enqueued evs)%nat.
Proof.
  induction evs as [| e evs IH] using rev_ind.
  - reflexivity.
  - rewrite upload_run_snoc, enqueued_snoc, step_toasts, IH. reflexivity.
Qed.

(** ** A move request follows its own upload request *)

Lemma success_calls_requests uid p u f :
  filter (is_move uid) (success_calls p u f) = [] /\
  filter (is_send uid) (success_calls p u f) = [].
Proof. unfold success_calls. destruct (onUploadComplete p); split; reflexivity. Qed.

Lemma startRealUpload_requests uid p files : forall s,
  requests_ok uid s -> requests_ok uid (startRealUpload p files s).
Proof.
  unfold startRealUpload.
  induction files as [| [u f] files IH]; intros s H; cbn [fold_left]; [exact H |].
  apply IH. unfold requests_ok, moves, sends, awaiting_xhr in *.
  destruct (enqueue_one_log p s u f) as [(_ & -> & ->) | (_ & (url & auth & tg & ->) & ->)];
    rewrite !upload_count_app, ?filter_app, ?length_app;
    cbn [filter is_move is_send List.length p_uploadId p_await andb];
    [lia |].
  rewrite Bool.andb_true_r. destruct (String.eqb u uid); cbn [List.length]; lia.
Qed.

Lemma step_requests uid s e : requests_ok uid s -> requests_ok uid (step s e).
Proof.
  intros H.
  destruct e as [p fs | u lc l t | u o | u o | u | u]; cbn [step].
  - apply startRealUpload_requests. exact H.
  - destruct (take_pending u AwaitXhr (pending s)); [| exact H].
    unfold onprogress. destruct lc; exact H.
  - destruct (take_pending u AwaitXhr (pending s)) as [[c rest] |] eqn:TP; [| exact H].
    destruct (take_pending_some _ _ _ _ _ TP) as (Hu & Ha & _).
    destruct (take_pending_count _ _ _ _ _
                (fun c => (String.eqb (p_uploadId c) uid
                           && match p_await c with
                              | AwaitXhr => true
                              | AwaitMove => false
                              end)%bool) TP) as [L _].
    rewrite Hu, Ha, Bool.andb_true_r in L.
    unfold requests_ok, moves, sends, awaiting_xhr in *.
    destruct (success_calls_requests uid (p_props c) (p_uploadId c) (p_file c)) as [Em Es].
    destruct (after_xhr_log c o (set_pending rest s))
      as [(m & -> & ->) | [(-> & ->) | (url & auth & fo & -> & ->)]];
      rewrite !upload_count_app, ?filter_app, ?length_app, ?Em, ?Es;
      cbn [set_pending log pending filter is_move is_send failure_toast List.length
           p_uploadId p_await andb];
      rewrite ?Bool.andb_false_r; cbn [List.length];
      try (rewrite Hu; destruct (String.eqb u uid); cbn [List.length]); lia.
  - destruct (take_pending u AwaitMove (pending s)) as [[c rest] |] eqn:TP; [| exact H].
    destruct (take_pending_some _ _ _ _ _ TP) as (Hu & Ha & _).
    destruct (take_pending_count _ _ _ _ _
                (fun c => (String.eqb (p_uploadId c) uid
                           && match p_await c with
                              | AwaitXhr => true
                              | AwaitMove => false
                              end)%bool) TP) as [L _].
    rewrite Ha, Bool.andb_false_r in L.
    unfold requests_ok, moves, sends, awaiting_xhr in *.
    destruct (success_calls_requests uid (p_props c) (p_uploadId c) (p_file c)) as [Em Es].
    destruct (after_move_log c o (set_pending rest s)) as [-> [(m & ->) | ->]];
      rewrite !upload_count_app, ?Em, ?Es;
      cbn [set_pending log pending filter is_move is_send failure_toast List.length]; lia.
  - unfold removeUpload. destruct (remove_first u (timers s)); exact H.
  - exact H.
Qed.

(** X2.  Along every trace and for every task id, the move requests
    issued for the task plus its calls still waiting for their upload
    request never exceed the upload requests issued for it: a move request
    is only ever issued by a call whose own upload request has settled, and
    at most one per upload request (no move without an upload, no second
    attempt). *)
Theorem X2_move_follows_upload evs uid :
  (moves uid (run init evs) + awaiting_xhr uid (run init evs)
   <= sends uid (run init evs))%nat.
Proof.
  change (requests_ok uid (run init evs)).
  induction evs as [| e evs IH] using rev_ind.
  - unfold requests_ok. cbn. lia.
  - rewrite upload_run_snoc. apply step_requests. exact IH.
Qed.

(** ** Removal is scheduled for the successes only *)

Lemma success_calls_timers p u f :
  List.length (filter is_removal_timer (success_calls p u f)) = 1%nat /\
  List.length (filter is_success_toast (success_calls p u f)) = 1%nat /\
  (List.length (filter is_refresh (success_calls p u f)) <= 1)%nat /\
  Forall (fun e => match e with SetTimeout _ ms => ms = 2000 | _ => True end)
    (success_calls p u f).
Proof.
  unfold success_calls.
  destruct (onUploadComplete p); cbn; repeat constructor.
Qed.

Lemma startRealUpload_timers p files : forall s,
  timers_ok s -> timers_ok (startRealUpload p files s).
Proof.
  unfold startRealUpload.
  induction files as [| [u f] files IH]; intros s H; cbn [fold_left]; [exact H |].
  apply IH. unfold timers_ok, removal_timers, success_toasts, refreshes in *.
  destruct H as (H1 & H2 & H3).
  destruct (enqueue_one_log p s u f) as [(_ & -> & _) | (_ & (url & auth & tg & ->) & _)];
    rewrite !upload_count_app; cbn [filter is_removal_timer is_success_toast is_refresh List.length];
    (split; [lia |]); (split; [lia |]);
    apply Forall_app; (split; [exact H3 |]); repeat constructor.
Qed.

Lemma timers_ok_app s s' l :
  log s' = (log s ++ l)%list ->
  List.length (filter is_removal_timer l) = List.length (filter is_success_toast l) ->
  (List.length (filter is_refresh l) <= List.length (filter is_success_toast l))%nat ->
  Forall (fun e => match e with SetTimeout _ ms => ms = 2000 | _ => True end) l ->
  timers_ok s -> timers_ok s'.
Proof.
  intros E A B C (H1 & H2 & H3).
  unfold timers_ok, removal_timers, success_toasts, refreshes. rewrite E, !upload_count_app.
  split; [unfold removal_timers, success_toasts in H1; lia |].
  split; [unfold refreshes, success_toasts in H2; lia |].
  apply Forall_app. split; assumption.
Qed.

Lemma timers_ok_same s s' : log s' = log s -> timers_ok s -> timers_ok s'.
Proof.
  intros E. apply (timers_ok_app s s' []); [rewrite E, app_nil_r | | |]; auto.
Qed.

Lemma timers_ok_success s s' p u f :
  log s' = (log s ++ success_calls p u f)%list -> timers_ok s -> timers_ok s'.
Proof.
  intros E. destruct (success_calls_timers p u f) as (A & B & C & D).
  apply (timers_ok_app s s' _ E); [lia | lia | exact D].
Qed.

Lemma timers_ok_one s s' e :
  log s' = (log s ++ [e])%list ->
  is_removal_timer e = false -> is_success_toast e = false -> is_refresh e = false ->
  timers_ok s -> timers_ok s'.
Proof.
  intros E A B C. apply (timers_ok_app s s' _ E); cbn [filter]; rewrite ?A, ?B, ?C; auto.
  constructor; [| constructor]. destruct e; try exact Logic.I. discriminate.
Qed.

Lemma step_timers s e : timers_ok s -> timers_ok (step s e).
Proof.
  intros H.
  destruct e as [p fs | u lc l t | u o | u o | u | u]; cbn [step].
  - apply startRealUpload_timers. exact H.
  - destruct (take_pending u AwaitXhr (pending s)); [| exact H].
    unfold onprogress. destruct lc; [| exact H]. eapply timers_ok_same; [| exact H].
    reflexivity.
  - destruct (take_pending u AwaitXhr (pending s)) as [[c rest] |] eqn:TP; [| exact H].
    destruct (after_xhr_log c o (set_pending rest s))
      as [(m & E & _) | [(E & _) | (url & auth & fo & E & _)]].
    + eapply timers_ok_one; [exact E | reflexivity .. | exact H].
    + eapply timers_ok_success; [exact E | exact H].
    + eapply timers_ok_one; [exact E | reflexivity .. | exact H].
  - destruct (take_pending u AwaitMove (pending s)) as [[c rest] |] eqn:TP; [| exact H].
    destruct (after_move_log c o (set_pending rest s)) as [_ [(m & E) | E]].
    + eapply timers_ok_one; [exact E | reflexivity .. | exact H].
    + eapply timers_ok_success; [exact E | exact H].
  - unfold removeUpload. destruct (remove_first u (timers s)); [| exact H].
    eapply timers_ok_same; [| exact H]. reflexivity.
  - eapply timers_ok_same; [| exact H]. reflexivity.
Qed.

(** X3.  Along every trace, the removal timers set are exactly as many as
    the success toasts shown, each of them for 2000 ms, and the refresh
    hook is called at most once per success toast: removal and refresh
    are scheduled when an upload ends in success and on no other occasion
    (no failure schedules the removal of its task). *)
Theorem X3_removal_scheduled_on_success_only evs :
  removal_timers (run init evs) = success_toasts (run init evs) /\
  (refreshes (run init evs) <= success_toasts (run init evs))%nat /\
  Forall (fun e => match e with SetTimeout _ ms => ms = 2000 | _ => True end)
    (log (run init evs)).
Proof.
  change (timers_ok (run init evs)).
  induction evs as [| e evs IH] using rev_ind.
  - unfold timers_ok. cbn. repeat split; try lia. constructor.
  - rewrite upload_run_snoc. apply step_timers. exact IH.
Qed.

(** ** A task taken off the list stays off *)

Lemma step_keeps_absent uid s e :
  never_enqueues uid [e] ->
  items_of uid s = [] -> items_of uid (step s e) = [].
Proof.
  intros N E.
  destruct (target e) as [K |] eqn:T.
  - destruct (String.eqb_spec uid K) as [-> | NE].
    + pose proof (step_frame s e K T) as F.
      (* the items of [K] are its part of the list *)
      assert (G : forall l, items_in K l = [] -> without K l = l).
      { induction l as [| x l IH]; [reflexivity |]. cbn [items_in without filter].
        fold (items_in K l). fold (without K l).
        destruct (String.eqb (id x) K); cbn [negb]; [discriminate |].
        intros Hl. rewrite IH; auto. }
      destruct e as [p fs | u lc l t | u o | u o | u | u]; cbn [target] in T;
        try discriminate; injection T as ->; cbn [step].
      * destruct (take_pending K AwaitXhr (pending s)); [| exact E].
        unfold onprogress. destruct lc; [| exact E].
        unfold items_of. cbn [setUploads uploads].
        change (items_in K (with_progress K (Js.percent l t) (uploads s)) = []).
        unfold with_progress. rewrite items_in_map_id_same by apply set_progress_id.
        change (items_in K (uploads s)) with (items_of K s). rewrite E. reflexivity.
      * destruct (take_pending K AwaitXhr (pending s)) as [[c rest] |] eqn:TP; [| exact E].
        destruct (take_pending_some _ _ _ _ _ TP) as (Hc & _).
        pose proof (after_xhr_shape c o (set_pending rest s)) as Sh. cbv zeta in Sh.
        rewrite Hc in Sh. cbn [set_pending uploads] in Sh.
        unfold items_of.
        change (items_in K (uploads (uploadFile_after_xhr c o (set_pending rest s))) = []).
        destruct Sh as [[-> _] | [[-> _] | [-> _]]];
          unfold with_status, with_completed;
          rewrite ?items_in_map_id_same
            by (first [apply set_status_id | apply set_completed_id]);
          change (items_in K (uploads s)) with (items_of K s); rewrite E; reflexivity.
      * destruct (take_pending K AwaitMove (pending s)) as [[c rest] |] eqn:TP; [| exact E].
        destruct (take_pending_some _ _ _ _ _ TP) as (Hc & _).
        pose proof (after_move_shape c o (set_pending rest s)) as Sh. cbv zeta in Sh.
        rewrite Hc in Sh. cbn [set_pending uploads] in Sh.
        unfold items_of.
        change (items_in K (uploads (uploadFile_after_move c o (set_pending rest s))) = []).
        destruct Sh as [[-> | ->] _]; [exact E |].
        unfold with_status. rewrite items_in_map_id_same by apply set_status_id.
        change (items_in K (uploads s)) with (items_of K s). rewrite E. reflexivity.
      * destruct (remove_first K (timers s)); [| exact E].
        apply items_in_without_same.
      * apply items_in_without_same.
    + rewrite (step_other_items s e K uid T NE). exact E.
  - destruct e; try discriminate. cbn [step].
    destruct (startRealUpload_other p files s uid) as [-> _]; [| exact E].
    apply (N p files). left. reflexivity.
Qed.

(** X4.  Once no item of an id is on the list (the user dismissed the
    task, or its removal timer fired), none comes back, whatever arrives
    later for that id -- progress events, the end of the request, the end
    of the move, timers -- as long as no new batch carries the id. *)
Theorem X4_removed_task_stays_removed uid evs : forall s,
  items_of uid s = [] -> never_enqueues uid evs ->
  items_of uid (run s evs) = [].
Proof.
  induction evs as [| e evs IH]; intros s E N; [exact E |].
  cbn [run fold_left]. apply IH.
  - apply step_keeps_absent; [| exact E].
    intros p files [H | []]. apply (N p files). left. exact H.
  - intros p files Hin. apply (N p files). right. exact Hin.
Qed.

Lemma X4_witness :
  (items_of "upload-1" (step (step init (StartRealUpload sample_props sample_batch))
                          (RemoveUpload "upload-1")) = [] /\
   never_enqueues "upload-1"
     [XhrProgress "upload-1" true 5 10;
      XhrDone "upload-1" (XhrLoad 200 "OK" (JsonValue (Some "f1") None))])
  /\ items_of "upload-1"
       (run (step (step init (StartRealUpload sample_props sample_batch))
                  (RemoveUpload "upload-1"))
            [XhrProgress "upload-1" true 5 10;
             XhrDone "upload-1" (XhrLoad 200 "OK" (JsonValue (Some "f1") None))]) = [].
Proof.
  assert (N : never_enqueues "upload-1"
     [XhrProgress "upload-1" true 5 10;
      XhrDone "upload-1" (XhrLoad 200 "OK" (JsonValue (Some "f1") None))]).
  { intros p files [H | [H | []]]; discriminate H. }
  split; [split; [reflexivity | exact N] |].
  apply X4_removed_task_stays_removed; [reflexivity | exact N].
Defined.

(** ** A failed task waits for the user *)

Lemma timers_catch uid f m s : timers (uploadFile_catch uid f m s) = timers s.
Proof. reflexivity. Qed.

Lemma timers_success p uid f s :
  timers (uploadFile_success p uid f s) = (timers s ++ [uid])%list.
Proof. unfold uploadFile_success. destruct (onUploadComplete p); reflexivity. Qed.

(** The three ways a settled upload request leaves the task. *)
Lemma after_xhr_cases c o s :
  let K := p_uploadId c in
  let s' := uploadFile_after_xhr c o s in
  ((uploads s' = with_status K error (uploads s) \/
    uploads s' = with_status K error (with_completed K (uploads s))) /\
   pending s' = pending s /\ timers s' = timers s)
  \/ (uploads s' = with_completed K (uploads s) /\
      pending s' = pending s /\ timers s' = (timers s ++ [K])%list)
  \/ (uploads s' = with_completed K (uploads s) /\
      pending s' = (pending s ++ [mkPending K (p_file c) (p_props c) AwaitMove])%list /\
      timers s' = timers s).
Proof.
  cbv zeta. unfold uploadFile_after_xhr.
  destruct (xhr_settle o) as [body | m].
  2:{ left. rewrite uploads_catch, pending_catch, timers_catch. auto. }
  destruct (negb (truthy (folderId (p_props c)))).
  { right. left. rewrite uploads_success, pending_success, timers_success. auto. }
  destruct body as [| | fid msg].
  - right. left. rewrite uploads_success, pending_success, timers_success. auto.
  - left. rewrite uploads_catch, pending_catch, timers_catch. auto.
  - destruct (truthy fid).
    + right. right. auto.
    + right. left. rewrite uploads_success, pending_success, timers_success. auto.
Qed.

Lemma after_move_cases c o s :
  let K := p_uploadId c in
  let s' := uploadFile_after_move c o s in
  pending s' = pending s /\
  ((uploads s' = with_status K error (uploads s) /\ timers s' = timers s)
   \/ (uploads s' = uploads s /\ timers s' = (timers s ++ [K])%list)).
Proof.
  cbv zeta. unfold uploadFile_after_move.
  destruct o as [st txt body | m].
  - destruct (is_2xx st).
    + rewrite uploads_success, pending_success, timers_success. auto.
    + destruct body; rewrite uploads_catch, pending_catch, timers_catch; auto.
  - rewrite uploads_catch, pending_catch, timers_catch. auto.
Qed.

Lemma timers_enqueue_one p s x : timers (enqueue_one p s x) = timers s.
Proof.
  destruct x as [u f]. unfold enqueue_one, uploadFile.
  destruct (negb (truthy (token p))); reflexivity.
Qed.

Lemma timers_startRealUpload p files : forall s,
  timers (startRealUpload p files s) = timers s.
Proof.
  unfold startRealUpload.
  induction files as [| x files IH]; intros s; cbn [fold_left]; [reflexivity |].
  rewrite IH. apply timers_enqueue_one.
Qed.

Lemma remove_first_In x l rest y :
  remove_first x l = Some rest -> In y rest -> In y l.
Proof.
  revert rest. induction l as [| z l IH]; intros rest E Hy; [discriminate |].
  cbn [remove_first] in E. destruct (String.eqb z x).
  - injection E as <-. right. exact Hy.
  - destruct (remove_first x l) as [r |]; [| discriminate]. injection E as <-.
    destruct Hy as [<- | Hy]; [left; reflexivity | right; eapply IH; eauto].
Qed.

(** An event of another task sets no timer for [uid]. *)
Lemma step_other_timers s e K uid :
  target e = Some K -> uid <> K -> In uid (timers (step s e)) -> In uid (timers s).
Proof.
  intros T NE.
  assert (A : forall l, In uid (l ++ [K])%list -> In uid l).
  { intros l H. apply in_app_or in H. destruct H as [H | [H | []]]; [exact H |].
    congruence. }
  destruct e as [p fs | u lc l t | u o | u o | u | u]; cbn [target] in T;
    try discriminate; injection T as ->; cbn [step].
  - destruct (take_pending K AwaitXhr (pending s)); [| auto].
    unfold onprogress. destruct lc; auto.
  - destruct (take_pending K AwaitXhr (pending s)) as [[c rest] |] eqn:TP; [| auto].
    destruct (take_pending_some _ _ _ _ _ TP) as (Hc & _).
    pose proof (after_xhr_cases c o (set_pending rest s)) as Sh. cbv zeta in Sh.
    rewrite Hc in Sh.
    destruct Sh as [(_ & _ & ->) | [(_ & _ & ->) | (_ & _ & ->)]];
      cbn [set_pending timers]; auto.
  - destruct (take_pending K AwaitMove (pending s)) as [[c rest] |] eqn:TP; [| auto].
    destruct (take_pending_some _ _ _ _ _ TP) as (Hc & _).
    pose proof (after_move_cases c o (set_pending rest s)) as Sh. cbv zeta in Sh.
    rewrite Hc in Sh.
    destruct Sh as (_ & [(_ & ->) | (_ & ->)]); cbn [set_pending timers]; auto.
  - destruct (remove_first K (timers s)) as [rest |] eqn:R; [| auto].
    cbn [removeUpload setUploads set_timers timers]. eapply remove_first_In; eauto.
  - cbn [removeUpload setUploads timers]. auto.
Qed.

Lemma lifecycle_views uid s s' :
  items_of uid s' = items_of uid s -> pend uid s' = pend uid s ->
  (In uid (timers s') -> In uid (timers s)) ->
  lifecycle uid s -> lifecycle uid s'.
Proof.
  intros Ei Ep Et (L & M & T & E). unfold lifecycle. rewrite Ei, Ep.
  split; [exact L |]. split; [exact M |]. split; [| exact E].
  intros H. apply T, Et, H.
Qed.

Lemma lifecycle_no_items uid s :
  items_of uid s = [] -> (List.length (pend uid s) <= 1)%nat ->
  (In uid (timers s) -> pend uid s = []) ->
  lifecycle uid s.
Proof.
  intros Ei L T. unfold lifecycle. rewrite Ei.
  split; [exact L |]. split; [intros c u _ _ [] |].
  split; [| intros u []].
  intros H. split; [apply T, H | intros u []].
Qed.

Lemma pend_nil_length (l : list Pending) : (List.length l <= 1)%nat ->
  forall c, In c l -> l = [c].
Proof.
  intros L c H. destruct l as [| a [| b r]]; cbn [List.length] in L; try lia.
  - contradiction.
  - destruct H as [-> | []]. reflexivity.
Qed.

Lemma lifecycle_step uid s e :
  never_enqueues uid [e] -> lifecycle uid s -> lifecycle uid (step s e).
Proof.
  intros N I.
  destruct (target e) as [K |] eqn:T.
  2:{ destruct e; try discriminate. cbn [step].
      assert (Nin : ~ In uid (map fst files)) by (apply (N p files); left; reflexivity).
      destruct (startRealUpload_other p files s uid Nin) as [Ei Ep].
      eapply lifecycle_views; [exact Ei | exact Ep | | exact I].
      rewrite timers_startRealUpload. auto. }
  destruct (String.eqb_spec K uid) as [-> | NE].
  2:{ eapply lifecycle_views; [| | | exact I].
      - eapply step_other_items; eauto.
      - eapply step_other_pend; eauto.
      - eapply step_other_timers; eauto. }
  pose proof I as (L & M & Tm & E).
  destruct e as [p fs | u lc l t | u o | u o | u | u]; cbn [target] in T;
    try discriminate; injection T as ->; cbn [step].
  - (* progress *)
    destruct (take_pending uid AwaitXhr (pending s)) as [[c rest] |] eqn:TP;
      [| exact I].
    unfold onprogress. destruct lc; [| exact I].
    destruct (take_pending_single _ _ _ _ _ TP L) as [Pc _].
    destruct (take_pending_some _ _ _ _ _ TP) as (_ & Ha & _).
    assert (Ei : items_of uid (setUploads (with_progress uid (Js.percent l t)) s)
                 = map (set_progress (Js.percent l t)) (items_of uid s)).
    { apply items_in_map_id_same. apply set_progress_id. }
    unfold lifecycle. rewrite Ei.
    change (pend uid (setUploads (with_progress uid (Js.percent l t)) s))
      with (pend uid s).
    cbn [setUploads timers].
    split; [exact L |]. split; [| split].
    + intros c' u Hc' Ha'. rewrite Pc in Hc'. destruct Hc' as [<- | []]. congruence.
    + intros H. destruct (Tm H) as [P0 _]. rewrite P0 in Pc. discriminate.
    + intros u Hu Hs. apply in_map_iff in Hu. destruct Hu as (v & <- & Hv).
      apply (E v Hv). exact Hs.
  - (* the request settles *)
    destruct (take_pending uid AwaitXhr (pending s)) as [[c rest] |] eqn:TP;
      [| exact I].
    destruct (take_pending_single _ _ _ _ _ TP L) as [Pc Pr].
    destruct (take_pending_some _ _ _ _ _ TP) as (Hc & _).
    assert (NT : ~ In uid (timers s)).
    { intros H. destruct (Tm H) as [P0 _]. rewrite P0 in Pc. discriminate. }
    pose proof (after_xhr_cases c o (set_pending rest s)) as Sh. cbv zeta in Sh.
    rewrite Hc in Sh. cbn [set_pending uploads pending timers] in Sh.
    set (s' := uploadFile_after_xhr c o (set_pending rest s)) in *.
    assert (Cm : forall u, In u (items_in uid (with_completed uid (uploads s))) ->
                           status u = completed).
    { intros u Hu. unfold with_completed in Hu.
      rewrite items_in_map_id_same in Hu by apply set_completed_id.
      apply in_map_iff in Hu. destruct Hu as (v & <- & _). reflexivity. }
    unfold lifecycle, pend, items_of.
    destruct Sh as [([Eu | Eu] & Ep & Et) | [(Eu & Ep & Et) | (Eu & Ep & Et)]];
      rewrite Eu, Ep, Et.
    + rewrite Pr. split; [cbn; lia |]. split; [intros ? ? [] |].
      split; [intros H; contradiction | reflexivity].
    + rewrite Pr. split; [cbn; lia |]. split; [intros ? ? [] |].
      split; [intros H; contradiction | reflexivity].
    + rewrite Pr. split; [cbn; lia |]. split; [intros ? ? [] |].
      split; [| reflexivity]. intros _. split; [reflexivity | exact Cm].
    + rewrite filter_app, Pr. cbn [filter p_uploadId app]. rewrite String.eqb_refl.
      split; [cbn; lia |]. split; [intros c' u _ _ Hu; apply Cm; exact Hu |].
      split; [intros H; contradiction |].
      intros u Hu Hs. rewrite (Cm u Hu) in Hs. discriminate.
  - (* the move settles *)
    destruct (take_pending uid AwaitMove (pending s)) as [[c rest] |] eqn:TP;
      [| exact I].
    destruct (take_pending_single _ _ _ _ _ TP L) as [Pc Pr].
    destruct (take_pending_some _ _ _ _ _ TP) as (Hc & Ha & _).
    assert (NT : ~ In uid (timers s)).
    { intros H. destruct (Tm H) as [P0 _]. rewrite P0 in Pc. discriminate. }
    assert (Cm : forall u, In u (items_of uid s) -> status u = completed).
    { intros u Hu. apply (M c u); [rewrite Pc; left; reflexivity | exact Ha | exact Hu]. }
    pose proof (after_move_cases c o (set_pending rest s)) as Sh. cbv zeta in Sh.
    rewrite Hc in Sh. cbn [set_pending uploads pending timers] in Sh.
    unfold lifecycle, pend, items_of.
    destruct Sh as (Ep & [(Eu & Et) | (Eu & Et)]); rewrite Eu, Ep, Et, Pr.
    + split; [cbn; lia |]. split; [intros ? ? [] |].
      split; [intros H; contradiction | reflexivity].
    + split; [cbn; lia |]. split; [intros ? ? [] |].
      split; [| reflexivity]. intros _. split; [reflexivity | exact Cm].
  - (* the removal timer *)
    destruct (remove_first uid (timers s)) as [rest |] eqn:R;
      [| exact I].
    apply lifecycle_no_items.
    + apply items_in_without_same.
    + exact L.
    + intros H. apply Tm. eapply remove_first_In; eauto.
  - (* dismissal *)
    apply lifecycle_no_items.
    + apply items_in_without_same.
    + exact L.
    + intros H. apply Tm. exact H.
Qed.

Lemma lifecycle_run uid evs : forall s,
  never_enqueues uid evs -> lifecycle uid s -> lifecycle uid (run s evs).
Proof.
  induction evs as [| e evs IH]; intros s N I; [exact I |].
  cbn [run fold_left]. apply IH.
  - intros p files H. apply (N p files). right. exact H.
  - apply lifecycle_step; [| exact I].
    intros p files [H | []]. apply (N p files). left. exact H.
Qed.

Lemma lifecycle_enqueue_self uid p s f :
  items_of uid s = [] -> pend uid s = [] -> ~ In uid (timers s) ->
  lifecycle uid (enqueue_one p s (uid, f)).
Proof.
  intros Ei Ep Et.
  assert (A : items_in uid (uploads s ++ [new_item uid f]) = [new_item uid f]).
  { unfold items_in. rewrite filter_app. unfold items_of in Ei. rewrite Ei.
    cbn [filter new_item id app]. rewrite String.eqb_refl. reflexivity. }
  unfold lifecycle. rewrite timers_enqueue_one. unfold items_of, pend.
  rewrite uploads_enqueue_one, pending_enqueue_one.
  destruct (truthy (token p)).
  - fold (items_in uid (uploads s ++ [new_item uid f])). rewrite A.
    rewrite filter_app. unfold pend in Ep. rewrite Ep. cbn [filter p_uploadId app].
    rewrite String.eqb_refl.
    split; [cbn; lia |]. split; [| split].
    + intros c u [<- | []] Ha. discriminate Ha.
    + intros H. contradiction.
    + intros u [<- | []] Hs. discriminate Hs.
  - unfold with_status.
    fold (items_in uid (map_id uid (set_status error) (uploads s ++ [new_item uid f]))).
    rewrite items_in_map_id_same by apply set_status_id. rewrite A.
    unfold pend in Ep. rewrite Ep.
    split; [cbn; lia |]. split; [intros c u [] |].
    split; [intros H; contradiction | reflexivity].
Qed.

Lemma lifecycle_start uid p files : forall s,
  items_of uid s = [] -> pend uid s = [] -> ~ In uid (timers s) ->
  NoDup (map fst files) -> In uid (map fst files) ->
  lifecycle uid (startRealUpload p files s).
Proof.
  induction files as [| [u f] files IH]; intros s Ei Ep Et ND Hin; [contradiction |].
  cbn [map fst] in ND, Hin. inversion ND as [| ? ? Nin ND']; subst.
  unfold startRealUpload. cbn [fold_left].
  fold (startRealUpload p files (enqueue_one p s (u, f))).
  destruct (String.eqb_spec u uid) as [-> | NE].
  - destruct (startRealUpload_other p files (enqueue_one p s (uid, f)) uid Nin)
      as [Ei' Ep'].
    eapply lifecycle_views; [exact Ei' | exact Ep' | |].
    + rewrite timers_startRealUpload. auto.
    + apply lifecycle_enqueue_self; assumption.
  - destruct (enqueue_one_other p s (u, f) uid NE) as [Ei' Ep'].
    apply IH.
    + rewrite Ei'. exact Ei.
    + rewrite Ep'. exact Ep.
    + rewrite timers_enqueue_one. exact Et.
    + exact ND'.
    + destruct Hin as [Hin | Hin]; [contradiction | exact Hin].
Qed.

Lemma take_pending_pend uid a s c rest :
  take_pending uid a (pending s) = Some (c, rest) -> In c (pend uid s).
Proof.
  intros TP. destruct (take_pending_some _ _ _ _ _ TP) as (Hc & _ & l1 & l2 & E & _).
  unfold pend. apply filter_In. split.
  - rewrite E. apply in_or_app. right. left. reflexivity.
  - rewrite Hc. apply String.eqb_refl.
Qed.

Lemma remove_first_some x l rest : remove_first x l = Some rest -> In x l.
Proof.
  revert rest. induction l as [| z l IH]; intros rest E; [discriminate |].
  cbn [remove_first] in E. destruct (String.eqb_spec z x) as [-> | NE].
  - left. reflexivity.
  - destruct (remove_first x l) as [r |]; [| discriminate]. right. eapply IH; eauto.
Qed.

(** Only the dismissal touches a task in [error]. *)
Lemma error_kept uid s e u :
  lifecycle uid s -> In u (items_of uid s) -> status u = error ->
  e <> RemoveUpload uid -> never_enqueues uid [e] ->
  items_of uid (step s e) = items_of uid s.
Proof.
  intros (L & M & Tm & E) Hu Hs Ne N.
  assert (P0 : pend uid s = []) by (eapply E; eauto).
  assert (NT : ~ In uid (timers s)).
  { intros H. destruct (Tm H) as [_ C]. rewrite (C u Hu) in Hs. discriminate. }
  destruct (target e) as [K |] eqn:T.
  2:{ destruct e; try discriminate. cbn [step].
      apply startRealUpload_other. apply (N p files). left. reflexivity. }
  destruct (String.eqb_spec K uid) as [-> | NE].
  2:{ eapply step_other_items; eauto. }
  destruct e as [p fs | k lc l t | k o | k o | k | k]; cbn [target] in T;
    try discriminate; injection T as ->; cbn [step].
  - destruct (take_pending uid AwaitXhr (pending s)) as [[c rest] |] eqn:TP;
      [| reflexivity].
    apply take_pending_pend in TP. rewrite P0 in TP. contradiction.
  - destruct (take_pending uid AwaitXhr (pending s)) as [[c rest] |] eqn:TP;
      [| reflexivity].
    apply take_pending_pend in TP. rewrite P0 in TP. contradiction.
  - destruct (take_pending uid AwaitMove (pending s)) as [[c rest] |] eqn:TP;
      [| reflexivity].
    apply take_pending_pend in TP. rewrite P0 in TP. contradiction.
  - destruct (remove_first uid (timers s)) as [rest |] eqn:R; [| reflexivity].
    apply remove_first_some in R. contradiction.
  - congruence.
Qed.

Lemma error_kept_run uid evs : forall s u,
  lifecycle uid s -> In u (items_of uid s) -> status u = error ->
  ~ In (RemoveUpload uid) evs -> never_enqueues uid evs ->
  items_of uid (run s evs) = items_of uid s.
Proof.
  induction evs as [| e evs IH]; intros s u I Hu Hs Nr N; [reflexivity |].
  cbn [run fold_left].
  assert (N1 : never_enqueues uid [e]).
  { intros p files [H | []]. apply (N p files). left. exact H. }
  assert (E1 : items_of uid (step s e) = items_of uid s).
  { eapply error_kept; eauto. intros ->. apply Nr. left. reflexivity. }
  rewrite <- E1. apply (IH (step s e) u).
  - apply lifecycle_step; assumption.
  - rewrite E1. exact Hu.
  - exact Hs.
  - intros H. apply Nr. right. exact H.
  - intros p files H. apply (N p files). right. exact H.
Qed.

(** X5.  A task created under a fresh id that has reached the [error]
    state stays on the list, unchanged, until the user dismisses it:
    whatever else happens -- events of other tasks, late events of its own
    request, timers, further batches under other ids -- its entry is the
    same after any sequence of events that contains no [removeUpload] for
    it.  (No removal timer is ever pending for a task in [error].) *)
Theorem X5_failed_task_waits_for_dismissal p files s0 uid evs evs' u :
  items_of uid s0 = [] -> pend uid s0 = [] -> ~ In uid (timers s0) ->
  NoDup (map fst files) -> In uid (map fst files) ->
  never_enqueues uid evs -> never_enqueues uid evs' ->
  let s := run (step s0 (StartRealUpload p files)) evs in
  In u (items_of uid s) -> status u = error ->
  ~ In (RemoveUpload uid) evs' ->
  items_of uid (run s evs') = items_of uid s /\ ~ In uid (timers (run s evs')).
Proof.
  intros Ei Ep Et ND Hin N N' s Hu Hs Nr.
  assert (I : lifecycle uid s).
  { apply lifecycle_run; [exact N |]. cbn [step]. apply lifecycle_start; assumption. }
  assert (E' : items_of uid (run s evs') = items_of uid s).
  { eapply error_kept_run; eauto. }
  split; [exact E' |].
  pose proof (lifecycle_run uid evs' s N' I) as (_ & _ & Tm & _).
  intros H. destruct (Tm H) as [_ C].
  rewrite E' in C. rewrite (C u Hu) in Hs. discriminate.
Qed.

Lemma X5_witness :
  let evs := [XhrDone "upload-1" XhrError] in
  let evs' := [TimerFired "upload-1"; XhrProgress "upload-1" true 5 10;
               XhrDone "upload-2" (XhrLoad 200 "OK" (JsonValue (Some "f2") None));
               MoveDone "upload-2" (MoveResponse 200 "OK" JsonNull);
               TimerFired "upload-2"] in
  let s := run (step init (StartRealUpload sample_props sample_batch)) evs in
  let u := mkItem "upload-1" "a.txt" (Js.Int 0) 10 error in
  (NoDup (map fst sample_batch) /\ In "upload-1" (map fst sample_batch) /\
   In u (items_of "upload-1" s) /\ status u = error /\
   ~ In (RemoveUpload "upload-1") evs')
  /\ items_of "upload-1" (run s evs') = [u].
Proof.
  cbv zeta.
  assert (ND : NoDup (map fst sample_batch)).
  { cbn. repeat constructor; cbn; intuition discriminate. }
  assert (Hin : In "upload-1" (map fst sample_batch)) by (left; reflexivity).
  assert (Hu : In (mkItem "upload-1" "a.txt" (Js.Int 0) 10 error)
                  (items_of "upload-1"
                     (run (step init (StartRealUpload sample_props sample_batch))
                          [XhrDone "upload-1" XhrError])))
    by (left; reflexivity).
  assert (Nr : ~ In (RemoveUpload "upload-1")
                 [TimerFired "upload-1"; XhrProgress "upload-1" true 5 10;
                  XhrDone "upload-2" (XhrLoad 200 "OK" (JsonValue (Some "f2") None));
                  MoveDone "upload-2" (MoveResponse 200 "OK" JsonNull);
                  TimerFired "upload-2"]).
  { cbn. intuition discriminate. }
  split; [exact (conj ND (conj Hin (conj Hu (conj eq_refl Nr)))) |].
  refine (proj1 (X5_failed_task_waits_for_dismissal sample_props sample_batch init
                   "upload-1" _ _ _ eq_refl eq_refl _ ND Hin _ _ Hu eq_refl Nr)).
  - intros H; exact H.
  - intros p files H. cbn in H. intuition discriminate.
  - intros p files H. cbn in H. intuition discriminate.
Defined.

End UploadExtras.

(* ===================================================================== *)
(** * PreviewModal: cancelled requests, the loading flag, closing         *)
(* ===================================================================== *)

Module PreviewExtras.
Import Preview PreviewViews PreviewSignals PreviewFacts PreviewClaims.

(** ** Events of a cancelled request *)

Lemma visible_resume c s : visible (resume c s) = visible s.
Proof. reflexivity. Qed.

Lemma is_aborted_resume c c' s : is_aborted c (resume c' s) = is_aborted c s.
Proof. reflexivity. Qed.

Lemma throw_aborted c m s : is_aborted c s = true -> throw c m s = s.
Proof.
  intros A. unfold throw, catch_block, finally_block. rewrite A, A. reflexivity.
Qed.

(** With the signal aborted, what is left of the call returns at its
    first test. *)
Lemma aborted_step s e c :
  settled_request e = Some c -> is_aborted c s = true ->
  (step s e = s \/ step s e = resume c s).
Proof.
  intros T A.
  destruct e as [p | | c' r | c' | c' r]; cbn [settled_request] in T;
    try discriminate; injection T as ->; cbn [step].
  - destruct (is_awaiting c AwaitRace s); [| left; reflexivity]. right.
    unfold after_fetch. rewrite is_aborted_resume, A.
    destruct r; [reflexivity |]. apply throw_aborted. exact A.
  - rewrite A, Bool.andb_false_r. left. reflexivity.
  - destruct (is_awaiting c AwaitBlob s); [| left; reflexivity]. right.
    unfold after_blob. rewrite is_aborted_resume, A.
    destruct r; [reflexivity |]. apply throw_aborted. exact A.
Qed.

Lemma not_awaiting_step s e c :
  settled_request e = Some c ->
  (forall a, ~ In (c, a) (awaiting s)) -> step s e = s.
Proof.
  intros T N.
  assert (F : forall a, is_awaiting c a s = false).
  { intros a. destruct (is_awaiting c a s) eqn:E; [| reflexivity].
    apply is_awaiting_In in E. destruct (N a E). }
  destruct e as [p | | c' r | c' | c' r]; cbn [settled_request] in T;
    try discriminate; injection T as ->; cbn [step]; rewrite F; reflexivity.
Qed.

Lemma stale_step s e c :
  Inv0 s -> settled_request e = Some c -> abortController s <> Some c ->
  visible (step s e) = visible s /\
  (forall c' a, In (c', a) (awaiting (step s e)) -> In (c', a) (awaiting s)).
Proof.
  intros I T N.
  destruct (is_aborted c s) eqn:A.
  - destruct (aborted_step s e c T A) as [-> | ->].
    + split; [reflexivity | auto].
    + split; [reflexivity |]. intros c' a H. apply In_resume in H. apply H.
  - rewrite (not_awaiting_step s e c T).
    + split; [reflexivity | auto].
    + intros a H. destruct I as (_ & _ & _ & P4 & _).
      destruct (P4 c a H A) as [E _]. contradiction.
Qed.

(** X6.  In every reachable state, the settling of a fetch, of a timer or
    of a blob that belongs to any request other than the one whose
    controller is in the ref changes nothing but the list of suspended
    calls: the refs, the preview state (URL, error, loading flag) and the
    log of browser calls are as before.  A superseded response never
    overwrites the session in place, and never creates an object URL. *)
Theorem X6_stale_response_changes_nothing evs e c :
  let s := run init evs in
  settled_request e = Some c -> abortController s <> Some c ->
  visible (step s e) = visible s.
Proof.
  intros s T N. apply (stale_step s e c); [| exact T | exact N].
  apply (reachable_Inv evs).
Qed.

Lemma X6_witness :
  let evs := [RunEffect (props_of private_image (Some "jwt") false);
              RunEffect (props_of shared_pdf (Some "jwt") false)] in
  let e := FetchSettled 0%nat (Response 200 "OK") in
  (settled_request e = Some 0%nat /\ abortController (run init evs) <> Some 0%nat)
  /\ visible (step (run init evs) e) = visible (run init evs).
Proof.
  cbv zeta.
  assert (N : abortController
                (run init [RunEffect (props_of private_image (Some "jwt") false);
                           RunEffect (props_of shared_pdf (Some "jwt") false)])
              <> Some 0%nat) by (vm_compute; discriminate).
  split; [split; [reflexivity | exact N] |].
  exact (X6_stale_response_changes_nothing _ (FetchSettled 0%nat (Response 200 "OK"))
           0%nat eq_refl N).
Defined.

(** ** One request at a time *)

Lemma fc_signals s s' : signals s = signals s' -> fetches_cancelled s -> fetches_cancelled s'.
Proof.
  unfold signals. intros E. injection E as El Ec Ea.
  unfold fetches_cancelled, is_aborted. rewrite El, Ec, Ea. auto.
Qed.

Lemma signals_core s s' : core s = core s' -> signals s = signals s'.
Proof.
  intros E. destruct (core_fields _ _ E) as (_ & Ec & _ & El & Ea).
  unfold signals. rewrite Ec, El, Ea. reflexivity.
Qed.

Lemma fc_abort c s : fetches_cancelled s -> fetches_cancelled (abort c s).
Proof.
  intros [F A]. split.
  - intros url h c' Hin. cbn [abort emit set_aborted set_log log abortController] in *.
    apply in_app_or in Hin. destruct Hin as [Hin | [E | []]]; [| discriminate].
    destruct (F url h c' Hin) as [E | E]; [left; exact E | right].
    rewrite is_aborted_abort, E. apply Bool.orb_true_r.
  - intros c' H. rewrite is_aborted_abort in H.
    cbn [abort emit set_aborted set_log log]. apply in_or_app.
    destruct (Nat.eqb_spec c' c) as [Ecc | NE].
    + right. left. rewrite Ecc. reflexivity.
    + left. apply A. exact H.
Qed.

Lemma fc_drop c s :
  abortController s = Some c -> is_aborted c s = true ->
  fetches_cancelled s -> fetches_cancelled (set_abortController None s).
Proof.
  intros Ec Ha [F A]. split; [| exact A].
  intros url h c' Hin. right. destruct (F url h c' Hin) as [E | E]; [| exact E].
  rewrite Ec in E. injection E as <-. exact Ha.
Qed.

Lemma fc_new c s :
  (forall c0, abortController s = Some c0 -> is_aborted c0 s = true) ->
  fetches_cancelled s -> fetches_cancelled (set_abortController (Some c) s).
Proof.
  intros H [F A]. split; [| exact A].
  intros url h c' Hin. right. destruct (F url h c' Hin) as [E | E]; [| exact E].
  apply H. exact E.
Qed.

Lemma fc_emit e s :
  match e with
  | Fetch _ _ c => abortController s = Some c
  | Abort _ => False
  | _ => True
  end ->
  fetches_cancelled s -> fetches_cancelled (emit e s).
Proof.
  intros He [F A]. split.
  - intros url h c Hin. cbn [emit set_log log] in Hin.
    apply in_app_or in Hin. destruct Hin as [Hin | [E | []]].
    + apply (F url h c Hin).
    + subst e. left. exact He.
  - intros c H. cbn [emit set_log log]. apply in_or_app. left. apply A. exact H.
Qed.

Lemma fc_cleanup s : fetches_cancelled s -> fetches_cancelled (cleanup s).
Proof.
  intros I. unfold cleanup.
  assert (I1 : fetches_cancelled (match abortController s with
                                  | Some c => set_abortController None (abort c s)
                                  | None => s
                                  end)).
  { destruct (abortController s) as [c |] eqn:Ec; [| exact I].
    apply (fc_drop c).
    - exact Ec.
    - rewrite is_aborted_abort, Nat.eqb_refl. reflexivity.
    - apply fc_abort. exact I. }
  destruct (currentBlobUrl _) as [u |]; [| exact I1].
  eapply fc_signals; [| apply (fc_emit (RevokeObjectURL u)); [exact Logic.I | exact I1]].
  reflexivity.
Qed.

Lemma fc_reset s : fetches_cancelled s -> fetches_cancelled (loadFilePreview_reset s).
Proof.
  intros I. unfold loadFilePreview_reset.
  set (s1 := match currentBlobUrl s with
             | Some u => set_currentBlobUrl None (emit (RevokeObjectURL u) s)
             | None => s
             end).
  assert (I1 : fetches_cancelled s1).
  { subst s1. destruct (currentBlobUrl s) as [u |]; [| exact I].
    eapply fc_signals; [| apply (fc_emit (RevokeObjectURL u)); [exact Logic.I | exact I]].
    reflexivity. }
  set (s2 := match abortController s1 with
             | Some c => set_abortController None (abort c s1)
             | None => s1
             end).
  assert (I2 : fetches_cancelled s2).
  { subst s2. destruct (abortController s1) as [c |] eqn:Ec; [| exact I1].
    apply (fc_drop c).
    - exact Ec.
    - rewrite is_aborted_abort, Nat.eqb_refl. reflexivity.
    - apply fc_abort. exact I1. }
  eapply fc_signals; [| exact I2]. reflexivity.
Qed.

Lemma fc_start_request f s :
  fetches_cancelled s ->
  fetches_cancelled (start_request f s) /\
  abortController (start_request f s) = Some (next_controller s).
Proof.
  intros I. unfold start_request.
  set (s1 := match abortController s with Some c => abort c s | None => s end).
  assert (N1 : next_controller s1 = next_controller s).
  { subst s1. destruct (abortController s); reflexivity. }
  assert (I1 : fetches_cancelled s1).
  { subst s1. destruct (abortController s); [apply fc_abort |]; exact I. }
  assert (A1 : forall c0, abortController s1 = Some c0 -> is_aborted c0 s1 = true).
  { subst s1. intros c0. destruct (abortController s) as [c |] eqn:Ec.
    - cbn [abort emit set_aborted set_log abortController]. rewrite Ec.
      intros E. injection E as <-. rewrite is_aborted_abort, Nat.eqb_refl. reflexivity.
    - rewrite Ec. discriminate. }
  split.
  - eapply fc_signals; [| apply (fc_new (next_controller s1) s1 A1 I1)]. reflexivity.
  - cbn. rewrite N1. reflexivity.
Qed.

Lemma fc_throw c m s : fetches_cancelled s -> fetches_cancelled (throw c m s).
Proof.
  intros I. eapply fc_signals; [apply signals_core; symmetry; apply core_throw | exact I].
Qed.

Lemma fc_not_previewable c s :
  fetches_cancelled s ->
  fetches_cancelled (finally_block c (set_previewUrlRef None (set_previewUrl None s))).
Proof.
  intros I.
  eapply fc_signals; [apply signals_core; symmetry; apply core_finally |].
  eapply fc_signals; [| exact I]. reflexivity.
Qed.

Lemma fc_fetch url h c ms s :
  fetches_cancelled s -> abortController s = Some c ->
  fetches_cancelled
    (set_awaiting (awaiting (emit (Fetch url h c) (emit (SetTimeout c ms) s))
                   ++ [(c, AwaitRace)])%list
       (emit (Fetch url h c) (emit (SetTimeout c ms) s))).
Proof.
  intros I Ec.
  eapply fc_signals;
    [| apply (fc_emit (Fetch url h c));
       [| apply (fc_emit (SetTimeout c ms)); [exact Logic.I | exact I]]].
  - reflexivity.
  - exact Ec.
Qed.

Lemma fc_load p s : fetches_cancelled s -> fetches_cancelled (loadFilePreview p s).
Proof.
  intros I. unfold loadFilePreview.
  destruct (file p) as [f |]; [| apply fc_reset; exact I].
  destruct (isOpen p); [| apply fc_reset; exact I].
  destruct (already_current f s); [exact I |].
  destruct (fc_start_request f s I) as [I0 Ec]. cbv zeta.
  destruct (isImageFile _ || isTextFile _ || isPDFFile _ || isVideoFile _)%bool;
    [| apply fc_not_previewable; exact I0].
  destruct (negb (truthy (token p)) && negb (isPublic p))%bool;
    [apply fc_throw; exact I0 |].
  destruct (isTextFile _ && _)%bool; [apply fc_throw; exact I0 |].
  destruct (isVideoFile _ && _)%bool; [apply fc_throw; exact I0 |].
  destruct (isPDFFile _ && _)%bool; [apply fc_throw; exact I0 |].
  apply fc_fetch; [exact I0 | exact Ec].
Qed.

Lemma fc_after_fetch c r s :
  fetches_cancelled s -> fetches_cancelled (after_fetch c r (resume c s)).
Proof.
  intros I.
  assert (I1 : fetches_cancelled (resume c s)) by (eapply fc_signals; [| exact I]; reflexivity).
  unfold after_fetch. destruct r as [st txt | m].
  - destruct (is_aborted c (resume c s)); [exact I1 |].
    destruct (is_2xx st).
    + eapply fc_signals; [| exact I1]. reflexivity.
    + eapply fc_signals; [apply signals_core; symmetry; apply core_throw | exact I1].
  - eapply fc_signals; [apply signals_core; symmetry; apply core_throw | exact I1].
Qed.

Lemma fc_after_blob c r s :
  fetches_cancelled s -> fetches_cancelled (after_blob c r (resume c s)).
Proof.
  intros I.
  assert (I1 : fetches_cancelled (resume c s)) by (eapply fc_signals; [| exact I]; reflexivity).
  unfold after_blob. destruct r as [| m].
  - destruct (is_aborted c (resume c s)); [exact I1 |].
    eapply fc_signals; [apply signals_core; symmetry; apply core_finally |].
    set (s1 := match currentBlobUrl (resume c s) with
               | Some u => emit (RevokeObjectURL u) (resume c s)
               | None => resume c s
               end).
    assert (I2 : fetches_cancelled s1).
    { subst s1. destruct (currentBlobUrl (resume c s)) as [u |]; [| exact I1].
      apply (fc_emit (RevokeObjectURL u)); [exact Logic.I | exact I1]. }
    eapply fc_signals;
      [| apply (fc_emit (CreateObjectURL (next_url s1))); [exact Logic.I | exact I2]].
    reflexivity.
  - eapply fc_signals; [apply signals_core; symmetry; apply core_throw | exact I1].
Qed.

Lemma fc_step s e : fetches_cancelled s -> fetches_cancelled (step s e).
Proof.
  intros I. destruct e as [p | | c r | c | c r]; cbn [step].
  - eapply fc_signals; [| apply (fc_load p)].
    + reflexivity.
    + destruct (mounted s); [apply fc_cleanup |]; exact I.
  - destruct (mounted s); [| exact I].
    eapply fc_signals; [| apply (fc_cleanup s I)]. reflexivity.
  - destruct (is_awaiting c AwaitRace s); [| exact I]. apply fc_after_fetch. exact I.
  - destruct (is_awaiting c AwaitRace s && negb (is_aborted c s))%bool; [| exact I].
    apply fc_throw. eapply fc_signals; [| exact I]. reflexivity.
  - destruct (is_awaiting c AwaitBlob s); [| exact I]. apply fc_after_blob. exact I.
Qed.

Lemma preview_run_snoc s evs e : run s (evs ++ [e]) = step (run s evs) e.
Proof. unfold run. rewrite fold_left_app. reflexivity. Qed.

(** X7.  At any time at most one fetch of a consumer is not cancelled:
    along every trace, every fetch ever issued either belongs to the
    controller in the ref or had [abort()] called on its controller
    (a call that is in the log).  Each new request, each re-run of the
    effect and the unmount cancel the request before them. *)
Theorem X7_one_request_at_a_time evs url h c :
  let s := run init evs in
  In (Fetch url h c) (log s) ->
  abortController s = Some c \/ (is_aborted c s = true /\ In (Abort c) (log s)).
Proof.
  intros s Hin.
  assert (I : fetches_cancelled s).
  { subst s. clear Hin. induction evs as [| e evs IH] using rev_ind.
    - split; [intros ? ? ? [] | intros ? H; discriminate H].
    - rewrite preview_run_snoc. apply fc_step. exact IH. }
  destruct I as [F A]. destruct (F url h c Hin) as [E | E]; [left; exact E |].
  right. split; [exact E | apply A; exact E].
Qed.

Lemma X7_witness :
  let evs := [RunEffect (props_of private_image (Some "jwt") false);
              RunEffect (props_of shared_pdf (Some "jwt") false)] in
  In (Fetch "http://localhost:8080/api/v1/files/file-4/download" (Some "Bearer jwt") 0%nat)
     (log (run init evs))
  /\ (abortController (run init evs) = Some 0%nat \/
      (is_aborted 0%nat (run init evs) = true /\ In (Abort 0%nat) (log (run init evs)))).
Proof.
  cbv zeta.
  assert (H : In (Fetch "http://localhost:8080/api/v1/files/file-4/download"
                    (Some "Bearer jwt") 0%nat)
                (log (run init [RunEffect (props_of private_image (Some "jwt") false);
                                RunEffect (props_of shared_pdf (Some "jwt") false)])))
    by (vm_compute; right; left; reflexivity).
  split; [exact H |].
  exact (X7_one_request_at_a_time _ _ _ _ H).
Defined.

(** ** The loading flag *)

Lemma quiet_without_controller s : Inv0 s -> abortController s = None -> quiet s.
Proof.
  intros (_ & _ & _ & P4 & _) E c a Hin.
  destruct (is_aborted c s) eqn:A; [reflexivity |].
  destruct (P4 c a Hin A) as [E' _]. congruence.
Qed.

Lemma quiet_resume s c a :
  Inv0 s -> In (c, a) (awaiting s) -> is_aborted c s = false -> quiet (resume c s).
Proof.
  intros (_ & _ & _ & P4 & _) Hin A c' a' Hin'.
  apply In_resume in Hin'. destruct Hin' as [Hin' NE].
  change (is_aborted c' (resume c s)) with (is_aborted c' s).
  destruct (is_aborted c' s) eqn:A'; [reflexivity |].
  destruct (P4 c a Hin A) as [E _]. destruct (P4 c' a' Hin' A') as [E' _].
  congruence.
Qed.

Lemma flags_quiet s :
  loading s = loadingRef s -> previewUrl s = previewUrlRef s -> quiet s -> flags_agree s.
Proof.
  intros A B Q. split; [exact A |]. split; [exact B |].
  intros c a Hin Ha. rewrite (Q c a Hin) in Ha. discriminate.
Qed.

Lemma flags_throw c m s :
  is_aborted c s = false -> quiet s -> flags_agree (throw c m s).
Proof.
  intros A Q. rewrite (throw_live c m s A). apply flags_quiet; try reflexivity.
  exact Q.
Qed.

Lemma flags_cleanup s : flags_agree s -> flags_agree (cleanup s).
Proof.
  intros (A & B & C). destruct (cleanup_refs s) as (_ & El & Er & Ep & Eg & _ & Ew & _).
  unfold flags_agree. rewrite El, Er, Ep, Eg, Ew.
  split; [exact A |]. split; [exact B |].
  intros c a Hin Ha. apply (C c a Hin).
  unfold cleanup in Ha.
  destruct (abortController s) as [c0 |]; destruct (currentBlobUrl _) as [u |];
    unfold is_aborted in *; cbn in Ha; try exact Ha;
    apply Bool.orb_false_iff in Ha; apply Ha.
Qed.

Lemma quiet_start_request f s : quiet s -> quiet (start_request f s).
Proof.
  intros Q c a Hin. unfold start_request in *.
  destruct (abortController s) as [c0 |]; prj; pose proof (Q c a Hin) as H;
    unfold is_aborted in *; prj; cbn [existsb]; rewrite H.
  - apply Bool.orb_true_r.
  - reflexivity.
Qed.

Lemma flags_load p s :
  Inv0 s -> quiet s -> loading s = loadingRef s -> previewUrl s = previewUrlRef s ->
  flags_agree (loadFilePreview p s).
Proof.
  intros I Q A B.
  assert (R : flags_agree (loadFilePreview_reset s)).
  { unfold loadFilePreview_reset.
    destruct (currentBlobUrl s) as [u0 |]; destruct (abortController _) as [c0 |];
      (split; [reflexivity |]); (split; [reflexivity |]);
      intros c a Hin Ha; exfalso; prj; pose proof (Q c a Hin) as H;
      unfold is_aborted in *; prj; cbn [existsb] in Ha; rewrite H in Ha;
      rewrite ?Bool.orb_true_r in Ha; discriminate. }
  unfold loadFilePreview.
  destruct (file p) as [f |]; [| exact R].
  destruct (isOpen p); [| exact R].
  destruct (already_current f s); [apply flags_quiet; assumption |].
  pose proof (start_request_facts f s I) as H0. cbv zeta in H0.
  pose proof (start_request_log f s) as (_ & _ & _ & _ & _ & Lr & Pr & Pu).
  pose proof (quiet_start_request f s Q) as Q0.
  assert (Lg : loading (start_request f s) = true) by reflexivity.
  remember (start_request f s) as s0 eqn:Hs0.
  destruct H0 as (I0 & Fr & Ec & Eb & Ew & En).
  destruct (isImageFile _ || isTextFile _ || isPDFFile _ || isVideoFile _)%bool.
  2:{ unfold finally_block. prj. change (is_aborted (next_controller s) s0 = false) in Fr.
      unfold is_aborted in *. prj. rewrite Fr.
      apply flags_quiet; try reflexivity. exact Q0. }
  destruct (negb (truthy (token p)) && negb (isPublic p))%bool;
    [apply flags_throw; assumption |].
  destruct (isTextFile _ && _)%bool; [apply flags_throw; assumption |].
  destruct (isVideoFile _ && _)%bool; [apply flags_throw; assumption |].
  destruct (isPDFFile _ && _)%bool; [apply flags_throw; assumption |].
  unfold flags_agree. prj. rewrite Lg, Lr, Pu, Pr.
  split; [reflexivity |]. split; [exact B |]. intros; reflexivity.
Qed.

Lemma flags_blob_ok c u n e s :
  is_aborted c s = false -> quiet s ->
  flags_agree
    (finally_block c
       (set_previewUrl (Some u)
          (set_previewUrlRef (Some u)
             (set_currentBlobUrl (Some u) (set_next_url n (emit e s)))))).
Proof.
  intros Ha Q. unfold finally_block, is_aborted in *. prj. rewrite Ha.
  apply flags_quiet; try reflexivity. exact Q.
Qed.

Lemma flags_step s e : Inv s -> flags_agree s -> flags_agree (step s e).
Proof.
  intros I F. pose proof I as [I0 M]. pose proof F as (A & B & C).
  destruct e as [p | | c r | c | c r]; cbn [step].
  - (* the effect runs *)
    set (s1 := if mounted s then cleanup s else s).
    assert (H1 : Inv0 s1 /\ abortController s1 = None /\ flags_agree s1).
    { subst s1. destruct (mounted s) eqn:Em.
      - split; [apply cleanup_Inv0; exact I0 |].
        split; [apply cleanup_clean | apply flags_cleanup; exact F].
      - split; [exact I0 |]. split; [apply (M eq_refl) | exact F]. }
    destruct H1 as (I1 & E1 & (A1 & B1 & _)).
    pose proof (flags_load p s1 I1 (quiet_without_controller s1 I1 E1) A1 B1) as F1.
    exact F1.
  - destruct (mounted s); [| exact F]. apply (flags_cleanup s F).
  - (* the fetch settles *)
    destruct (is_awaiting c AwaitRace s) eqn:Aw; [| exact F].
    pose proof Aw as Aw'. apply is_awaiting_In in Aw.
    destruct (is_aborted c s) eqn:Ha.
    + destruct (aborted_step s (FetchSettled c r) c eq_refl Ha) as [E | E];
        cbn [step] in E; rewrite Aw' in E; rewrite E; [exact F |].
      split; [exact A |]. split; [exact B |].
      intros c' a' Hin' Ha'. apply In_resume in Hin'. apply (C c' a'); [apply Hin' | exact Ha'].
    + pose proof (quiet_resume s c AwaitRace I0 Aw Ha) as Q.
      unfold after_fetch. destruct r as [st txt | m].
      * change (is_aborted c (resume c s)) with (is_aborted c s). rewrite Ha.
        destruct (is_2xx st); [| apply flags_throw; [exact Ha | exact Q]].
        split; [exact A |]. split; [exact B |].
        intros c' a' _ _. apply (C c AwaitRace Aw Ha).
      * apply flags_throw; [exact Ha | exact Q].
  - (* the timer fires *)
    destruct (is_awaiting c AwaitRace s && negb (is_aborted c s))%bool eqn:Aw;
      [| exact F].
    apply Bool.andb_true_iff in Aw. destruct Aw as [Aw Ha].
    apply is_awaiting_In in Aw. apply Bool.negb_true_iff in Ha.
    apply flags_throw; [exact Ha | apply (quiet_resume s c AwaitRace I0 Aw Ha)].
  - (* the blob settles *)
    destruct (is_awaiting c AwaitBlob s) eqn:Aw; [| exact F].
    pose proof Aw as Aw'. apply is_awaiting_In in Aw.
    destruct (is_aborted c s) eqn:Ha.
    + destruct (aborted_step s (BlobSettled c r) c eq_refl Ha) as [E | E];
        cbn [step] in E; rewrite Aw' in E; rewrite E; [exact F |].
      split; [exact A |]. split; [exact B |].
      intros c' a' Hin' Ha'. apply In_resume in Hin'. apply (C c' a'); [apply Hin' | exact Ha'].
    + pose proof (quiet_resume s c AwaitBlob I0 Aw Ha) as Q.
      destruct r as [| m].
      * destruct (after_blob_ok c s I0 Aw Ha) as (_ & _ & ->).
        apply flags_blob_ok; [exact Ha | exact Q].
      * unfold after_blob. apply flags_throw; [exact Ha | exact Q].
Qed.

Lemma flags_reachable evs : flags_agree (run init evs).
Proof.
  induction evs as [| e evs IH] using rev_ind.
  - split; [reflexivity |]. split; [reflexivity |]. intros c a [].
  - rewrite preview_run_snoc. apply flags_step; [apply reachable_Inv | exact IH].
Qed.

(** X8.  Along every trace the [loading] and [previewUrl] state agree
    with the refs the same-file guard reads, and whenever a call of the
    loader is suspended on a signal that is not aborted the loading flag is
    up, so that the preview area shows the spinner: a request in flight is
    never hidden behind an earlier preview or error. *)
Theorem X8_spinner_while_request_in_flight evs :
  let s := run init evs in
  loading s = loadingRef s /\ previewUrl s = previewUrlRef s /\
  (forall c a f, In (c, a) (awaiting s) -> is_aborted c s = false ->
     loading s = true /\ Render.renderPreview f s = Render.Spinner).
Proof.
  intros s. destruct (flags_reachable evs) as (A & B & C).
  split; [exact A |]. split; [exact B |].
  intros c a f Hin Ha. pose proof (C c a Hin Ha) as L. fold s in L.
  split; [exact L |]. unfold Render.renderPreview. rewrite L. reflexivity.
Qed.

Lemma X8_witness :
  let s := run init [RunEffect (props_of private_image (Some "jwt") false)] in
  (In (0%nat, AwaitRace) (awaiting s) /\ is_aborted 0%nat s = false)
  /\ Render.renderPreview private_image s = Render.Spinner.
Proof.
  cbv zeta.
  assert (Hin : In (0%nat, AwaitRace)
                  (awaiting (run init [RunEffect (props_of private_image (Some "jwt") false)])))
    by (left; reflexivity).
  split; [split; [exact Hin | reflexivity] |].
  exact (proj2 (proj2 (proj2 (X8_spinner_while_request_in_flight
                                [RunEffect (props_of private_image (Some "jwt") false)]))
                  0%nat AwaitRace private_image Hin eq_refl)).
Defined.

(** ** A re-run of the effect while its file is loading *)

Lemma cleanup_nothing s :
  abortController s = None -> currentBlobUrl s = None -> cleanup s = s.
Proof. intros A B. unfold cleanup. rewrite A, B. reflexivity. Qed.

Lemma visible_fields s s' :
  visible s' = visible s ->
  currentBlobUrl s' = currentBlobUrl s /\ currentFileId s' = currentFileId s /\
  abortController s' = abortController s /\ loadingRef s' = loadingRef s /\
  loading s' = loading s /\ mounted s' = mounted s /\ log s' = log s /\
  aborted s' = aborted s /\ previewUrl s' = previewUrl s /\ error s' = error s.
Proof.
  unfold visible. intros E. injection E. intros. repeat split; assumption.
Qed.

Lemma stranded_step i s e :
  Inv s -> stranded i s -> keeps_file i e ->
  stranded i (step s e) /\ log (step s e) = log s /\
  aborted (step s e) = aborted s.
Proof.
  intros I (M & Ef & Lr & Lg & Ec & Eu) K.
  destruct (settled_request e) as [c |] eqn:T.
  - destruct (stale_step s e c (proj1 I) T) as [V _]; [rewrite Ec; discriminate |].
    destruct (visible_fields _ _ V) as (V1 & V2 & V3 & V4 & V5 & V6 & V7 & V8 & _).
    unfold stranded. rewrite V1, V2, V3, V4, V5, V6, V7, V8.
    repeat split; assumption.
  - destruct e as [p | | c r | c | c r]; cbn [settled_request] in T; try discriminate.
    2:{ destruct K. }
    destruct K as (Ho & f & Efile & Eid).
    cbn [step]. rewrite M, (cleanup_nothing s Ec Eu).
    rewrite (load_guarded p f s Efile Ho).
    + repeat split; assumption.
    + unfold already_current. rewrite Ef, Lr, Eid, String.eqb_refl. reflexivity.
Qed.

Lemma stranded_run i evs : forall s,
  Inv s -> stranded i s -> Forall (keeps_file i) evs ->
  stranded i (run s evs) /\ log (run s evs) = log s /\
  aborted (run s evs) = aborted s.
Proof.
  induction evs as [| e evs IH]; intros s I S F; [auto |].
  inversion F as [| ? ? K F']; subst.
  change (run s (e :: evs)) with (run (step s e) evs).
  destruct (stranded_step i s e I S K) as (S1 & L1 & A1).
  destruct (IH (step s e) (step_Inv s e I) S1 F') as (S2 & L2 & A2).
  split; [exact S2 |]. split; congruence.
Qed.

(** X9.  When the effect re-runs for the file id whose request is still
    in flight (the file object, the credential or the public flag changed,
    the id did not), the cleanup aborts that request and the same-file
    guard returns without starting another: from then on, through any
    sequence of settling fetches, timers and blobs and of further re-runs
    for the same id, the loading flag stays up, the preview area shows the
    spinner, and no fetch is issued.  Only a resolve for another file, a
    close or an unmount ends that state. *)
Theorem X9_rerun_while_loading_strands_the_session evs c a p i evs' :
  let s := run init evs in
  In (c, a) (awaiting s) -> is_aborted c s = false -> currentFileId s = Some i ->
  keeps_file i (RunEffect p) -> Forall (keeps_file i) evs' ->
  let s' := run (step s (RunEffect p)) evs' in
  is_aborted c s' = true /\ loading s' = true /\ fetches s' = fetches s /\
  (forall f, Render.renderPreview f s' = Render.Spinner).
Proof.
  intros s Hin Ha Ef K F s'.
  pose proof (reachable_Inv evs) as I. fold s in I.
  destruct (flags_reachable evs) as (A & _ & C). fold s in A, C.
  pose proof (C c a Hin Ha) as Lg.
  destruct I as [I0 M0]. pose proof I0 as (_ & _ & _ & P4 & _).
  destruct (P4 c a Hin Ha) as [Ec Eu].
  assert (Em : mounted s = true).
  { apply (Inv_mounted s c); [split; assumption | exact Ec]. }
  destruct K as (Ho & f & Efile & Eid).
  (* the re-run: the cleanup, then the guard *)
  assert (E1 : step s (RunEffect p) = set_mounted true (cleanup s)).
  { cbn [step]. rewrite Em. rewrite (load_guarded p f (cleanup s) Efile Ho); [reflexivity |].
    rewrite already_current_cleanup. unfold already_current.
    rewrite Ef, Eid, String.eqb_refl, <- A, Lg. reflexivity. }
  destruct (cleanup_refs s) as (Ef1 & Lr1 & _ & _ & Lg1 & _ & _ & _ & Fe1).
  destruct (cleanup_clean s) as [Eu1 Ec1].
  assert (S1 : stranded i (step s (RunEffect p))).
  { rewrite E1. unfold stranded. prj.
    rewrite Ef1, Lr1, Lg1, <- A, Lg, Ef, Ec1, Eu1. repeat split; reflexivity. }
  assert (A1 : is_aborted c (step s (RunEffect p)) = true).
  { rewrite E1. unfold cleanup. rewrite Ec.
    destruct (currentBlobUrl _); unfold is_aborted; prj; cbn [existsb];
      rewrite Nat.eqb_refl; reflexivity. }
  assert (I1 : Inv (step s (RunEffect p))) by (apply step_Inv; split; assumption).
  destruct (stranded_run i evs' _ I1 S1 F) as ((_ & _ & _ & Lg' & _) & L' & A').
  fold s' in Lg', L', A'.
  split.
  { unfold is_aborted in *. rewrite A'. exact A1. }
  split; [exact Lg' |].
  split.
  { unfold fetches. rewrite L', E1. prj. exact Fe1. }
  intros f'. unfold Render.renderPreview. rewrite Lg'. reflexivity.
Qed.

Lemma X9_witness :
  let evs := [RunEffect (props_of private_image (Some "jwt") false)] in
  let p := props_of private_image (Some "jwt-2") false in
  let evs' := [FetchSettled 0%nat (FetchRejected "The user aborted a request.");
               TimerFired 0%nat; RunEffect p] in
  (In (0%nat, AwaitRace) (awaiting (run init evs)) /\
   is_aborted 0%nat (run init evs) = false /\
   currentFileId (run init evs) = Some "file-4" /\
   keeps_file "file-4" (RunEffect p) /\ Forall (keeps_file "file-4") evs')
  /\ loading (run (step (run init evs) (RunEffect p)) evs') = true.
Proof.
  cbv zeta.
  assert (Hin : In (0%nat, AwaitRace)
                  (awaiting (run init [RunEffect (props_of private_image (Some "jwt") false)])))
    by (left; reflexivity).
  assert (K : keeps_file "file-4" (RunEffect (props_of private_image (Some "jwt-2") false))).
  { split; [reflexivity |]. exists private_image. split; reflexivity. }
  assert (F : Forall (keeps_file "file-4")
                [FetchSettled 0%nat (FetchRejected "The user aborted a request.");
                 TimerFired 0%nat;
                 RunEffect (props_of private_image (Some "jwt-2") false)]).
  { constructor; [exact Logic.I |]. constructor; [exact Logic.I |].
    constructor; [exact K | constructor]. }
  split; [exact (conj Hin (conj eq_refl (conj eq_refl (conj K F)))) |].
  exact (proj1 (proj2 (X9_rerun_while_loading_strands_the_session
                         _ 0%nat AwaitRace _ "file-4" _ Hin eq_refl eq_refl K F))).
Defined.

(** ** Closing *)

Lemma load_closes p s : closes p = true -> loadFilePreview p s = loadFilePreview_reset s.
Proof.
  unfold closes, loadFilePreview. destruct (file p); [| reflexivity].
  destruct (isOpen p); [discriminate | reflexivity].
Qed.

Lemma reset_fields s :
  currentBlobUrl s = None -> abortController s = None ->
  loadFilePreview_reset s =
  set_currentFileId None (set_loadingRef false (set_loading false
    (set_error None (set_previewUrlRef None (set_previewUrl None s))))).
Proof. intros A B. unfold loadFilePreview_reset. rewrite A, B. reflexivity. Qed.

(** X10.  When the effect runs with no file or with the modal closed, the
    consumer is back at rest, whatever state it was in: no preview URL, no
    error, loading flag down, no file id, no controller and no object URL
    in the refs, no live object URL, every suspended call cancelled; no
    fetch is issued; the events still to come from cancelled requests
    change nothing; and the session is forgotten, so that opening the same
    file again is a fresh resolve. *)
Theorem X10_close_puts_consumer_at_rest evs p :
  closes p = true ->
  let s := run init evs in
  let s' := step s (RunEffect p) in
  (previewUrl s' = None /\ error s' = None /\ loading s' = false) /\
  (currentFileId s' = None /\ abortController s' = None /\ currentBlobUrl s' = None) /\
  live s' = [] /\ fetches s' = fetches s /\
  (forall c a, In (c, a) (awaiting s') -> is_aborted c s' = true) /\
  (forall e c, settled_request e = Some c -> visible (step s' e) = visible s') /\
  (forall f, already_current f s' = false).
Proof.
  intros Cl s s'.
  pose proof (reachable_Inv evs) as I. fold s in I.
  pose proof (step_Inv s (RunEffect p) I) as I'. fold s' in I'.
  set (s0 := if mounted s then cleanup s else s).
  assert (H0 : currentBlobUrl s0 = None /\ abortController s0 = None).
  { subst s0. destruct (mounted s) eqn:Em; [apply cleanup_clean | apply (proj2 I Em)]. }
  destruct H0 as [Eu Ec].
  assert (E : s' = set_mounted true
                (set_currentFileId None (set_loadingRef false (set_loading false
                   (set_error None (set_previewUrlRef None (set_previewUrl None s0))))))).
  { subst s'. rewrite effect_step. fold s0.
    rewrite (load_closes p s0 Cl), (reset_fields s0 Eu Ec). reflexivity. }
  assert (Ec' : abortController s' = None) by (rewrite E; exact Ec).
  assert (Eu' : currentBlobUrl s' = None) by (rewrite E; exact Eu).
  split; [rewrite E; repeat split; reflexivity |].
  split; [rewrite E; repeat split; assumption |].
  split.
  { destruct (Inv_once s' I') as [_ L]. rewrite L, Eu'. reflexivity. }
  split.
  { rewrite E. destruct (before_load_facts s) as (F & _). exact F. }
  split; [apply quiet_without_controller; [apply I' | exact Ec'] |].
  split.
  { intros e c T. apply (stale_step s' e c); [apply I' | exact T |].
    rewrite Ec'. discriminate. }
  intros f. rewrite E. reflexivity.
Qed.

Lemma X10_witness :
  let evs := [RunEffect (props_of private_image (Some "jwt") false);
              FetchSettled 0%nat (Response 200 "OK"); BlobSettled 0%nat BlobOk] in
  let p := mkProps None false (Some "jwt") false None in
  closes p = true
  /\ live (run init evs) = [0%nat]
  /\ live (step (run init evs) (RunEffect p)) = [].
Proof.
  cbv zeta. split; [reflexivity |]. split; [reflexivity |].
  exact (proj1 (proj2 (proj2 (X10_close_puts_consumer_at_rest _
                                (mkProps None false (Some "jwt") false None) eq_refl)))).
Defined.

(** ** The timeout *)

Lemma not_awaiting_resume c a s : ~ In (c, a) (awaiting (resume c s)).
Proof. intros H. apply In_resume in H. destruct H as [_ N]. apply N. reflexivity. Qed.

(** X11.  When the timer of the request in flight fires before the fetch
    settles, the call ends with the timeout message, the loading flag down
    and no preview URL; the fetch itself is not cancelled (no [abort] is
    called, nothing is added to the log), but whatever it settles to later
    is dropped: no later event of that request changes the state, so no
    object URL is created for a response that arrives after the timeout. *)
Theorem X11_timeout_ends_the_call s c :
  is_awaiting c AwaitRace s = true -> is_aborted c s = false ->
  let s1 := step s (TimerFired c) in
  error s1 = Some "Request timeout - large files may take longer to load" /\
  loading s1 = false /\ previewUrl s1 = None /\
  log s1 = log s /\ is_aborted c s1 = false /\
  (forall e, settled_request e = Some c -> step s1 e = s1).
Proof.
  intros Aw Ha s1.
  assert (E : s1 = set_loadingRef false (set_loading false
                (set_previewUrlRef None (set_previewUrl None
                   (set_error (Some "Request timeout - large files may take longer to load")
                      (resume c s)))))).
  { subst s1. cbn [step]. rewrite Aw, Ha. cbn [negb andb].
    apply throw_live. exact Ha. }
  rewrite E. repeat split; try reflexivity; try assumption.
  intros e T. apply (not_awaiting_step _ e c T).
  intros a. apply (not_awaiting_resume c a s).
Qed.

Lemma X11_witness :
  let s := run init [RunEffect (props_of private_image (Some "jwt") false)] in
  (is_awaiting 0%nat AwaitRace s = true /\ is_aborted 0%nat s = false)
  /\ step (step s (TimerFired 0%nat)) (FetchSettled 0%nat (Response 200 "OK")) =
     step s (TimerFired 0%nat).
Proof.
  cbv zeta. split; [split; reflexivity |].
  exact (proj2 (proj2 (proj2 (proj2 (proj2
           (X11_timeout_ends_the_call
              (run init [RunEffect (props_of private_image (Some "jwt") false)])
              0%nat eq_refl eq_refl)))))
           (FetchSettled 0%nat (Response 200 "OK")) eq_refl).
Defined.

End PreviewExtras.

(* ===================================================================== *)
(** * PreviewModal: what the preview area shows                           *)
(* ===================================================================== *)

Module RenderFacts.
Import Preview PreviewViews PreviewSignals PreviewFacts PreviewClaims PreviewExtras
  Render.

(** ** The tests of the renderer against those of the loader *)

Lemma isText_of_isTextFile m : isTextFile m = true -> isText m = true.
Proof.
  unfold isTextFile, isText. cbn [existsb].
  destruct (String.prefix "text/" m); [reflexivity |].
  destruct (String.eqb m "application/json"); [reflexivity |].
  destruct (String.eqb m "application/javascript"); [reflexivity |].
  destruct (String.eqb m "text/csv"); [| discriminate].
  intros _. cbn. rewrite !Bool.orb_true_r. reflexivity.
Qed.

Lemma isVideo_isVideoFile m : isVideo m = String.prefix "video/" m.
Proof.
  unfold isVideo. destruct (String.prefix "video/" m) eqn:P; [reflexivity |].
  cbn [orb existsb].
  repeat match goal with
         | |- context [String.eqb m ?k] =>
             destruct (String.eqb_spec m k) as [-> | _]; [discriminate P |]
         end.
  reflexivity.
Qed.

Lemma isVideoFile_prefix m : isVideoFile m = String.prefix "video/" m.
Proof.
  unfold isVideoFile. destruct (String.prefix "video/" m) eqn:P; [reflexivity |].
  cbn [orb]. destruct (String.eqb_spec m "video/mp4") as [-> | _]; [discriminate P |].
  reflexivity.
Qed.

(** A video type is no text type. *)
Lemma video_not_text m : String.prefix "video/" m = true -> isText m = false.
Proof.
  intros P. unfold isText.
  destruct (String.prefix "text/" m) eqn:Q.
  { destruct m as [| a m]; [discriminate |]. cbn [String.prefix] in P, Q.
    destruct (Ascii.ascii_dec "v" a) as [<- |]; [| discriminate P].
    destruct (Ascii.ascii_dec "t" "v"); discriminate. }
  cbn [orb existsb].
  repeat match goal with
         | |- context [String.eqb m ?k] =>
             destruct (String.eqb_spec m k) as [-> | _]; [discriminate P |]
         end.
  reflexivity.
Qed.

(** With a URL in the state, no error and the flag down, a file of a kind
    the loader fetches is given the viewer of that kind. *)
Lemma render_viewer f s u :
  previewable f = true -> loading s = false -> error s = None ->
  previewUrl s = Some u ->
  renderPreview f s = viewer f u.
Proof.
  intros P L E U. unfold renderPreview, viewer, previewable in *.
  rewrite L, E, U. cbn [truthy]. unfold isImage.
  change (String.prefix "image/" (mime_type f)) with (isImageFile (mime_type f)).
  destruct (isImageFile (mime_type f)); [reflexivity |].
  destruct (isTextFile (mime_type f)) eqn:T.
  { rewrite (isText_of_isTextFile _ T). reflexivity. }
  unfold isPDF. change (String.eqb (mime_type f) "application/pdf")
    with (isPDFFile (mime_type f)).
  destruct (isPDFFile (mime_type f)) eqn:D.
  { unfold isPDFFile in D. apply String.eqb_eq in D. rewrite D. reflexivity. }
  cbn [orb] in P. rewrite isVideoFile_prefix in P.
  rewrite (video_not_text _ P), isVideo_isVideoFile, P. reflexivity.
Qed.

Lemma fetchable_previewable p f : fetchable p f = true -> previewable f = true.
Proof.
  unfold fetchable. intros H. apply Bool.andb_true_iff in H. destruct H as [H _].
  apply Bool.andb_true_iff in H. apply H.
Qed.

(** The fields the renderer reads, after each of the three steps of a
    resolve that succeeds. *)
Lemma effect_fetch_fields s p f :
  Inv s -> fresh_resolve p f s -> fetchable p f = true ->
  let c := next_controller s in
  let s1 := step s (RunEffect p) in
  loading s1 = true /\ error s1 = None /\ is_awaiting c AwaitRace s1 = true /\
  is_aborted c s1 = false /\ next_url s1 = next_url s.
Proof.
  intros I (Hf & Ho & Hg) Hfe. cbv zeta.
  destruct (before_load_facts s) as (Ef & En & Ew & Ec). cbv zeta in *.
  pose proof (before_load_Inv0 s I) as I0.
  assert (N0 : next_url (if mounted s then cleanup s else s) = next_url s).
  { destruct (mounted s); [apply cleanup_refs | reflexivity]. }
  rewrite effect_step.
  remember (if mounted s then cleanup s else s) as s0 eqn:Hs0.
  rewrite (load_fetch p f s0) by (repeat split; try assumption; rewrite Ec; exact Hg).
  cbv zeta. rewrite <- En.
  pose proof (start_request_facts f s0 I0) as H0. cbv zeta in H0.
  destruct (start_request_log f s0) as (_ & _ & _ & Nu & _ & _).
  assert (Er : error (start_request f s0) = None) by reflexivity.
  assert (Lr : loading (start_request f s0) = true) by reflexivity.
  remember (start_request f s0) as sr eqn:Hsr.
  destruct H0 as (_ & Fa & _).
  unfold is_awaiting, is_aborted in *. prj.
  rewrite existsb_app. cbn [existsb fst snd same_await].
  rewrite Nat.eqb_refl, Bool.orb_true_r.
  repeat split; try assumption. congruence.
Qed.

Lemma fetch_ok_fields s c st txt :
  is_awaiting c AwaitRace s = true -> is_aborted c s = false -> is_2xx st = true ->
  let s2 := step s (FetchSettled c (Response st txt)) in
  loading s2 = loading s /\ error s2 = error s /\ is_awaiting c AwaitBlob s2 = true /\
  is_aborted c s2 = is_aborted c s /\ next_url s2 = next_url s.
Proof.
  intros Aw Ha H2. cbv zeta. rewrite (fetch_ok_step s c st txt Aw Ha H2).
  unfold is_awaiting, is_aborted, resume. prj.
  rewrite existsb_app. cbn [existsb fst snd same_await].
  rewrite Nat.eqb_refl, Bool.orb_true_r. repeat split; reflexivity.
Qed.

Lemma blob_ok_fields s c :
  Inv0 s -> is_awaiting c AwaitBlob s = true -> is_aborted c s = false ->
  let s3 := step s (BlobSettled c BlobOk) in
  loading s3 = false /\ error s3 = error s /\ previewUrl s3 = Some (next_url s).
Proof.
  intros I Aw Ha. cbv zeta. rewrite (blob_ok_step s c I Aw Ha).
  unfold resume. prj. repeat split; reflexivity.
Qed.

(** X12.  A resolve that reaches the fetch shows the spinner until the
    blob is there and then the viewer of the file's kind, fed with the
    object URL just created: the image element for an image, the text
    viewer for a text, the PDF viewer for a PDF, the video element for a
    video.  No file the loader fetches ends in one of the "no preview"
    panels. *)
Theorem X12_resolved_file_gets_its_viewer evs p f st txt :
  let s := run init evs in
  fresh_resolve p f s -> fetchable p f = true -> is_2xx st = true ->
  let c := next_controller s in
  let s1 := step s (RunEffect p) in
  let s2 := step s1 (FetchSettled c (Response st txt)) in
  let s3 := step s2 (BlobSettled c BlobOk) in
  renderPreview f s1 = Spinner /\ renderPreview f s2 = Spinner /\
  renderPreview f s3 = viewer f (next_url s) /\
  render p s3 = Some (viewer f (next_url s)).
Proof.
  intros s Fr Hfe H2 c s1 s2 s3.
  pose proof (reachable_Inv evs) as I. fold s in I.
  destruct (effect_fetch_fields s p f I Fr Hfe) as (L1 & E1 & Aw1 & Ha1 & N1).
  fold c s1 in L1, E1, Aw1, Ha1, N1.
  pose proof (step_Inv s (RunEffect p) I) as I1. fold s1 in I1.
  clearbody s1.
  destruct (fetch_ok_fields s1 c st txt Aw1 Ha1 H2) as (L2 & E2 & Aw2 & Ha2 & N2).
  fold s2 in L2, E2, Aw2, Ha2, N2.
  pose proof (step_Inv s1 (FetchSettled c (Response st txt)) I1) as I2. fold s2 in I2.
  clearbody s2.
  rewrite Ha1 in Ha2.
  destruct (blob_ok_fields s2 c (proj1 I2) Aw2 Ha2) as (L3 & E3 & U3).
  fold s3 in L3, E3, U3. clearbody s3.
  rewrite N2, N1 in U3. rewrite E2, E1 in E3. rewrite L1 in L2.
  split; [unfold renderPreview; rewrite L1; reflexivity |].
  split; [unfold renderPreview; rewrite L2; reflexivity |].
  assert (V : renderPreview f s3 = viewer f (next_url s)).
  { apply render_viewer; try assumption. apply (fetchable_previewable p f Hfe). }
  split; [exact V |].
  unfold render. destruct Fr as (Hf & Ho & _). rewrite Hf, Ho, V. reflexivity.
Qed.

Lemma X12_witness :
  let p := props_of shared_pdf (Some "jwt") false in
  (fresh_resolve p shared_pdf (run init []) /\ fetchable p shared_pdf = true /\
   is_2xx 200 = true)
  /\ renderPreview shared_pdf
       (step (step (step (run init []) (RunEffect p))
                   (FetchSettled 0%nat (Response 200 "OK")))
             (BlobSettled 0%nat BlobOk)) = PDFView 0%nat.
Proof.
  cbv zeta.
  assert (F : fresh_resolve (props_of shared_pdf (Some "jwt") false) shared_pdf
                (run init [])).
  { split; [reflexivity |]. split; reflexivity. }
  split; [split; [exact F | split; reflexivity] |].
  exact (proj1 (proj2 (proj2 (X12_resolved_file_gets_its_viewer []
                                (props_of shared_pdf (Some "jwt") false) shared_pdf
                                200 "OK" F eq_refl eq_refl)))).
Defined.

Lemma effect_unfetched_fields s p f :
  Inv s -> fresh_resolve p f s -> previewable f = false ->
  let s' := step s (RunEffect p) in
  loading s' = false /\ error s' = None /\ previewUrl s' = None /\
  fetches s' = fetches s.
Proof.
  intros I (Hf & Ho & Hg) Np. cbv zeta.
  destruct (before_load_facts s) as (Ef & En & Ew & Ec). cbv zeta in *.
  pose proof (before_load_Inv0 s I) as I0.
  rewrite effect_step.
  remember (if mounted s then cleanup s else s) as s0 eqn:Hs0.
  rewrite (load_not_previewable p f s0)
    by (try exact Np; repeat split; try assumption; rewrite Ec; exact Hg).
  pose proof (start_request_facts f s0 I0) as H0. cbv zeta in H0.
  destruct (start_request_log f s0) as (Fs & _).
  assert (Er : error (start_request f s0) = None) by reflexivity.
  remember (start_request f s0) as sr eqn:Hsr.
  destruct H0 as (_ & Fa & _).
  unfold finally_block, fetches, is_aborted in *. prj. rewrite Fa. prj.
  repeat split; try assumption; try reflexivity. congruence.
Qed.

(** X13.  A file of a type the loader does not fetch (neither image, nor
    text as the loader tests it, nor PDF, nor video) is answered at once
    and without a request: the preview area shows the "Preview not
    available" panel -- except for the types that only the renderer counts
    as text ([application/xml], [application/x-yaml]), for which it shows
    the "Preview failed to load" panel with the sentence for text files,
    although no load was attempted. *)
Theorem X13_unfetched_types_panel evs p f :
  let s := run init evs in
  fresh_resolve p f s -> previewable f = false ->
  let s' := step s (RunEffect p) in
  fetches s' = fetches s /\
  renderPreview f s' =
    (if isText (mime_type f) then LoadFailed false true false else NotAvailable) /\
  (isText (mime_type f) = true <->
   mime_type f = "application/xml" \/ mime_type f = "application/x-yaml").
Proof.
  intros s Fr Np s'.
  pose proof (reachable_Inv evs) as I. fold s in I.
  destruct (effect_unfetched_fields s p f I Fr Np) as (L & E & U & F).
  fold s' in L, E, U, F. clearbody s'.
  unfold previewable in Np.
  apply Bool.orb_false_iff in Np. destruct Np as [Np Nv].
  apply Bool.orb_false_iff in Np. destruct Np as [Np Nd].
  apply Bool.orb_false_iff in Np. destruct Np as [Ni Nt].
  rewrite isVideoFile_prefix in Nv.
  split; [exact F |]. split.
  - unfold renderPreview. rewrite L, E, U. cbn [truthy].
    unfold isPDF. change (String.eqb (mime_type f) "application/pdf")
      with (isPDFFile (mime_type f)).
    rewrite Nd, isVideo_isVideoFile, Nv.
    destruct (isText (mime_type f)); reflexivity.
  - unfold isTextFile in Nt. unfold isText. cbn [existsb].
    apply Bool.orb_false_iff in Nt. destruct Nt as [Nt N4].
    apply Bool.orb_false_iff in Nt. destruct Nt as [Nt N3].
    apply Bool.orb_false_iff in Nt. destruct Nt as [N1 N2].
    rewrite N1, N2, N3, N4. cbn [orb].
    destruct (String.eqb_spec (mime_type f) "application/xml") as [-> | X1];
      [split; auto |].
    destruct (String.eqb_spec (mime_type f) "application/x-yaml") as [-> | X2];
      [split; auto |].
    destruct (String.eqb_spec (mime_type f) "text/yaml") as [Y1 | _];
      [rewrite Y1 in N1; discriminate N1 |].
    destruct (String.eqb_spec (mime_type f) "text/yml") as [Y2 | _];
      [rewrite Y2 in N1; discriminate N1 |].
    cbn [orb]. split; [discriminate | intros [H | H]; contradiction].
Qed.

Lemma X13_witness :
  let p := props_of xml_file (Some "jwt") false in
  (fresh_resolve p xml_file (run init []) /\ previewable xml_file = false)
  /\ renderPreview xml_file (step (run init []) (RunEffect p)) =
     LoadFailed false true false.
Proof.
  cbv zeta.
  assert (F : fresh_resolve (props_of xml_file (Some "jwt") false) xml_file (run init [])).
  { split; [reflexivity |]. split; reflexivity. }
  split; [split; [exact F | reflexivity] |].
  exact (proj1 (proj2 (X13_unfetched_types_panel []
                         (props_of xml_file (Some "jwt") false) xml_file F eq_refl))).
Defined.

End RenderFacts.

(* ===================================================================== *)
(** * handleFileDownload: the file name and the calls                     *)
(* ===================================================================== *)

Module DownloadFacts.
Import Download.

(** ** The file name *)

Lemma free_of_cons P c s :
  free_of P (String c s) <-> P c = false /\ free_of P s.
Proof.
  unfold free_of. cbn [list_ascii_of_string]. split.
  - intros H. split; [apply H; left; reflexivity | intros d Hd; apply H; right; exact Hd].
  - intros [H1 H2] d [<- | Hd]; [exact H1 | apply H2; exact Hd].
Qed.

Lemma free_of_nil P : free_of P EmptyString.
Proof. intros c []. Qed.

Lemma strip_quotes_free s : free_of is_quote (strip_quotes s).
Proof.
  induction s as [| c s IH]; cbn [strip_quotes]; [apply free_of_nil |].
  destruct (is_quote c) eqn:Q; [exact IH |].
  apply free_of_cons. split; assumption.
Qed.

Lemma strip_quotes_id s : free_of is_quote s -> strip_quotes s = s.
Proof.
  induction s as [| c s IH]; intros F; [reflexivity |].
  apply free_of_cons in F. destruct F as [Q F]. cbn [strip_quotes].
  rewrite Q, (IH F). reflexivity.
Qed.

Lemma strip_quotes_app a b : strip_quotes (a ++ b) = strip_quotes a ++ strip_quotes b.
Proof.
  induction a as [| c a IH]; [reflexivity |]. cbn [append strip_quotes].
  destruct (is_quote c); rewrite IH; reflexivity.
Qed.

(** The quoted alternative stops at the first closing quote. *)
Lemma closing_quoted q name rest :
  free_of (Ascii.eqb q) name -> free_of is_line_terminator name ->
  closing q (name ++ String q rest) = Some (name ++ String q EmptyString).
Proof.
  induction name as [| c name IH]; intros Fq Fl; cbn [append closing].
  - rewrite Ascii.eqb_refl. reflexivity.
  - apply free_of_cons in Fq. destruct Fq as [Q Fq].
    apply free_of_cons in Fl. destruct Fl as [L Fl].
    rewrite Ascii.eqb_sym, Q. unfold is_line_terminator in L. rewrite L.
    rewrite (IH Fq Fl). reflexivity.
Qed.

(** The bare alternative stops at the first delimiter. *)
Lemma bare_delimited name rest :
  free_of is_delimiter name ->
  (rest = EmptyString \/ exists c r, rest = String c r /\ is_delimiter c = true) ->
  bare (name ++ rest) = name.
Proof.
  induction name as [| c name IH]; intros F R; cbn [append].
  - destruct R as [-> | (c & r & -> & D)]; [reflexivity |].
    cbn [bare]. unfold is_delimiter in D. rewrite D. reflexivity.
  - apply free_of_cons in F. destruct F as [D F]. cbn [bare].
    unfold is_delimiter in D. rewrite D, (IH F R). reflexivity.
Qed.

(** No match starts before the first [f]. *)
Lemma filenameMatch_skip pre s :
  free_of (Ascii.eqb "f") pre -> filenameMatch (pre ++ s) = filenameMatch s.
Proof.
  induction pre as [| c pre IH]; intros F; [reflexivity |].
  apply free_of_cons in F. destruct F as [N F].
  cbn [append]. 
  assert (M : match_here (String c (pre ++ s)) = None).
  { unfold match_here. cbn [strip_prefix]. rewrite N. reflexivity. }
  destruct s as [| d s'];
    (cbn [filenameMatch]; rewrite M; fold filenameMatch; rewrite (IH F); reflexivity).
Qed.

Lemma filenameMatch_here s g : match_here s = Some g -> filenameMatch s = Some g.
Proof. intros M. destruct s; cbn [filenameMatch]; rewrite M; reflexivity. Qed.

Lemma append_empty_r s : s ++ "" = s.
Proof. induction s as [| c s IH]; [reflexivity |]. cbn [append]. rewrite IH. reflexivity. Qed.

(** X14.  The file name survives the header: for a Content-Disposition
    value whose [filename] parameter is the first place where an [f]
    occurs (as in [attachment; filename=...]), a name between two double
    quotes or two apostrophes that holds neither quote character nor a
    line terminator is recovered exactly, whatever follows the closing
    quote (an empty quoted name gives the empty name, not the original
    one); and a bare, non-empty name without quote characters, semicolon
    or line feed is recovered exactly when it ends the value or is
    followed by a semicolon. *)
Theorem X14_filename_round_trip pre name rest orig :
  free_of (Ascii.eqb "f") pre -> free_of is_quote name ->
  (forall q, is_quote q = true -> free_of is_line_terminator name ->
     filename_of (Some (pre ++ "filename=" ++ String q (name ++ String q rest))) orig
     = name)
  /\ (free_of is_delimiter name -> name <> "" ->
      (rest = "" \/ exists r, rest = String ";" r) ->
      filename_of (Some (pre ++ "filename=" ++ name ++ rest)) orig = name).
Proof.
  intros Fp Fq. split.
  - intros q Hq Fl. unfold filename_of.
    assert (Eh : String.eqb (pre ++ "filename=" ++ String q (name ++ String q rest)) ""
                 = false) by (destruct pre; reflexivity).
    rewrite Eh, (filenameMatch_skip _ _ Fp).
    assert (Fqq : free_of (Ascii.eqb q) name).
    { intros c Hc. pose proof (Fq c Hc) as H. unfold is_quote in *.
      apply Bool.orb_false_iff in H. destruct H as [H1 H2].
      apply Bool.orb_true_iff in Hq.
      destruct Hq as [E | E]; apply Ascii.eqb_eq in E; subst q;
        rewrite Ascii.eqb_sym; assumption. }
    rewrite (filenameMatch_here _ (String q (name ++ String q "")%string)).
    + cbn [String.eqb]. cbn [strip_quotes]. rewrite Hq, strip_quotes_app.
      cbn [strip_quotes]. rewrite Hq, (strip_quotes_id _ Fq).
      cbn [strip_quotes]. apply append_empty_r.
    + unfold match_here. cbn [append strip_prefix Ascii.eqb Bool.eqb after_equals].
      unfold group1. rewrite Hq, (closing_quoted q name rest Fqq Fl). reflexivity.
  - intros Fd Ne R. unfold filename_of.
    assert (Eh : String.eqb (pre ++ "filename=" ++ name ++ rest) "" = false)
      by (destruct pre; reflexivity).
    rewrite Eh, (filenameMatch_skip _ _ Fp).
    assert (B : bare (name ++ rest) = name).
    { apply bare_delimited; [exact Fd |].
      destruct R as [-> | (r & ->)]; [left; reflexivity |].
      right. exists ";"%char, r. split; reflexivity. }
    rewrite (filenameMatch_here _ name).
    + destruct name as [| c n]; [congruence |]. cbn [String.eqb].
      apply strip_quotes_id. exact Fq.
    + unfold match_here. cbn [append strip_prefix Ascii.eqb Bool.eqb after_equals].
      unfold group1. destruct name as [| c n]; [congruence |].
      cbn [append]. apply free_of_cons in Fq. destruct Fq as [Q _]. rewrite Q.
      f_equal. exact B.
Qed.

Lemma X14_witness :
  (free_of (Ascii.eqb "f") "attachment; " /\ free_of is_quote "report 2024.pdf" /\
   is_quote quote_char = true /\ free_of is_line_terminator "report 2024.pdf")
  /\ filename_of
       (Some ("attachment; " ++ "filename=" ++
              String quote_char ("report 2024.pdf" ++ String quote_char "; size=12")))
       "original.bin" = "report 2024.pdf".
Proof.
  assert (A : free_of (Ascii.eqb "f") "attachment; ").
  { intros c H. cbn in H. intuition (subst; reflexivity). }
  assert (B : free_of is_quote "report 2024.pdf").
  { intros c H. cbn in H. intuition (subst; reflexivity). }
  assert (C : free_of is_line_terminator "report 2024.pdf").
  { intros c H. cbn in H. intuition (subst; reflexivity). }
  split; [exact (conj A (conj B (conj eq_refl C))) |].
  exact (proj1 (X14_filename_round_trip "attachment; " "report 2024.pdf" "; size=12"
                  "original.bin" A B) quote_char eq_refl C).
Defined.

(** The characters of what [strip_prefix], [after_equals] leave are
    characters of the string. *)
Lemma after_equals_some s v : after_equals s = Some v -> In "="%char (list_ascii_of_string s).
Proof.
  induction s as [| c s IH]; [discriminate |]. cbn [after_equals list_ascii_of_string].
  destruct (Ascii.eqb_spec c "=") as [-> | _]; [intros _; left; reflexivity |].
  destruct (Ascii.eqb c ";" || Ascii.eqb c line_feed)%bool; [discriminate |].
  intros H. right. apply IH. exact H.
Qed.

Lemma strip_prefix_chars p : forall s r c,
  strip_prefix p s = Some r -> In c (list_ascii_of_string r) ->
  In c (list_ascii_of_string s).
Proof.
  induction p as [| a p IH]; intros s r c E Hc.
  - cbn in E. injection E as ->. exact Hc.
  - destruct s as [| b s]; [discriminate |]. cbn [strip_prefix] in E.
    destruct (Ascii.eqb a b); [| discriminate]. right. eapply IH; eauto.
Qed.

Lemma filenameMatch_none s : free_of (Ascii.eqb "=") s -> filenameMatch s = None.
Proof.
  induction s as [| c s IH]; intros F.
  - reflexivity.
  - assert (M : match_here (String c s) = None).
    { unfold match_here.
      destruct (strip_prefix "filename" (String c s)) as [r |] eqn:E; [| reflexivity].
      destruct (after_equals r) as [v |] eqn:A; [| reflexivity]. exfalso.
      apply after_equals_some in A.
      pose proof (F _ (strip_prefix_chars _ _ _ _ E A)) as H. discriminate H. }
    cbn [filenameMatch]. rewrite M. apply IH.
    apply free_of_cons in F. apply F.
Qed.

(** X15.  The file name falls back to the descriptor's: without a
    Content-Disposition header, with an empty one, or with one that holds
    no [=] (so no [filename] parameter), the download is saved under
    [original_filename]; and in every case the name is either
    [original_filename] itself or a string taken from the header that
    holds neither an apostrophe nor a double quote. *)
Theorem X15_filename_fallback h orig :
  filename_of None orig = orig /\ filename_of (Some "") orig = orig /\
  (free_of (Ascii.eqb "=") h -> filename_of (Some h) orig = orig) /\
  (filename_of (Some h) orig = orig \/ free_of is_quote (filename_of (Some h) orig)).
Proof.
  split; [reflexivity |]. split; [reflexivity |]. split.
  - intros F. unfold filename_of. rewrite (filenameMatch_none h F).
    destruct (String.eqb h ""); reflexivity.
  - unfold filename_of. destruct (String.eqb h ""); [left; reflexivity |].
    destruct (filenameMatch h) as [g |]; [| left; reflexivity].
    destruct (String.eqb g ""); [left; reflexivity |].
    right. apply strip_quotes_free.
Qed.

Lemma X15_witness :
  free_of (Ascii.eqb "=") "inline" /\ filename_of (Some "inline") "notes.txt" = "notes.txt".
Proof.
  assert (A : free_of (Ascii.eqb "=") "inline").
  { intros c H. cbn in H. intuition (subst; reflexivity). }
  split; [exact A |].
  exact (proj1 (proj2 (proj2 (X15_filename_fallback "inline" "notes.txt"))) A).
Defined.

(** ** The calls of the handler *)

Lemma take_length n l c rest :
  take n l = Some (c, rest) -> List.length l = S (List.length rest).
Proof.
  revert c rest. induction l as [| a l IH]; intros c rest E; [discriminate |].
  cbn [take] in E. destruct (Nat.eqb (c_id a) n).
  - injection E as <- <-. reflexivity.
  - destruct (take n l) as [[c' r'] |]; [| discriminate]. injection E as <- <-.
    cbn [List.length]. rewrite (IH c' r' eq_refl). reflexivity.
Qed.

Lemma download_run_snoc s evs e : run s (evs ++ [e]) = step (run s evs) e.
Proof. unfold run. rewrite fold_left_app. reflexivity. Qed.

Lemma calls_snoc evs e :
  calls (evs ++ [e]) =
  (calls evs + match e with HandleFileDownload _ _ => 1 | _ => 0 end)%nat /\
  calls_with_token (evs ++ [e]) =
  (calls_with_token evs +
   match e with
   | HandleFileDownload p _ => if truthy (token p) then 1 else 0
   | _ => 0
   end)%nat.
Proof.
  induction evs as [| e' evs [IH1 IH2]]; cbn [app calls calls_with_token].
  - destruct e; split; lia.
  - destruct e'; rewrite ?IH1, ?IH2; split; lia.
Qed.

Lemma download_count_app (P : Effect -> bool) l1 l2 :
  List.length (filter P (l1 ++ l2)) =
  (List.length (filter P l1) + List.length (filter P l2))%nat.
Proof. rewrite filter_app, length_app. reflexivity. Qed.

(** What one event adds to the log, and to the suspended calls. *)
Lemma step_log s e :
  exists l,
    log (step s e) = (log s ++ l)%list /\
    (List.length (filter is_toast l) + List.length (pending (step s e)) =
     List.length (pending s)
     + match e with HandleFileDownload _ _ => 1 | _ => 0 end)%nat /\
    List.length (filter is_fetch l) =
      match e with
      | HandleFileDownload p _ => if truthy (token p) then 1%nat else 0%nat
      | _ => 0%nat
      end /\
    Forall authorized l /\
    (forall acc, live_urls l acc = acc \/
                 exists u, live_urls l acc =
                           filter (fun v => negb (Nat.eqb v u)) (acc ++ [u])) /\
    (List.length (filter is_click l) = List.length (filter is_success l)).
Proof.
  assert (Same : exists l,
    log s = (log s ++ l)%list /\
    (List.length (filter is_toast l) + List.length (pending s) =
     List.length (pending s) + 0)%nat /\
    List.length (filter is_fetch l) = 0%nat /\
    Forall authorized l /\
    (forall acc, live_urls l acc = acc \/
                 exists u, live_urls l acc =
                           filter (fun v => negb (Nat.eqb v u)) (acc ++ [u])) /\
    (List.length (filter is_click l) = List.length (filter is_success l))).
  { exists []. rewrite app_nil_r. cbn. repeat split; auto. }
  assert (Catch : forall f m rest,
    List.length (pending s) = S (List.length rest) ->
    exists l,
    log (catch_block f m (set_pending rest s)) = (log s ++ l)%list /\
    (List.length (filter is_toast l)
     + List.length (pending (catch_block f m (set_pending rest s))) =
     List.length (pending s) + 0)%nat /\
    List.length (filter is_fetch l) = 0%nat /\
    Forall authorized l /\
    (forall acc, live_urls l acc = acc \/
                 exists u, live_urls l acc =
                           filter (fun v => negb (Nat.eqb v u)) (acc ++ [u])) /\
    (List.length (filter is_click l) = List.length (filter is_success l))).
  { intros f m rest L. eexists. split; [reflexivity |].
    cbn. rewrite L. repeat split; auto; try lia. repeat constructor. }
  destruct e as [p f | n r | n r | n r]; cbn [step].
  - unfold handleFileDownload. destruct (truthy (token p)) eqn:Tk; cbn [negb].
    + eexists. split; [reflexivity |]. cbn. rewrite length_app. cbn.
      repeat split; auto; try lia.
      constructor; [| constructor]. cbn.
      destruct (token p) as [tok |]; [| discriminate]. exists tok. split; [| reflexivity].
      intros ->. discriminate.
    + eexists. split; [reflexivity |]. cbn. repeat split; auto; try lia.
      repeat constructor.
  - destruct (take n (pending s)) as [[c rest] |] eqn:T; [| exact Same].
    pose proof (take_length _ _ _ _ T) as L.
    destruct (c_await c); try exact Same.
    unfold after_fetch. destruct r as [st txt cd | m]; [| apply Catch; exact L].
    destruct (is_2xx st); exists []; rewrite app_nil_r; cbn; rewrite length_app; cbn;
      repeat split; auto; lia.
  - destruct (take n (pending s)) as [[c rest] |] eqn:T; [| exact Same].
    pose proof (take_length _ _ _ _ T) as L.
    destruct (c_await c); try exact Same.
    unfold after_text. apply Catch. exact L.
  - destruct (take n (pending s)) as [[c rest] |] eqn:T; [| exact Same].
    pose proof (take_length _ _ _ _ T) as L.
    destruct (c_await c); try exact Same.
    unfold after_blob. destruct r as [| m]; [| apply Catch; exact L].
    eexists. split.
    { cbn [emit set_pending log pending next_call next_url].
      rewrite <- !app_assoc. cbn [app]. reflexivity. }
    cbn. rewrite L. repeat split; auto; try lia.
    + repeat constructor.
    + intros acc. right. exists (next_url s). reflexivity.
Qed.

Lemma download_live_urls_app l1 l2 acc :
  live_urls (l1 ++ l2) acc = live_urls l2 (live_urls l1 acc).
Proof.
  revert acc. induction l1 as [| e l1 IH]; intros acc; [reflexivity |].
  destruct e; cbn [app live_urls]; apply IH.
Qed.

(** X16.  Along every trace of the download handler, the requests sent
    are exactly as many as the calls made with a credential, each of them
    carries [Bearer] followed by a credential that is not empty, and the
    toasts shown plus the calls still suspended number exactly the calls
    made: without a credential a call fetches nothing and ends at once in
    its error toast, and every call ends in exactly one toast. *)
Theorem X16_download_calls_accounted evs :
  let s := run init evs in
  fetches s = calls_with_token evs /\
  (toasts s + List.length (pending s) = calls evs)%nat /\
  Forall authorized (log s).
Proof.
  cbv zeta. induction evs as [| e evs (IH1 & IH2 & IH3)] using rev_ind.
  - cbn. repeat split; auto.
  - rewrite download_run_snoc. destruct (calls_snoc evs e) as [-> ->].
    destruct (step_log (run init evs) e) as (l & El & Et & Ef & Ea & _).
    unfold fetches, toasts in *. rewrite El, !download_count_app.
    split; [lia |]. split; [lia |]. apply Forall_app. split; assumption.
Qed.

(** X17.  The download leaks no object URL and clicks once per success:
    along every trace, no object URL is live between two events (each one
    is created, clicked and revoked within the same turn), and the anchor
    clicks are exactly as many as the success toasts. *)
Theorem X17_download_leaves_no_object_url evs :
  let s := run init evs in
  live s = [] /\
  List.length (filter is_click (log s)) = List.length (filter is_success (log s)).
Proof.
  cbv zeta. induction evs as [| e evs (IH1 & IH2)] using rev_ind.
  - split; reflexivity.
  - rewrite download_run_snoc.
    destruct (step_log (run init evs) e) as (l & El & _ & _ & _ & Lv & Ec).
    unfold live in *. rewrite El, download_live_urls_app, IH1, !download_count_app. split; [| lia].
    destruct (Lv []) as [-> | (u & ->)]; [reflexivity |].
    cbn. rewrite Nat.eqb_refl. reflexivity.
Qed.

End DownloadFacts.

(* ===================================================================== *)
(** * The icon and its colour                                             *)
(* ===================================================================== *)

Module FileIconFacts.
Import FileIcon.

Ltac leftmost b :=
  match b with
  | (?x || _)%bool => leftmost x
  | _ => b
  end.

Ltac split_if :=
  match goal with
  | |- context [if ?b then _ else _] =>
      let a := leftmost b in destruct a eqn:?; cbn [orb]
  end.

(** X18.  The icon and the colour class of a file header go together: for
    every MIME type and file name, an icon other than [FileText] and
    [FileCode] fixes the colour class (image pink, film purple, music
    orange, spreadsheet green, presentation amber, archive yellow, JSON
    teal, database indigo, and the plain [File] icon the default
    [text-primary] class); the emerald class is only given with the
    [FileCode] icon, the red and the blue class only with [FileText]. *)
Theorem X18_icon_and_colour_agree m n :
  (forall k, colour_of (getFileIcon m n) = Some k -> getIconColorClass m n = k) /\
  (getIconColorClass m n = "text-emerald-500 bg-emerald-100 dark:bg-emerald-900/30" ->
   getFileIcon m n = FileCode) /\
  (getIconColorClass m n = "text-red-500 bg-red-100 dark:bg-red-900/30" \/
   getIconColorClass m n = "text-blue-500 bg-blue-100 dark:bg-blue-900/30" ->
   getFileIcon m n = FileText).
Proof.
  unfold getFileIcon, getIconColorClass, one_of. cbv zeta.
  generalize (extension n) as ext. intros ext. cbn [existsb].
  repeat split_if;
    (split; [intros k E; cbn [colour_of] in E; first [discriminate E | congruence] |]);
    (split; [intros E; first [reflexivity | discriminate E] |]);
    (intros [E | E]; first [reflexivity | discriminate E]).
Qed.

Lemma X18_witness :
  colour_of (getFileIcon "image/png" "cat.PNG") =
    Some "text-pink-500 bg-pink-100 dark:bg-pink-900/30"
  /\ getIconColorClass "image/png" "cat.PNG" =
     "text-pink-500 bg-pink-100 dark:bg-pink-900/30".
Proof.
  split; [reflexivity |].
  exact (proj1 (X18_icon_and_colour_agree "image/png" "cat.PNG")
           "text-pink-500 bg-pink-100 dark:bg-pink-900/30" eq_refl).
Defined.

End FileIconFacts.
